(** * user-management-app: the API service, embedded and verified

    The backend is a NestJS service over one DynamoDB table.  This file
    embeds the parts of it that decide the behaviour of the HTTP surface:

    - [UsersService]   (src/backend/src/users/users.service.ts)
    - [AuthService], [JwtStrategy]  (src/backend/src/auth/...)
    - [AuthController], [UsersController]
    - the DTO classes, the global [ValidationPipe] of [bootstrap] and the
      [ParseUUIDPipe] on the [:id] parameter

    JavaScript objects (DTOs, stored items, response bodies) are finite maps
    from property names to values; the table is a finite map from the
    partition key [userId] to items.  Asynchronous methods that talk to the
    table are computations in a state-and-exception monad over [World].

    The file has four parts: the embedding of the code; the vocabulary in
    which its properties are stated, with a small example world; facts
    about the embedding; and the properties of the specification, one
    section each. *)

From stdpp Require Import base option list strings gmap fin_maps.
From Stdlib Require Import String Ascii.

(** ** JavaScript values and objects *)

(** The values that travel through the service: JSON scalars and
    [undefined].  Arrays and nested objects are left out: no DTO of the
    service admits one, and in a request body the validation pipe strips
    or rejects them exactly as it does a number in the same place. *)
Inductive JsValue :=
| VUndefined
| VNull
| VBool (b : bool)
| VNum (n : Z)
| VStr (s : string).

#[global] Instance JsValue_eq_dec : EqDecision JsValue.
Proof. solve_decision. Defined.

(** An object is a finite map of its own properties. *)
Abbreviation JsObject := (gmap string JsValue).

(** [o.k]: reading a property that is not there gives [undefined]. *)
Definition prop (o : JsObject) (k : string) : JsValue :=
  default VUndefined (o !! k).

(** ToBoolean. *)
Definition truthy (v : JsValue) : bool :=
  match v with
  | VUndefined | VNull => false
  | VBool b => b
  | VNum n => negb (n =? 0)%Z
  | VStr s => negb (String.eqb s EmptyString)
  end.

(** [a || b]. *)
Definition js_or (a b : JsValue) : JsValue := if truthy a then a else b.

(** [const { k, ...rest } = o]: the rest object. *)
Definition omit (k : string) (o : JsObject) : JsObject := delete k o.

Definition dquote : string := String (ascii_of_nat 34) EmptyString.

(** ** The user model (user.interface.ts) *)

Module UserRole.
Definition USER : JsValue := VStr "USER".
Definition ADMIN : JsValue := VStr "ADMIN".
Definition values : list JsValue := [USER; ADMIN].
End UserRole.

(** ** Exceptions *)

Inductive Exception :=
| BadRequestException (message : string)
| UnauthorizedException (message : string)
| ForbiddenException (message : string)
| NotFoundException (message : string)
| ConflictException (message : string)
| InternalServerErrorException (message : string)
(* thrown by the DynamoDB client when a ConditionExpression is false *)
| ConditionalCheckFailedException
(* any other failure of the DynamoDB client: the table cannot be reached,
   the request is throttled or malformed *)
| DynamoDBServiceException
(* a method called on a value that does not have it *)
| TypeError.

#[global] Instance Exception_eq_dec : EqDecision Exception.
Proof. solve_decision. Defined.

(** ** The world: the table and the availability of the store *)

(** [outages] is consumed by one entry for every command sent to the
    table: [true] makes that command fail with a service exception.  An
    empty list is a store that answers every command from then on. *)
Record World := mkWorld {
  table : gmap string JsObject;
  outages : list bool;
}.

Inductive Result (A : Type) :=
| Ok (a : A)
| Throw (e : Exception).
Arguments Ok {A} a.
Arguments Throw {A} e.

Definition M (A : Type) : Type := World → Result A * World.

Definition ret {A} (a : A) : M A := λ w, (Ok a, w).
Definition throw {A} (e : Exception) : M A := λ w, (Throw e, w).
Definition bind {A B} (m : M A) (k : A → M B) : M B :=
  λ w, match m w with
       | (Ok a, w') => k a w'
       | (Throw e, w') => (Throw e, w')
       end.
(** [try { m } catch (error) { h error }] *)
Definition try_catch {A} (m : M A) (h : Exception → M A) : M A :=
  λ w, match m w with
       | (Ok a, w') => (Ok a, w')
       | (Throw e, w') => h e w'
       end.

Notation "'await' x ← m ; k" := (bind m (λ x, k))
  (at level 10, x name, m at level 100, k at level 200,
   format "'[v' 'await'  x  ←  m ; '/' k ']'").

(** A string method is about to be called on [v]. *)
Definition as_string (v : JsValue) : M string :=
  match v with
  | VStr s => ret s
  | _ => throw TypeError
  end.

(** ** The DynamoDB document client *)

Inductive Condition :=
| attribute_exists (a : string)
| attribute_not_exists (a : string).

(** The commands the service builds.  An update expression
    [SET n1 = :v1, n2 = :v2] is the list of its clauses, each a name (or a
    [#placeholder]) and a [:value] placeholder; ReturnValues is ALL_NEW. *)
Inductive Command :=
| PutCommand (Item : JsObject) (ConditionExpression : Condition)
| GetCommand (Key : string)
| ScanCommand (ProjectionExpression : list string)
              (ExpressionAttributeNames : gmap string string)
| QueryCommand (IndexName : string) (email : string) (Limit : nat)
| UpdateCommand (Key : string) (UpdateExpression : list (string * string))
                (ExpressionAttributeValues : gmap string JsValue)
                (ExpressionAttributeNames : gmap string string)
                (ConditionExpression : Condition)
| DeleteCommand (Key : string) (ConditionExpression : Condition).

Record Output := mkOutput {
  Item : option JsObject;
  Items : option (list JsObject);
  Attributes : option JsObject;
}.

Definition no_output : Output := mkOutput None None None.

Definition holds (c : Condition) (existing : option JsObject) : bool :=
  match c with
  | attribute_exists a => bool_decide (is_Some (existing ≫= (.!! a)))
  | attribute_not_exists a => negb (bool_decide (is_Some (existing ≫= (.!! a))))
  end.

Definition resolve_name (names : gmap string string) (n : string) : option string :=
  match n with
  | String "#" _ => names !! n
  | _ => Some n
  end.

Definition resolve_clause (names : gmap string string) (values : gmap string JsValue)
    (c : string * string) : option (string * JsValue) :=
  a ← resolve_name names c.1;
  v ← values !! c.2;
  Some (a, v).

Definition assign (item : JsObject) (av : string * JsValue) : JsObject :=
  <[av.1 := av.2]> item.

(** The items of the table, in the order a scan visits them. *)
Definition scan_items (t : gmap string JsObject) : list JsObject :=
  (map_to_list t).*2.

(** The document client is taken to write no attribute for a property
    whose value is [undefined]. *)
Definition marshall (o : JsObject) : JsObject :=
  filter (λ kv, kv.2 ≠ VUndefined) o.

(** What the table does with a command that reaches it.  An item is
    stored under the string in its [userId]; a query on the email index
    returns the items with that email; an update is checked (every
    placeholder resolves, no attribute is assigned twice, the key is not
    assigned) before its condition is looked at. *)
Definition execute (c : Command) (t : gmap string JsObject)
  : Result Output * gmap string JsObject :=
  match c with
  | PutCommand item cond =>
      match item !! "userId" with
      | Some (VStr key) =>
          if holds cond (t !! key)
          then (Ok no_output, <[key := marshall item]> t)
          else (Throw ConditionalCheckFailedException, t)
      | _ => (Throw DynamoDBServiceException, t)
      end
  | GetCommand key =>
      (Ok (mkOutput (t !! key) None None), t)
  | ScanCommand projection names =>
      match mapM (resolve_name names) projection with
      | Some attrs =>
          (Ok (mkOutput None
                 (Some ((λ it : JsObject, filter (λ kv, kv.1 ∈ attrs) it) <$> scan_items t))
                 None), t)
      | None => (Throw DynamoDBServiceException, t)
      end
  | QueryCommand _ email limit =>
      (Ok (mkOutput None
             (Some (take limit
                (filter (λ it : JsObject, it !! "email" = Some (VStr email)) (scan_items t))))
             None), t)
  | UpdateCommand key expr values names cond =>
      match mapM (resolve_clause names values) expr with
      | Some assignments =>
          if bool_decide (NoDup assignments.*1 ∧ "userId" ∉ assignments.*1) then
            if holds cond (t !! key) then
              let item' :=
                foldl assign (default {[ "userId" := VStr key ]} (t !! key)) assignments in
              (Ok (mkOutput None None (Some item')), <[key := item']> t)
            else (Throw ConditionalCheckFailedException, t)
          else (Throw DynamoDBServiceException, t)
      | None => (Throw DynamoDBServiceException, t)
      end
  | DeleteCommand key cond =>
      if holds cond (t !! key)
      then (Ok no_output, delete key t)
      else (Throw ConditionalCheckFailedException, t)
  end.

(** [this.dynamoDbClient.send(command)] *)
Definition send (c : Command) : M Output :=
  λ w,
    match outages w with
    | true :: rest => (Throw DynamoDBServiceException, mkWorld (table w) rest)
    | down =>
        let '(r, t') := execute c (table w) in
        (r, mkWorld t' (tail down))
    end.

(** ** Library functions the service calls *)

(** [String.prototype.toLowerCase], of which nothing is used but that
    lowering a lowered string changes nothing; bcrypt; the validator
    predicates behind [@IsEmail], [@IsUrl] and [ParseUUIDPipe]; and the
    signing of a token by [JwtService]. *)
Class Platform := {
  toLowerCase : string → string;
  toLowerCase_idem s : toLowerCase (toLowerCase s) = toLowerCase s;
  bcrypt_hash : string → nat → string;
  bcrypt_compare : string → string → bool;
  isEmail : string → bool;
  isURL : string → bool;
  isUUID : string → bool;
  jwt_sign : JsObject → string;
}.

(** ** class-validator and the global ValidationPipe *)

Inductive Validator :=
| IsString
| IsEmail
| IsNotEmpty
| MinLength (n : nat)
| IsEnum (values : list JsValue)
| IsBoolean
| IsUrl.

(** A decorated property of a DTO class. *)
Record Property := mkProperty {
  name : string;
  IsOptional : bool;
  validators : list Validator;
}.

Definition DtoClass := list Property.

Definition CreateUserDto : DtoClass :=
  [ mkProperty "email" false [IsEmail; IsNotEmpty];
    mkProperty "password" false [IsString; MinLength 8; IsNotEmpty];
    mkProperty "firstName" true [IsString];
    mkProperty "lastName" true [IsString];
    mkProperty "role" true [IsEnum UserRole.values];
    mkProperty "avatarUrl" true [IsUrl] ].

Definition UpdateUserDto : DtoClass :=
  [ mkProperty "firstName" true [IsString];
    mkProperty "lastName" true [IsString];
    mkProperty "role" true [IsEnum UserRole.values];
    mkProperty "isDisabled" true [IsBoolean];
    mkProperty "password" true [IsString; MinLength 8];
    mkProperty "avatarUrl" true [IsUrl] ].

Definition UpdateProfileDto : DtoClass :=
  [ mkProperty "firstName" true [IsString];
    mkProperty "lastName" true [IsString];
    mkProperty "avatarUrl" true [IsUrl] ].

Definition LoginDto : DtoClass :=
  [ mkProperty "email" false [IsEmail; IsNotEmpty];
    mkProperty "password" false [IsString; MinLength 8; IsNotEmpty] ].

Section Validation.
Context `{Platform}.

Definition check (v : Validator) (x : JsValue) : bool :=
  match v, x with
  | IsString, VStr _ => true
  | IsEmail, VStr s => isEmail s
  | IsNotEmpty, x =>
      negb (bool_decide (x = VStr EmptyString ∨ x = VNull ∨ x = VUndefined))
  | MinLength n, VStr s => (n <=? String.length s)%nat
  | IsEnum values, x => bool_decide (x ∈ values)
  | IsBoolean, VBool _ => true
  | IsUrl, VStr s => isURL s
  | _, _ => false
  end.

Definition valid_property (dto : JsObject) (p : Property) : bool :=
  let x := prop dto (name p) in
  if IsOptional p && bool_decide (x = VUndefined ∨ x = VNull) then true
  else forallb (λ v, check v x) (validators p).

(** [whitelist: true]: properties without a decorator are stripped. *)
Definition whitelist (cls : DtoClass) (body : JsObject) : JsObject :=
  filter (λ kv, kv.1 ∈ name <$> cls) body.

Definition conforms (cls : DtoClass) (dto : JsObject) : bool :=
  forallb (valid_property dto) cls.

(** [new ValidationPipe({ whitelist: true, transform: true })] applied to
    a body bound with [@Body()].  The constraint messages of a rejected
    body are summarised in one message. *)
Definition ValidationPipe (cls : DtoClass) (body : JsObject) : M JsObject :=
  let dto := whitelist cls body in
  if conforms cls dto then ret dto
  else throw (BadRequestException "Validation failed").

(** [ParseUUIDPipe] on a route parameter, as in
    [@Param('id', ParseUUIDPipe) id: string]. *)
Definition ParseUUIDPipe (value : string) : M string :=
  if isUUID value then ret value
  else throw (BadRequestException "Validation failed (uuid is expected)").
End Validation.

(** ** UsersService (users.service.ts) *)

Module UsersService.
Section UsersService.
Context `{Platform}.

Definition saltRounds : nat := 10.

Definition findOneById (userId : string) : M (option JsObject) :=
  let command := GetCommand userId in
  try_catch
    (await result ← send command;
     ret (Item result))
    (λ error, ret None).

Definition findOneByIdOrFail (userId : string) : M JsObject :=
  await user ← findOneById userId;
  match user with
  | None =>
      throw (NotFoundException
               ("User with ID " +:+ dquote +:+ userId +:+ dquote +:+ " not found"))
  | Some user => ret user
  end.

Definition findOneByEmail (email : JsValue) : M (option JsObject) :=
  await email ← as_string email;
  let command := QueryCommand "EmailIndex" (toLowerCase email) 1 in
  try_catch
    (await result ← send command;
     match Items result with
     | Some (item :: _) => ret (Some item)
     | _ => ret None
     end)
    (λ error, ret None).

Definition findOneByEmailOrFail (email : JsValue) : M JsObject :=
  await user ← findOneByEmail email;
  match user with
  | None =>
      await email ← as_string email;
      throw (NotFoundException
               ("User with email " +:+ dquote +:+ email +:+ dquote +:+ " not found"))
  | Some user => ret user
  end.

(** [uuid] is the value of [uuidv4()] and [now] the value of
    [new Date().toISOString()] for this call. *)
Definition create (uuid now : string) (createUserDto : JsObject) : M JsObject :=
  if negb (truthy (prop createUserDto "email"))
     || negb (truthy (prop createUserDto "password"))
  then throw (BadRequestException "Email and password are required.")
  else
    await existingUser ← findOneByEmail (prop createUserDto "email");
    if existingUser is Some _
    then throw (ConflictException "Email already registered.")
    else
      let userId := uuid in
      await password ← as_string (prop createUserDto "password");
      let hashedPassword := bcrypt_hash password saltRounds in
      await email ← as_string (prop createUserDto "email");
      let userItem : JsObject :=
        list_to_map
          [ ("userId", VStr userId);
            ("email", VStr (toLowerCase email));
            ("passwordHash", VStr hashedPassword);
            ("firstName", js_or (prop createUserDto "firstName") (VStr EmptyString));
            ("lastName", js_or (prop createUserDto "lastName") (VStr EmptyString));
            ("role", js_or (prop createUserDto "role") UserRole.ADMIN);
            ("isDisabled", VBool false);
            ("createdAt", VStr now);
            ("updatedAt", VStr now);
            ("avatarUrl", prop createUserDto "avatarUrl") ] in
      let command := PutCommand userItem (attribute_not_exists "userId") in
      try_catch
        (await _ ← send command;
         ret (omit "passwordHash" userItem))
        (λ error,
           match error with
           | ConditionalCheckFailedException =>
               throw (InternalServerErrorException
                        "Failed to create user due to ID conflict.")
           | _ => throw (InternalServerErrorException "Could not create user.")
           end).

Definition findAll : M (list JsObject) :=
  let command :=
    ScanCommand
      ["userId"; "email"; "firstName"; "lastName"; "#rl"; "isDisabled";
       "createdAt"; "updatedAt"; "avatarUrl"]
      {[ "#rl" := "role" ]} in
  try_catch
    (await result ← send command;
     ret (default [] (Items result)))
    (λ error, throw (InternalServerErrorException "Could not retrieve users.")).

(** The accumulators of the loop that builds the update expression. *)
Record Expression := mkExpression {
  updateExpression : list (string * string);
  expressionAttributeValues : gmap string JsValue;
  expressionAttributeNames : gmap string string;
}.

(** One round of [for (const [key, value] of Object.entries(dto))]. *)
Definition add_entry (acc : Expression) (entry : string * JsValue) : Expression :=
  let '(key, value) := entry in
  if bool_decide (key = "password") then acc
  else if bool_decide (value ≠ VUndefined) then
    let names1 :=
      if bool_decide (key = "role")
      then <["#rl" := "role"]> (expressionAttributeNames acc)
      else expressionAttributeNames acc in
    let attrNameKey1 := if bool_decide (key = "role") then "#rl" else key in
    let names2 :=
      if bool_decide (key = "isDisabled")
      then <["#disabled" := "isDisabled"]> names1
      else names1 in
    let attrNameKey2 :=
      if bool_decide (key = "isDisabled") then "#disabled" else attrNameKey1 in
    let valueKey := ":" +:+ key in
    mkExpression (updateExpression acc ++ [(attrNameKey2, valueKey)])
                 (<[valueKey := value]> (expressionAttributeValues acc))
                 names2
  else acc.

Definition update (now : string) (userId : string) (updateUserDto : JsObject)
  : M JsObject :=
  let init := mkExpression [("updatedAt", ":ua")] {[ ":ua" := VStr now ]} ∅ in
  let built := foldl add_entry init (map_to_list updateUserDto) in
  let password := prop updateUserDto "password" in
  await built ←
    (if truthy password then
       if (if password is VStr s then (String.length s <? 8)%nat else false)
       then throw (BadRequestException "Password must be at least 8 characters long.")
       else
         await password ← as_string password;
         let hashedPassword := bcrypt_hash password saltRounds in
         ret (mkExpression
                (updateExpression built ++ [("passwordHash", ":ph")])
                (<[":ph" := VStr hashedPassword]> (expressionAttributeValues built))
                (expressionAttributeNames built))
     else ret built);
  if (size (expressionAttributeValues built) <=? 1)%nat && negb (truthy password)
  then
    await currentUser ← findOneByIdOrFail userId;
    ret (omit "passwordHash" currentUser)
  else
    let command :=
      UpdateCommand userId (updateExpression built)
        (expressionAttributeValues built) (expressionAttributeNames built)
        (attribute_exists "userId") in
    try_catch
      (await result ← send command;
       match Attributes result with
       | Some attributes => ret (omit "passwordHash" attributes)
       | None => throw TypeError
       end)
      (λ error,
         match error with
         | ConditionalCheckFailedException =>
             throw (NotFoundException
                      ("User with ID " +:+ dquote +:+ userId +:+ dquote +:+ " not found."))
         | _ => throw (InternalServerErrorException "Could not update user.")
         end).

(** One round of the loop of [updateProfile]: no key is skipped and no
    name is replaced by a placeholder. *)
Definition add_profile_entry (acc : Expression) (entry : string * JsValue) : Expression :=
  let '(key, value) := entry in
  if bool_decide (value ≠ VUndefined) then
    let valueKey := ":" +:+ key in
    mkExpression (updateExpression acc ++ [(key, valueKey)])
                 (<[valueKey := value]> (expressionAttributeValues acc))
                 (expressionAttributeNames acc)
  else acc.

Definition updateProfile (now : string) (userId : string) (updateProfileDto : JsObject)
  : M JsObject :=
  let init := mkExpression [("updatedAt", ":ua")] {[ ":ua" := VStr now ]} ∅ in
  let built := foldl add_profile_entry init (map_to_list updateProfileDto) in
  if (size (expressionAttributeValues built) <=? 1)%nat
  then
    await currentUser ← findOneByIdOrFail userId;
    ret (omit "passwordHash" currentUser)
  else
    let command :=
      UpdateCommand userId (updateExpression built)
        (expressionAttributeValues built) ∅
        (attribute_exists "userId") in
    try_catch
      (await result ← send command;
       match Attributes result with
       | Some attributes => ret (omit "passwordHash" attributes)
       | None => throw TypeError
       end)
      (λ error,
         match error with
         | ConditionalCheckFailedException =>
             throw (NotFoundException
                      ("User with ID " +:+ dquote +:+ userId +:+ dquote +:+ " not found."))
         | _ => throw (InternalServerErrorException "Could not update user.")
         end).

Definition remove (userId : string) : M unit :=
  let command := DeleteCommand userId (attribute_exists "userId") in
  try_catch
    (await _ ← send command;
     ret tt)
    (λ error,
       match error with
       | ConditionalCheckFailedException =>
           throw (NotFoundException
                    ("User with ID " +:+ dquote +:+ userId +:+ dquote +:+ " not found."))
       | _ => throw (InternalServerErrorException "Could not delete user.")
       end).
End UsersService.
End UsersService.

(** ** Token claims and the authenticated caller (auth/interfaces) *)

Module JwtPayload.
Record t := mk {
  email : JsValue;
  sub : string;
  role : JsValue;
  avatarUrl : JsValue;
}.
End JwtPayload.

Module AuthenticatedUser.
Record t := mk {
  userId : string;
  email : JsValue;
  role : JsValue;
  avatarUrl : JsValue;
}.
End AuthenticatedUser.

(** ** JwtStrategy (auth/strategies/jwt.strategy.ts) *)

Module JwtStrategy.
Section JwtStrategy.
Context `{Platform}.

(** Passport calls this once the signature and the expiry of the token
    have been checked. *)
Definition validate (payload : JwtPayload.t) : M AuthenticatedUser.t :=
  await user ← UsersService.findOneById (JwtPayload.sub payload);
  match user with
  | Some user =>
      if truthy (prop user "isDisabled")
      then throw (UnauthorizedException "User not found or disabled.")
      else ret (AuthenticatedUser.mk (JwtPayload.sub payload)
                  (JwtPayload.email payload) (JwtPayload.role payload)
                  (JwtPayload.avatarUrl payload))
  | None => throw (UnauthorizedException "User not found or disabled.")
  end.
End JwtStrategy.
End JwtStrategy.

(** ** RolesGuard (auth/guards/roles.guard.ts) *)

Module RolesGuard.
(** [requiredRoles] is what the reflector finds under [ROLES_KEY] on the
    handler or on its class: nothing when neither carries [@Roles(...)].
    [user] is [request.user]. *)
Definition canActivate (requiredRoles : option (list JsValue))
    (user : option AuthenticatedUser.t) : bool :=
  match requiredRoles with
  | None => true
  | Some requiredRoles =>
      match user with
      | None => false
      | Some user =>
          if negb (truthy (AuthenticatedUser.role user)) then false
          else bool_decide (AuthenticatedUser.role user ∈ requiredRoles)
      end
  end.
End RolesGuard.

(** ** AuthService (auth/auth.service.ts) *)

Module AuthService.
Section AuthService.
Context `{Platform}.

Definition validateUser (email pass : JsValue) : M (option JsObject) :=
  await user ← UsersService.findOneByEmail email;
  match user with
  | None => ret None
  | Some user =>
      if truthy (prop user "isDisabled")
      then throw (UnauthorizedException "Account has been disabled. Try again later.")
      else
        await data ← as_string pass;
        await encrypted ← as_string (prop user "passwordHash");
        let isPasswordMatching := bcrypt_compare data encrypted in
        if isPasswordMatching
        then ret (Some (omit "passwordHash" user))
        else ret None
  end.

Definition login (user : JsObject) : M JsObject :=
  if negb (truthy (prop user "userId"))
     || negb (truthy (prop user "email"))
     || negb (truthy (prop user "role"))
  then throw (InternalServerErrorException
                "Cannot generate token due to invalid user data.")
  else
    let payload : JsObject :=
      list_to_map
        [ ("email", prop user "email");
          ("sub", prop user "userId");
          ("role", prop user "role");
          ("avatarUrl", js_or (prop user "avatarUrl") VNull) ] in
    let accessToken := jwt_sign payload in
    ret (list_to_map [ ("access_token", VStr accessToken) ]).

Definition register (uuid now : string) (createUserDto : JsObject) : M JsObject :=
  try_catch
    (await newUser ← UsersService.create uuid now createUserDto;
     ret newUser)
    (λ error, throw error).
End AuthService.
End AuthService.

(** ** What a handler returns and what the client receives *)

Inductive Returned :=
| RUndefined
| RObject (o : JsObject)
| RArray (l : list JsObject).

Record Response := mkResponse {
  status : nat;
  body : Returned;
}.

Definition error_body (statusCode : nat) (message error : string) : Returned :=
  RObject (list_to_map [ ("statusCode", VNum (Z.of_nat statusCode));
                         ("message", VStr message);
                         ("error", VStr error) ]).

(** Nest's built-in exception filter: an HttpException keeps its status
    and message, anything else is a 500. *)
Definition exception_filter (e : Exception) : Response :=
  match e with
  | BadRequestException m => mkResponse 400 (error_body 400 m "Bad Request")
  | UnauthorizedException m => mkResponse 401 (error_body 401 m "Unauthorized")
  | ForbiddenException m => mkResponse 403 (error_body 403 m "Forbidden")
  | NotFoundException m => mkResponse 404 (error_body 404 m "Not Found")
  | ConflictException m => mkResponse 409 (error_body 409 m "Conflict")
  | InternalServerErrorException m =>
      mkResponse 500 (error_body 500 m "Internal Server Error")
  | _ =>
      mkResponse 500
        (RObject (list_to_map [ ("statusCode", VNum 500);
                                ("message", VStr "Internal server error") ]))
  end.

(** A route: run the handler, answer with [code] and what it returned,
    or with what the exception filter makes of the exception. *)
Definition route (code : nat) (handler : M Returned) (w : World) : Response * World :=
  match handler w with
  | (Ok r, w') => (mkResponse code r, w')
  | (Throw e, w') => (exception_filter e, w')
  end.

(** ** AuthController (auth/auth.controller.ts) *)

Module AuthController.
Section AuthController.
Context `{Platform}.

Definition login (loginDto : JsObject) : M Returned :=
  await validatedUser ←
    AuthService.validateUser (prop loginDto "email") (prop loginDto "password");
  match validatedUser with
  | None => throw (UnauthorizedException "Invalid credentials")
  | Some validatedUser =>
      await token ← AuthService.login validatedUser;
      ret (RObject token)
  end.

Definition register (uuid now : string) (createUserDto : JsObject) : M Returned :=
  try_catch
    (await newUser ← AuthService.register uuid now createUserDto;
     ret (RObject newUser))
    (λ error,
       match error with
       | ConflictException _ => throw error
       | BadRequestException _ => throw error
       | _ => ret RUndefined
       end).

(** POST /auth/login, [@HttpCode(HttpStatus.OK)] *)
Definition POST_login (body : JsObject) : World → Response * World :=
  route 200 (await loginDto ← ValidationPipe LoginDto body; login loginDto).

(** POST /auth/register, 201 by default *)
Definition POST_register (uuid now : string) (body : JsObject)
  : World → Response * World :=
  route 201 (await createUserDto ← ValidationPipe CreateUserDto body;
             register uuid now createUserDto).
End AuthController.
End AuthController.

(** ** UsersController (users/users.controller.ts) *)

(** Every handler below runs behind [JwtAuthGuard]; [req_user] is what
    [JwtStrategy.validate] attached to the request.  The admin routes
    run behind [RolesGuard] with [@Roles(UserRole.ADMIN)] as well. *)
Module UsersController.
Section UsersController.
Context `{Platform}.

Definition getProfile (req_user : AuthenticatedUser.t) : M Returned :=
  let userId := AuthenticatedUser.userId req_user in
  await user ← UsersService.findOneByIdOrFail userId;
  ret (RObject (omit "passwordHash" user)).

Definition updateOwnProfile (now : string) (req_user : AuthenticatedUser.t)
    (updateProfileDto : JsObject) : M Returned :=
  let userId := AuthenticatedUser.userId req_user in
  await updated ← UsersService.update now userId updateProfileDto;
  ret (RObject updated).

Definition create (uuid now : string) (createUserDto : JsObject) : M Returned :=
  await created ← UsersService.create uuid now createUserDto;
  ret (RObject created).

Definition findAll : M Returned :=
  await users ← UsersService.findAll;
  ret (RArray users).

Definition findOne (id : string) : M Returned :=
  await user ← UsersService.findOneByIdOrFail id;
  ret (RObject (omit "passwordHash" user)).

Definition update (now : string) (id : string) (updateUserDto : JsObject)
    (req_user : AuthenticatedUser.t) : M Returned :=
  let adminUserId := AuthenticatedUser.userId req_user in
  if bool_decide (id = adminUserId)
     && (bool_decide (prop updateUserDto "role" ≠ UserRole.ADMIN)
         || truthy (prop updateUserDto "isDisabled"))
  then throw (ForbiddenException
                "Admins cannot change their own role or disable themselves.")
  else
    await updated ← UsersService.update now id updateUserDto;
    ret (RObject updated).

Definition remove (id : string) (req_user : AuthenticatedUser.t) : M Returned :=
  let adminUserId := AuthenticatedUser.userId req_user in
  if bool_decide (id = adminUserId)
  then throw (ForbiddenException "Admins cannot delete their own account.")
  else
    await _ ← UsersService.remove id;
    ret RUndefined.

(** GET /users/profile *)
Definition GET_profile (req_user : AuthenticatedUser.t) : World → Response * World :=
  route 200 (getProfile req_user).

(** PATCH /users/profile *)
Definition PATCH_profile (now : string) (req_user : AuthenticatedUser.t)
    (body : JsObject) : World → Response * World :=
  route 200 (await updateProfileDto ← ValidationPipe UpdateProfileDto body;
             updateOwnProfile now req_user updateProfileDto).

(** POST /users *)
Definition POST_users (uuid now : string) (body : JsObject)
  : World → Response * World :=
  route 201 (await createUserDto ← ValidationPipe CreateUserDto body;
             create uuid now createUserDto).

(** GET /users *)
Definition GET_users : World → Response * World := route 200 findAll.

(** GET /users/:id *)
Definition GET_user (id : string) : World → Response * World :=
  route 200 (await id ← ParseUUIDPipe id; findOne id).

(** PATCH /users/:id *)
Definition PATCH_user (now : string) (id : string) (req_user : AuthenticatedUser.t)
    (body : JsObject) : World → Response * World :=
  route 200 (await id ← ParseUUIDPipe id;
             await updateUserDto ← ValidationPipe UpdateUserDto body;
             update now id updateUserDto req_user).

(** DELETE /users/:id, [@HttpCode(HttpStatus.NO_CONTENT)] *)
Definition DELETE_user (id : string) (req_user : AuthenticatedUser.t)
  : World → Response * World :=
  route 204 (await id ← ParseUUIDPipe id; remove id req_user).
End UsersController.
End UsersController.

(** * The web client *)

(** ** The auth store (frontend/stores/authStore.ts) *)

(** [localStorage]. *)
Abbreviation Storage := (gmap string string).

Module UserState.
Record t := mk {
  userId : string;
  email : string;
  role : string;
  avatarUrl : JsValue;
}.
End UserState.

Module DecodedToken.
Record t := mk {
  sub : string;
  email : string;
  role : string;
  exp : Z;
  avatarUrl : JsValue;
  iat : Z;
}.
End DecodedToken.

Module AuthState.
Record t := mk {
  token : option string;
  user : option UserState.t;
}.
End AuthState.

(** What the client takes from its libraries: [jwtDecode] of jwt-decode,
    which gives the claims of a token or throws, and the email check of
    zod's [z.string().email()]. *)
Class Browser := {
  jwtDecode : string → option DecodedToken.t;
  z_email : string → bool;
}.

(** [!token] for a token that is a string or [null]. *)
Definition falsy (token : option string) : bool :=
  match token with
  | Some t => String.eqb t EmptyString
  | None => true
  end.

Module AuthStore.
Section AuthStore.
Context `{Browser}.

(** [window] tells whether the code runs in a browser. *)
Definition getInitialToken (window : bool) (localStorage : Storage) : option string :=
  if window then localStorage !! "authToken" else None.

(** [now] is the value of [Date.now()]. *)
Definition decodeToken (now : Z) (token : option string) (localStorage : Storage)
  : option UserState.t * Storage :=
  match token with
  | Some t =>
      if String.eqb t EmptyString then (None, localStorage)
      else
        match jwtDecode t with
        | Some decoded =>
            if (DecodedToken.exp decoded * 1000 <? now)%Z
            then (None, delete "authToken" localStorage)
            else (Some (UserState.mk (DecodedToken.sub decoded)
                          (DecodedToken.email decoded) (DecodedToken.role decoded)
                          (DecodedToken.avatarUrl decoded)),
                  localStorage)
        | None => (None, delete "authToken" localStorage)
        end
  | None => (None, localStorage)
  end.

(** The state the store is created with. *)
Definition initialState (window : bool) (now : Z) (localStorage : Storage)
  : AuthState.t * Storage :=
  let token := getInitialToken window localStorage in
  let '(user, localStorage) :=
    decodeToken now (getInitialToken window localStorage) localStorage in
  (AuthState.mk token user, localStorage).

Definition setToken (now : Z) (token : option string) (s : AuthState.t * Storage)
  : AuthState.t * Storage :=
  match token with
  | Some t =>
      if String.eqb t EmptyString
      then (AuthState.mk None None, delete "authToken" s.2)
      else
        let localStorage := <["authToken" := t]> s.2 in
        let '(user, localStorage) := decodeToken now token localStorage in
        (AuthState.mk token user, localStorage)
  | None => (AuthState.mk None None, delete "authToken" s.2)
  end.

Definition logout (s : AuthState.t * Storage) : AuthState.t * Storage :=
  (AuthState.mk None None, delete "authToken" s.2).
End AuthStore.
End AuthStore.

(** ** The API client (frontend lib/apiClient) *)

Module ApiClient.
(** The request interceptor, on the headers of a request. *)
Definition interceptor (localStorage : Storage) (headers : gmap string string)
  : gmap string string :=
  match localStorage !! "authToken" with
  | Some token =>
      if String.eqb token EmptyString then headers
      else <["Authorization" := "Bearer " +:+ token]> headers
  | None => headers
  end.
End ApiClient.

(** ** withAuth (frontend components/withAuth) *)

Module WithAuth.
Inductive Rendered :=
| Authenticating
| Redirecting
| WrappedComponent.

#[global] Instance Rendered_eq_dec : EqDecision Rendered.
Proof. solve_decision. Defined.

(** [allowedRoles && allowedRoles.length > 0 && !allowedRoles.includes(role)] *)
Definition turned_away (allowedRoles : option (list string)) (role : string) : bool :=
  match allowedRoles with
  | Some ((_ :: _) as allowedRoles) => negb (bool_decide (role ∈ allowedRoles))
  | _ => false
  end.

(** The effect: the route it replaces the current one with, if any. *)
Definition effect (allowedRoles : option (list string)) (s : AuthState.t)
  : option string :=
  if falsy (AuthState.token s) then Some "/login"
  else
    match AuthState.user s with
    | Some user =>
        if turned_away allowedRoles (UserState.role user) then Some "/dashboard"
        else None
    | None => None
    end.

Definition render (allowedRoles : option (list string)) (s : AuthState.t) : Rendered :=
  match AuthState.user s with
  | Some user =>
      if falsy (AuthState.token s) then Authenticating
      else if turned_away allowedRoles (UserState.role user) then Redirecting
      else WrappedComponent
  | None => Authenticating
  end.
End WithAuth.

(** ** The landing page and the layout (frontend app/page.tsx,
       components/layout.tsx) *)

Module HomePage.
(** The token of the store is a string or [null], never [undefined]. *)
Definition effect (s : AuthState.t) : option string :=
  if negb (falsy (AuthState.token s)) && bool_decide (is_Some (AuthState.user s))
  then Some "/admin/users"
  else Some "/login".
End HomePage.

Module Layout.
(** [user?.role === 'ADMIN']: whether the sidebar has the Users link. *)
Definition users_link (user : option UserState.t) : bool :=
  match user with
  | Some user => bool_decide (UserState.role user = "ADMIN")
  | None => false
  end.
End Layout.

(** ** The user form dialog (frontend components/admin/UserFormDialog.tsx) *)

Module UserFormDialog.
Section UserFormDialog.
Context `{Browser}.

(** [userFormSchema]: what the resolver lets through to [onSubmit]. *)
Definition userFormSchema (values : JsObject) : bool :=
  match prop values "email" with VStr e => z_email e | _ => false end
  && match prop values "password" with
     | VUndefined => true
     | VStr p => (8 <=? String.length p)%nat || String.eqb p EmptyString
     | _ => false
     end
  && match prop values "firstName" with VUndefined | VStr _ => true | _ => false end
  && match prop values "lastName" with VUndefined | VStr _ => true | _ => false end
  && bool_decide (prop values "role" ∈ UserRole.values)
  && match prop values "isDisabled" with VBool _ => true | _ => false end.
End UserFormDialog.

(** What [onSubmit] does with the values of the form. *)
Inductive Submitted :=
| toast_error (message : string)
| patch (id : JsValue) (payload : JsObject)
| post (payload : JsObject).

(** [user] is the user being edited, [null] when the dialog creates one. *)
Definition onSubmit (user : option JsObject) (values : JsObject) : Submitted :=
  let isEditMode := bool_decide (is_Some user) in
  let payload := values in
  let send payload :=
    match user with
    | Some user => patch (prop user "userId") payload
    | None => post payload
    end in
  if isEditMode && negb (truthy (prop payload "password"))
  then send (delete "password" payload)
  else if negb isEditMode && negb (truthy (prop payload "password"))
  then toast_error "Password is required for new users."
  else send payload.
End UserFormDialog.

(** * Vocabulary of the specification *)

(** ** A concrete platform and a small table, for examples *)

Module Demo.
(** Lower case on the ASCII letters. *)
Definition lower_ascii (c : ascii) : ascii :=
  let n := nat_of_ascii c in
  if (65 <=? n)%nat && (n <=? 90)%nat then ascii_of_nat (n + 32) else c.

Fixpoint ascii_toLowerCase (s : string) : string :=
  match s with
  | EmptyString => EmptyString
  | String c r => String (lower_ascii c) (ascii_toLowerCase r)
  end.

Lemma lower_ascii_idem c : lower_ascii (lower_ascii c) = lower_ascii c.
Proof. by destruct c as [[] [] [] [] [] [] [] []]. Qed.

Lemma ascii_toLowerCase_idem s :
  ascii_toLowerCase (ascii_toLowerCase s) = ascii_toLowerCase s.
Proof. induction s as [|c s IH]; simpl; [done|]. by rewrite lower_ascii_idem, IH. Qed.

Fixpoint has_at (s : string) : bool :=
  match s with
  | EmptyString => false
  | String c r => if Ascii.eqb c "@" then true else has_at r
  end.

Definition is_hex (c : ascii) : bool :=
  let n := nat_of_ascii c in
  (48 <=? n) && (n <=? 57) || (65 <=? n) && (n <=? 70) || (97 <=? n) && (n <=? 102).

(** [n] hexadecimal digits, then the rest. *)
Fixpoint hex_run (n : nat) (s : string) : option string :=
  match n, s with
  | 0, _ => Some s
  | S n, String c r => if is_hex c then hex_run n r else None
  | S _, EmptyString => None
  end.

Definition dash (s : option string) : option string :=
  match s with
  | Some (String c r) => if Ascii.eqb c "-" then Some r else None
  | _ => None
  end.

(** The shape 8-4-4-4-12 of hexadecimal digits. *)
Definition uuid_shape (s : string) : bool :=
  match
    r ← dash (hex_run 8 s); r ← dash (hex_run 4 r); r ← dash (hex_run 4 r);
    r ← dash (hex_run 4 r); hex_run 12 r
  with
  | Some EmptyString => true
  | _ => false
  end.

Definition platform : Platform :=
  {| toLowerCase := ascii_toLowerCase;
     toLowerCase_idem := ascii_toLowerCase_idem;
     bcrypt_hash p rounds := "$2b$10$" +:+ p;
     bcrypt_compare p h := String.eqb ("$2b$10$" +:+ p) h;
     isEmail := has_at;
     isURL s := String.prefix "http" s;
     isUUID := uuid_shape;
     jwt_sign o := "jwt." +:+ (if o !! "sub" is Some (VStr s) then s else "?") |}.

(** The ids of the examples: two stored users, a user to be created and
    an id nobody has. *)
Definition ann_id : string := "11111111-1111-4111-8111-111111111111".
Definition bob_id : string := "22222222-2222-4222-8222-222222222222".
Definition carol_id : string := "33333333-3333-4333-8333-333333333333".
Definition nobody_id : string := "99999999-9999-4999-8999-999999999999".

Definition ann : JsObject :=
  list_to_map
    [ ("userId", VStr ann_id);
      ("email", VStr "ann@example.com");
      ("passwordHash", VStr "$2b$10$secret123");
      ("firstName", VStr "Ann");
      ("lastName", VStr "Lee");
      ("role", VStr "ADMIN");
      ("isDisabled", VBool false);
      ("createdAt", VStr "2024-01-01T00:00:00.000Z");
      ("updatedAt", VStr "2024-01-01T00:00:00.000Z") ].

Definition bob : JsObject :=
  list_to_map
    [ ("userId", VStr bob_id);
      ("email", VStr "bob@example.com");
      ("passwordHash", VStr "$2b$10$hunter2hunter2");
      ("firstName", VStr "Bob");
      ("lastName", VStr EmptyString);
      ("role", VStr "USER");
      ("isDisabled", VBool true);
      ("createdAt", VStr "2024-01-05T00:00:00.000Z");
      ("updatedAt", VStr "2024-01-07T00:00:00.000Z") ].

(** Ann and Bob, in a store that answers. *)
Definition world : World := mkWorld (list_to_map [(ann_id, ann); (bob_id, bob)]) [].

(** The same table behind a store whose second command fails. *)
Definition flaky : World := mkWorld (table world) [false; true].

Definition admin_ann : AuthenticatedUser.t :=
  AuthenticatedUser.mk ann_id (VStr "ann@example.com") UserRole.ADMIN VNull.

Definition ann_token : JwtPayload.t :=
  JwtPayload.mk (VStr "ann@example.com") ann_id UserRole.ADMIN VNull.
End Demo.

(** ** Invariants, outcomes and proof-side names *)

(** Every item is stored under its own [userId]. *)
Definition keyed (t : gmap string JsObject) : Prop :=
  ∀ id item, t !! id = Some item → item !! "userId" = Some (VStr id).

(** Stored emails are in lower case. *)
Definition normalized `{Platform} (t : gmap string JsObject) : Prop :=
  ∀ id item e, t !! id = Some item → item !! "email" = Some (VStr e) →
    toLowerCase e = e.

(** No two records share an email, compared without case. *)
Definition unique_emails `{Platform} (t : gmap string JsObject) : Prop :=
  ∀ id1 id2 item1 item2 e1 e2,
    t !! id1 = Some item1 → t !! id2 = Some item2 →
    item1 !! "email" = Some (VStr e1) → item2 !! "email" = Some (VStr e2) →
    toLowerCase e1 = toLowerCase e2 → id1 = id2.

(** The store answers the next command. *)
Definition answers (w : World) : Prop := hd false (outages w) = false.

(** No object of a response carries a password hash. *)
Definition hash_free (r : Returned) : Prop :=
  match r with
  | RUndefined => True
  | RObject o => o !! "passwordHash" = None
  | RArray l => Forall (λ o : JsObject, o !! "passwordHash" = None) l
  end.



(** An entry of the DTO that the loop turns into a SET clause. *)
Definition selected (entry : string * JsValue) : Prop :=
  entry.1 ≠ "password" ∧ entry.2 ≠ VUndefined.

#[global] Instance selected_dec entry : Decision (selected entry).
Proof. unfold selected. apply _. Defined.

(** The properties a DTO of [UpdateUserDto] (or of [UpdateProfileDto])
    can have once the pipe has stripped the others. *)
Definition updatable (key : string) : Prop := key ∈ name <$> UpdateUserDto.

Definition names_ok (names : gmap string string) : Prop :=
  ∀ n a, names !! n = Some a →
         (n = "#rl" ∧ a = "role") ∨ (n = "#disabled" ∧ a = "isDisabled").

(** The clauses of [acc] resolve to the assignments [asg]. *)
Definition resolves (acc : UsersService.Expression) (asg : list (string * JsValue)) : Prop :=
  Forall2 (λ c y, resolve_clause (UsersService.expressionAttributeNames acc)
                    (UsersService.expressionAttributeValues acc) c = Some y)
          (UsersService.updateExpression acc) asg.

(** A DTO whose properties are all properties of [UpdateUserDto]. *)
Definition clean (dto : JsObject) : Prop :=
  ∀ key, is_Some (dto !! key) → updatable key.

(** The entries of the DTO that become SET clauses. *)
Definition entries (dto : JsObject) : list (string * JsValue) :=
  filter selected (map_to_list dto).

(** The outcome of the UpdateCommand that [update] sends. *)
Definition written (id : string) (asg : list (string * JsValue)) (w : World)
  : Result JsObject * World :=
  let w1 t := mkWorld t (tail (outages w)) in
  if hd false (outages w)
  then (Throw (InternalServerErrorException "Could not update user."), w1 (table w))
  else if holds (attribute_exists "userId") (table w !! id)
  then
    let item' := foldl assign (default {[ "userId" := VStr id ]} (table w !! id)) asg in
    (Ok (omit "passwordHash" item'), w1 (<[id := item']> (table w)))
  else (Throw (NotFoundException
                 ("User with ID " +:+ dquote +:+ id +:+ dquote +:+ " not found.")),
        w1 (table w)).

Definition rejected : Result AuthenticatedUser.t :=
  Throw (UnauthorizedException "User not found or disabled.").

(** The requests of the HTTP surface, guards passed. *)
Inductive Request :=
| PostLogin (body : JsObject)
| PostRegister (uuid now : string) (body : JsObject)
| GetProfile (req_user : AuthenticatedUser.t)
| PatchProfile (now : string) (req_user : AuthenticatedUser.t) (body : JsObject)
| PostUsers (uuid now : string) (body : JsObject)
| GetUsers
| GetUser (id : string)
| PatchUser (now id : string) (req_user : AuthenticatedUser.t) (body : JsObject)
| DeleteUser (id : string) (req_user : AuthenticatedUser.t).

(** How a table can differ from the one before a request; [fresh e] is
    what is known of the email of a record that has been put. *)
Inductive evolves `{Platform} (fresh : string → Prop) (t t' : gmap string JsObject)
  : Prop :=
| evolves_same : t' = t → evolves fresh t t'
| evolves_put uuid item e :
    t' = <[uuid := item]> t →
    item !! "userId" = Some (VStr uuid) →
    item !! "email" = Some (VStr (toLowerCase e)) →
    fresh e →
    evolves fresh t t'
| evolves_update id item item' :
    t' = <[id := item']> t → t !! id = Some item →
    item' !! "userId" = item !! "userId" → item' !! "email" = item !! "email" →
    evolves fresh t t'
| evolves_delete id : t' = delete id t → evolves fresh t t'.

(** No record of [w] has the email, provided the store answers. *)
Definition unused `{Platform} (w : World) (e : string) : Prop :=
  answers w →
  ∀ id item, table w !! id = Some item → item !! "email" ≠ Some (VStr (toLowerCase e)).

(** ** Tactics *)

(** Lookups in object literals. *)
Ltac obj_lookup :=
  cbn [list_to_map foldr fst snd];
  repeat first
    [ rewrite lookup_insert_eq
    | rewrite lookup_insert_ne by discriminate
    | rewrite lookup_delete_eq
    | rewrite lookup_delete_ne by discriminate
    | rewrite lookup_empty ].

(** Closed equations between large objects are checked by evaluation. *)
Ltac by_vm :=
  lazymatch goal with |- _ = ?r => vm_cast_no_check (@eq_refl _ r) end.

(** Unfolding of the monad. *)
Ltac run :=
  repeat progress (unfold bind, try_catch, ret, throw, as_string in *; cbv beta iota in * ).

(** A name that is no property of [UpdateUserDto]. *)
Ltac solve_not_updatable :=
  unfold updatable; cbn; rewrite !elem_of_cons, elem_of_nil; intuition discriminate.

(** ** Names that depend on the platform *)

Section Vocabulary.
Context `{Platform}.

(** The object literal [userItem] that [create] builds, given the email
    and the password it has read from the DTO. *)
Definition userItem_of (uuid now e p : string) (dto : JsObject) : JsObject :=
  list_to_map
    [ ("userId", VStr uuid);
      ("email", VStr (toLowerCase e));
      ("passwordHash", VStr (bcrypt_hash p UsersService.saltRounds));
      ("firstName", js_or (prop dto "firstName") (VStr EmptyString));
      ("lastName", js_or (prop dto "lastName") (VStr EmptyString));
      ("role", js_or (prop dto "role") UserRole.ADMIN);
      ("isDisabled", VBool false);
      ("createdAt", VStr now);
      ("updatedAt", VStr now);
      ("avatarUrl", prop dto "avatarUrl") ].

(** What the password of the DTO adds: nothing, an assignment of the new
    hash, or an exception. *)
Definition password_clause (dto : JsObject) : Exception + list (string * JsValue) :=
  let password := prop dto "password" in
  if truthy password then
    match password with
    | VStr s =>
        if (String.length s <? 8)%nat
        then inl (BadRequestException "Password must be at least 8 characters long.")
        else inr [("passwordHash", VStr (bcrypt_hash s UsersService.saltRounds))]
    | _ => inl TypeError
    end
  else inr [].

Definition serve (request : Request) : World → Response * World :=
  match request with
  | PostLogin body => AuthController.POST_login body
  | PostRegister uuid now body => AuthController.POST_register uuid now body
  | GetProfile req_user => UsersController.GET_profile req_user
  | PatchProfile now req_user body => UsersController.PATCH_profile now req_user body
  | PostUsers uuid now body => UsersController.POST_users uuid now body
  | GetUsers => UsersController.GET_users
  | GetUser id => UsersController.GET_user id
  | PatchUser now id req_user body => UsersController.PATCH_user now id req_user body
  | DeleteUser id req_user => UsersController.DELETE_user id req_user
  end.

(** The worlds that arise from an empty table by serving requests. *)
Inductive reachable : World → Prop :=
| reachable_empty down : reachable (mkWorld ∅ down)
| reachable_serve request w : reachable w → reachable (serve request w).2.
End Vocabulary.

(** ** Example requests *)

(** Registration of Carol with an email and a password only. *)
Definition carol_dto : JsObject :=
  list_to_map [ ("email", VStr "Carol@Example.com"); ("password", VStr "correct horse") ].

Definition carol : JsObject :=
  @userItem_of Demo.platform Demo.carol_id "2024-03-01T00:00:00.000Z"
    "Carol@Example.com" "correct horse" carol_dto.

Definition world_with_carol : World :=
  mkWorld (<[Demo.carol_id := marshall carol]> (table Demo.world)) [].

Definition first_name_only : JsObject := list_to_map [ ("firstName", VStr "Annie") ].


Definition later : string := "2024-06-01T00:00:00.000Z".

Definition rename_ann : JsObject :=
  whitelist UpdateUserDto
    (list_to_map [ ("lastName", VStr "Smith"); ("email", VStr "eve@example.com") ]).

Definition nosy_profile_body : JsObject :=
  list_to_map
    [ ("firstName", VStr "Annie"); ("role", VStr "USER"); ("isDisabled", VBool true);
      ("email", VStr "eve@example.com"); ("passwordHash", VStr "x");
      ("userId", VStr Demo.nobody_id); ("createdAt", VStr "1999-01-01T00:00:00.000Z") ].

Definition disable_ann : JsObject :=
  whitelist UpdateUserDto
    (list_to_map [ ("isDisabled", VBool true); ("role", VStr "ADMIN") ]).

Definition disabled_ann : JsObject :=
  <["isDisabled" := VBool true]>
    (<["role" := VStr "ADMIN"]> (<["updatedAt" := VStr later]> Demo.ann)).

Definition register_ann_again : JsObject :=
  list_to_map [ ("email", VStr "ANN@Example.com"); ("password", VStr "another secret") ].

(** ** Names for the further properties *)

(** The attributes the scan of [findAll] projects. *)
Definition projected : list string :=
  ["userId"; "email"; "firstName"; "lastName"; "role"; "isDisabled";
   "createdAt"; "updatedAt"; "avatarUrl"].

(** The claims [AuthService.login] signs for a user. *)
Definition claims_of (user : JsObject) : JsObject :=
  list_to_map
    [ ("email", prop user "email");
      ("sub", prop user "userId");
      ("role", prop user "role");
      ("avatarUrl", js_or (prop user "avatarUrl") VNull) ].

(** A login body. *)
Definition credentials (email password : string) : JsObject :=
  list_to_map [ ("email", VStr email); ("password", VStr password) ].

(** Whether the guard of [UsersController.update] turns the request away. *)
Definition self_guard (id : string) (req : AuthenticatedUser.t) (dto : JsObject) : bool :=
  bool_decide (id = AuthenticatedUser.userId req)
  && (bool_decide (prop dto "role" ≠ UserRole.ADMIN) || truthy (prop dto "isDisabled")).

(** A DTO whose properties are all properties of [UpdateProfileDto]. *)
Definition profile_only (dto : JsObject) : Prop :=
  ∀ key, is_Some (dto !! key) → key ∈ name <$> UpdateProfileDto.

(** What every record of a table that the service has built looks like. *)
Definition well_formed `{Platform} (id : string) (item : JsObject) : Prop :=
  item !! "userId" = Some (VStr id) ∧
  (∃ e, item !! "email" = Some (VStr e) ∧ toLowerCase e = e) ∧
  (∃ h, item !! "passwordHash" = Some (VStr h)) ∧
  (∃ c, item !! "createdAt" = Some (VStr c)) ∧
  item !! "password" = None.

(** How one request can change the table. *)
Inductive Change `{Platform} (t t' : gmap string JsObject) : Prop :=
| change_none : t' = t → Change t t'
| change_put uuid now e p dto :
    t' = <[uuid := marshall (userItem_of uuid now e p dto)]> t →
    Change t t'
| change_update now id dto extra item :
    clean dto → password_clause dto = inr extra → t !! id = Some item →
    t' = <[id := foldl assign item (("updatedAt", VStr now) :: entries dto ++ extra)]> t →
    Change t t'
| change_delete id : t' = delete id t → Change t t'.

(** ** Names for the properties of the web client *)

(** What a user of the client does to the store. *)
Inductive Action :=
| SetToken (now : Z) (token : option string)
| Logout.

Definition act `{Browser} (a : Action) (s : AuthState.t * Storage)
  : AuthState.t * Storage :=
  match a with
  | SetToken now token => AuthStore.setToken now token s
  | Logout => AuthStore.logout s
  end.

(** The states of the store in a browser. *)
Inductive store_reachable `{Browser} : AuthState.t * Storage → Prop :=
| store_created now localStorage :
    store_reachable (AuthStore.initialState true now localStorage)
| store_acted a s : store_reachable s → store_reachable (act a s).

(** The user the store shows for the claims of a token. *)
Definition user_of (decoded : DecodedToken.t) : UserState.t :=
  UserState.mk (DecodedToken.sub decoded) (DecodedToken.email decoded)
    (DecodedToken.role decoded) (DecodedToken.avatarUrl decoded).

(** The store and the storage agree. *)
Definition in_step `{Browser} (s : AuthState.t * Storage) : Prop :=
  match AuthState.user s.1 with
  | Some user =>
      ∃ t decoded,
        t ≠ EmptyString ∧ AuthState.token s.1 = Some t ∧ s.2 !! "authToken" = Some t ∧
        jwtDecode t = Some decoded ∧ user = user_of decoded
  | None => s.2 !! "authToken" = None ∨ s.2 !! "authToken" = Some EmptyString
  end.

(** The effect of the page at a path: the landing page, the users page
    behind [withAuth(AdminUsersPage, [UserRole.ADMIN])], the pages behind
    a plain [withAuth], and the pages that are open. *)
Definition page_effect (path : string) (s : AuthState.t) : option string :=
  if bool_decide (path = "/") then HomePage.effect s
  else if bool_decide (path = "/admin/users") then WithAuth.effect (Some ["ADMIN"]) s
  else if bool_decide (path ∈ ["/dashboard"; "/profile"; "/change-password"])
  then WithAuth.effect None s
  else None.

(** Following the redirections, at most [fuel] of them. *)
Fixpoint settle (fuel : nat) (path : string) (s : AuthState.t) : string :=
  match fuel with
  | 0 => path
  | S fuel =>
      match page_effect path s with
      | Some next => settle fuel next s
      | None => path
      end
  end.

(** The values the resolver hands to [onSubmit] have the properties of
    the schema and no other. *)
Definition form_values (values : JsObject) : Prop :=
  ∀ key, is_Some (values !! key) →
         key ∈ ["email"; "password"; "firstName"; "lastName"; "role"; "isDisabled"].

(** ** Further examples *)

Definition login_ann : JsObject := credentials "Ann@Example.com" "secret123".

Definition new_password : JsObject :=
  whitelist UpdateUserDto (list_to_map [ ("password", VStr "new password") ]).

Definition ann_with_new_password : JsObject :=
  <["passwordHash" := VStr "$2b$10$new password"]>
    (<["updatedAt" := VStr later]> Demo.ann).

Definition keep_admin_body : JsObject :=
  list_to_map [ ("role", VStr "ADMIN"); ("lastName", VStr "Smith") ].

Definition register_admin : JsObject :=
  list_to_map [ ("email", VStr "dave@example.com"); ("password", VStr "correct horse");
                ("role", VStr "ADMIN") ].

Definition dave : JsObject :=
  @userItem_of Demo.platform Demo.carol_id later "dave@example.com" "correct horse"
    (whitelist CreateUserDto register_admin).


Definition bob_without_role : JsObject :=
  <["role" := VNull]> (<["updatedAt" := VStr later]> Demo.bob).



(** Ann's record after she has been made a plain user. *)
Definition demoted_ann : JsObject := <["role" := VStr "USER"]> Demo.ann.

(** A browser that knows two tokens, one of them long expired. *)
Definition ann_claims : DecodedToken.t :=
  DecodedToken.mk Demo.ann_id "ann@example.com" "ADMIN" 1800000000 VNull 1700000000.

Definition old_claims : DecodedToken.t :=
  DecodedToken.mk Demo.ann_id "ann@example.com" "ADMIN" 1600000000 VNull 1500000000.

Definition demo_browser : Browser :=
  {| jwtDecode t :=
       if String.eqb t "ann.jwt" then Some ann_claims
       else if String.eqb t "old.jwt" then Some old_claims
       else None;
     z_email := Demo.has_at |}.

(** [Date.now()] on a day in November 2023. *)
Definition today : Z := 1700000000000.

(** The edit form for Ann, the last name changed and the password left
    blank. *)
Definition edit_ann : JsObject :=
  list_to_map
    [ ("email", VStr "ann@example.com"); ("password", VStr EmptyString);
      ("firstName", VStr "Ann"); ("lastName", VStr "Smith");
      ("role", VStr "ADMIN"); ("isDisabled", VBool false) ].

(** * Facts about the embedding *)

Section Facts.
Context `{Platform}.

Lemma prop_lookup o k v : o !! k = Some v → prop o k = v.
Proof. unfold prop. by intros ->. Qed.

Lemma prop_marshall o k : prop (marshall o) k = prop o k.
Proof.
  unfold prop, marshall.
  destruct (o !! k) as [v|] eqn:Hk; simpl.
  - destruct (decide (v = VUndefined)) as [->|Hv].
    + destruct (filter _ o !! k) as [v'|] eqn:Hf; [|done].
      apply map_lookup_filter_Some in Hf as [Hf Hv']. simpl in *. congruence.
    + erewrite (proj2 (map_lookup_filter_Some _ o k v)); done.
  - destruct (filter _ o !! k) as [v'|] eqn:Hf; [|done].
    apply map_lookup_filter_Some in Hf as [Hf _]. congruence.
Qed.

Lemma marshall_lookup_defined o k v :
  o !! k = Some v → v ≠ VUndefined → marshall o !! k = Some v.
Proof. intros Hk Hv. by apply map_lookup_filter_Some. Qed.

Lemma marshall_lookup_Some o k v : marshall o !! k = Some v → o !! k = Some v.
Proof. intros Hk. by apply map_lookup_filter_Some in Hk as [? _]. Qed.

Lemma send_spec c w :
  send c w =
    if hd false (outages w)
    then (Throw DynamoDBServiceException, mkWorld (table w) (tail (outages w)))
    else let '(r, t') := execute c (table w) in (r, mkWorld t' (tail (outages w))).
Proof. unfold send. by destruct (outages w) as [|[] ?]. Qed.

Lemma scan_items_elem (t : gmap string JsObject) item :
  item ∈ scan_items t ↔ ∃ id, t !! id = Some item.
Proof.
  unfold scan_items. rewrite list_elem_of_fmap. split.
  - intros [[id it] [-> Hin]]. exists id. by apply elem_of_map_to_list.
  - intros [id Hid]. exists (id, item). split; [done|]. by apply elem_of_map_to_list.
Qed.

Lemma findOneById_spec userId w :
  UsersService.findOneById userId w =
    (Ok (if hd false (outages w) then None else table w !! userId),
     mkWorld (table w) (tail (outages w))).
Proof.
  unfold UsersService.findOneById. run. rewrite send_spec.
  by destruct (hd false (outages w)).
Qed.

Lemma findOneByEmail_spec e w :
  UsersService.findOneByEmail (VStr e) w =
    (Ok (if hd false (outages w) then None
         else head (filter (λ it : JsObject, it !! "email" = Some (VStr (toLowerCase e)))
                           (scan_items (table w)))),
     mkWorld (table w) (tail (outages w))).
Proof.
  unfold UsersService.findOneByEmail. run. rewrite send_spec.
  destruct (hd false (outages w)); [done|]. simpl.
  by destruct (filter _ _) as [|? ?].
Qed.

Lemma findOneByEmail_table email w :
  table (UsersService.findOneByEmail email w).2 = table w.
Proof.
  destruct email; try done. by rewrite findOneByEmail_spec.
Qed.

(** What [create] does once it is past its first guard and has a string
    for an email: one lookup, then at most one conditional write. *)
Lemma create_steps uuid now dto e w :
  prop dto "email" = VStr e →
  negb (truthy (VStr e)) || negb (truthy (prop dto "password")) = false →
  UsersService.create uuid now dto w =
    let found :=
      if hd false (outages w) then None
      else head (filter (λ it : JsObject, it !! "email" = Some (VStr (toLowerCase e)))
                        (scan_items (table w))) in
    let w1 := mkWorld (table w) (tail (outages w)) in
    match found with
    | Some _ => (Throw (ConflictException "Email already registered."), w1)
    | None =>
        match prop dto "password" with
        | VStr p =>
            let item := userItem_of uuid now e p dto in
            if hd false (outages w1)
            then (Throw (InternalServerErrorException "Could not create user."),
                  mkWorld (table w) (tail (outages w1)))
            else if holds (attribute_not_exists "userId") (table w !! uuid)
            then (Ok (omit "passwordHash" item),
                  mkWorld (<[uuid := marshall item]> (table w)) (tail (outages w1)))
            else (Throw (InternalServerErrorException
                           "Failed to create user due to ID conflict."),
                  mkWorld (table w) (tail (outages w1)))
        | _ => (Throw TypeError, w1)
        end
    end.
Proof.
  intros He Hguard. unfold UsersService.create. rewrite He, Hguard.
  unfold bind at 1. rewrite findOneByEmail_spec. cbv zeta.
  destruct (if hd false (outages w) then None else _) as [found|]; [done|].
  destruct (prop dto "password") as [| |b|n|p] eqn:Hp; try done.
  run. rewrite send_spec. cbn [table outages].
  destruct (hd false (tail (outages w))); [done|].
  unfold execute, userItem_of. obj_lookup.
  by destruct (holds _ _).
Qed.

Lemma userItem_of_role uuid now e p dto :
  userItem_of uuid now e p dto !! "role"
  = Some (js_or (prop dto "role") UserRole.ADMIN).
Proof. unfold userItem_of. by obj_lookup. Qed.

Lemma userItem_of_email uuid now e p dto :
  userItem_of uuid now e p dto !! "email" = Some (VStr (toLowerCase e)).
Proof. unfold userItem_of. by obj_lookup. Qed.

Lemma userItem_of_userId uuid now e p dto :
  userItem_of uuid now e p dto !! "userId" = Some (VStr uuid).
Proof. unfold userItem_of. by obj_lookup. Qed.

(** A successful [create] wrote exactly one item, under [uuid]. *)
Lemma create_Ok uuid now dto w user w' :
  UsersService.create uuid now dto w = (Ok user, w') →
  ∃ e p, prop dto "email" = VStr e ∧ prop dto "password" = VStr p ∧
         user = omit "passwordHash" (userItem_of uuid now e p dto) ∧
         table w' = <[uuid := marshall (userItem_of uuid now e p dto)]> (table w).
Proof.
  intros Hc.
  destruct (negb (truthy (prop dto "email")) || negb (truthy (prop dto "password")))
    eqn:Hguard.
  { unfold UsersService.create in Hc. by rewrite Hguard in Hc. }
  destruct (prop dto "email") as [| |b|n|e] eqn:He.
  1-4: unfold UsersService.create in Hc; rewrite He, Hguard in Hc; by run.
  rewrite (create_steps _ _ _ e) in Hc by done. cbv zeta in Hc.
  repeat case_match; simplify_eq/=; by do 2 eexists.
Qed.

Lemma whitelist_lookup cls body k :
  whitelist cls body !! k
  = if bool_decide (k ∈ name <$> cls) then body !! k else None.
Proof.
  unfold whitelist. case_bool_decide as Hk.
  - destruct (body !! k) as [v|] eqn:Hb.
    + by apply map_lookup_filter_Some.
    + apply map_lookup_filter_None. left. done.
  - apply map_lookup_filter_None. right. intros v _. done.
Qed.

Lemma prop_whitelist cls body k :
  prop (whitelist cls body) k
  = if bool_decide (k ∈ name <$> cls) then prop body k else VUndefined.
Proof. unfold prop. rewrite whitelist_lookup. by case_bool_decide. Qed.

Lemma prop_whitelist_in cls body k :
  k ∈ name <$> cls → prop (whitelist cls body) k = prop body k.
Proof. intros Hk. by rewrite prop_whitelist, bool_decide_eq_true_2. Qed.

Lemma prop_whitelist_out cls body k :
  k ∉ name <$> cls → prop (whitelist cls body) k = VUndefined.
Proof. intros Hk. by rewrite prop_whitelist, bool_decide_eq_false_2. Qed.

Lemma ValidationPipe_spec cls body w :
  ValidationPipe cls body w
  = if conforms cls (whitelist cls body)
    then (Ok (whitelist cls body), w)
    else (Throw (BadRequestException "Validation failed"), w).
Proof. unfold ValidationPipe. by destruct (conforms _ _). Qed.

Lemma ParseUUIDPipe_spec id w :
  ParseUUIDPipe id w
  = if isUUID id then (Ok id, w)
    else (Throw (BadRequestException "Validation failed (uuid is expected)"), w).
Proof. unfold ParseUUIDPipe. by destruct (isUUID _). Qed.

(** The pipe leaves the world alone. *)
Lemma ValidationPipe_world cls body w : (ValidationPipe cls body w).2 = w.
Proof. rewrite ValidationPipe_spec. by destruct (conforms _ _). Qed.

Lemma remove_spec userId w :
  UsersService.remove userId w =
    let w1 t := mkWorld t (tail (outages w)) in
    if hd false (outages w)
    then (Throw (InternalServerErrorException "Could not delete user."), w1 (table w))
    else if holds (attribute_exists "userId") (table w !! userId)
    then (Ok tt, w1 (delete userId (table w)))
    else (Throw (NotFoundException
                   ("User with ID " +:+ dquote +:+ userId +:+ dquote +:+ " not found.")),
          w1 (table w)).
Proof.
  unfold UsersService.remove. run. rewrite send_spec.
  destruct (hd false (outages w)); [done|]. unfold execute.
  by destruct (holds _ _).
Qed.


(** The store answers and the one record with the email is [user]. *)
Lemma findOneByEmail_found e w id user :
  answers w →
  table w !! id = Some user →
  user !! "email" = Some (VStr (toLowerCase e)) →
  (∀ id' item, table w !! id' = Some item →
               item !! "email" = Some (VStr (toLowerCase e)) → id' = id) →
  UsersService.findOneByEmail (VStr e) w
  = (Ok (Some user), mkWorld (table w) (tail (outages w))).
Proof.
  intros Hans Hid Hemail Honly. rewrite findOneByEmail_spec, Hans.
  destruct (filter _ _) as [|item l] eqn:Hf.
  - exfalso. eapply filter_nil_not_elem_of; [exact Hf| exact Hemail |].
    apply scan_items_elem. eauto.
  - assert (Hin : item ∈ filter (λ it : JsObject, it !! "email" = Some (VStr (toLowerCase e)))
                           (scan_items (table w))) by (rewrite Hf; left).
    apply list_elem_of_filter in Hin as [Hemail' [id' Hid']%scan_items_elem].
    assert (id' = id) as -> by eauto. simpl. congruence.
Qed.

(** What the lookup returns is a record of the table with that email. *)
Lemma findOneByEmail_Some e w user w' :
  UsersService.findOneByEmail (VStr e) w = (Ok (Some user), w') →
  answers w ∧ user !! "email" = Some (VStr (toLowerCase e)) ∧
  ∃ id, table w !! id = Some user.
Proof.
  rewrite findOneByEmail_spec. unfold answers.
  destruct (hd false (outages w)); [done|]. intros [= Hhead _].
  apply head_Some_elem_of, list_elem_of_filter in Hhead as [? ?%scan_items_elem].
  done.
Qed.


(** The login handler after a lookup with a known result. *)
Lemma login_after_lookup loginDto e found w w1 :
  prop loginDto "email" = VStr e →
  UsersService.findOneByEmail (VStr e) w = (Ok found, w1) →
  AuthController.login loginDto w =
    match found with
    | None => (Throw (UnauthorizedException "Invalid credentials"), w1)
    | Some user =>
        if truthy (prop user "isDisabled")
        then (Throw (UnauthorizedException "Account has been disabled. Try again later."),
              w1)
        else match prop loginDto "password", prop user "passwordHash" with
             | VStr data, VStr encrypted =>
                 if bcrypt_compare data encrypted
                 then match AuthService.login (omit "passwordHash" user) w1 with
                      | (Ok token, w2) => (Ok (RObject token), w2)
                      | (Throw e, w2) => (Throw e, w2)
                      end
                 else (Throw (UnauthorizedException "Invalid credentials"), w1)
             | _, _ => (Throw TypeError, w1)
             end
    end.
Proof.
  intros He Hfound.
  unfold AuthController.login, AuthService.validateUser.
  rewrite He. run. rewrite Hfound.
  destruct found as [user|]; [|done].
  destruct (truthy (prop user "isDisabled")); [done|].
  destruct (prop loginDto "password"); try done.
  destruct (prop user "passwordHash"); try done.
  destruct (bcrypt_compare _ _); [|done].
  simpl. by destruct (AuthService.login _ _) as [[] ?].
Qed.

Lemma updatable_cases key :
  updatable key →
  key = "firstName" ∨ key = "lastName" ∨ key = "role" ∨ key = "isDisabled"
  ∨ key = "password" ∨ key = "avatarUrl".
Proof.
  unfold updatable. cbn. rewrite !elem_of_cons, elem_of_nil. tauto.
Qed.

Lemma colon_inj k k' : ":" +:+ k = ":" +:+ k' → k = k'.
Proof. change (String ":" k = String ":" k' → k = k'). congruence. Qed.

Lemma add_entry_skip acc entry :
  ¬ selected entry → UsersService.add_entry acc entry = acc.
Proof.
  destruct entry as [key value]. unfold selected, UsersService.add_entry. simpl.
  intros Hns. case_bool_decide; [done|]. case_bool_decide; [|done]. tauto.
Qed.

Lemma resolve_name_plain names c n :
  c ≠ "#"%char → resolve_name names (String c n) = Some (String c n).
Proof. intros Hc. destruct c as [[] [] [] [] [] [] [] []]; done. Qed.

Lemma names_ok_insert_rl names : names_ok names → names_ok (<["#rl" := "role"]> names).
Proof.
  intros Hok n a. destruct (decide (n = "#rl")) as [->|Hn].
  - rewrite lookup_insert_eq. intros [= <-]. by left.
  - rewrite lookup_insert_ne by done. apply Hok.
Qed.

Lemma names_ok_insert_disabled names :
  names_ok names → names_ok (<["#disabled" := "isDisabled"]> names).
Proof.
  intros Hok n a. destruct (decide (n = "#disabled")) as [->|Hn].
  - rewrite lookup_insert_eq. intros [= <-]. by right.
  - rewrite lookup_insert_ne by done. apply Hok.
Qed.

Lemma names_ok_lookup_rl names n a :
  names_ok names → names !! n = Some a → <["#rl" := "role"]> names !! n = Some a.
Proof.
  intros Hok Hn. destruct (decide (n = "#rl")) as [->|Hne].
  - rewrite lookup_insert_eq. destruct (Hok _ _ Hn) as [[_ ->]|[? _]]; done.
  - by rewrite lookup_insert_ne.
Qed.

Lemma names_ok_lookup_disabled names n a :
  names_ok names → names !! n = Some a →
  <["#disabled" := "isDisabled"]> names !! n = Some a.
Proof.
  intros Hok Hn. destruct (decide (n = "#disabled")) as [->|Hne].
  - rewrite lookup_insert_eq. destruct (Hok _ _ Hn) as [[? _]|[_ ->]]; done.
  - by rewrite lookup_insert_ne.
Qed.

Lemma resolve_name_mono names names' n a :
  (∀ n a, names !! n = Some a → names' !! n = Some a) →
  resolve_name names n = Some a → resolve_name names' n = Some a.
Proof.
  intros Hsub. destruct n as [|c n]; [done|].
  destruct (decide (c = "#"%char)) as [->|Hc].
  - apply Hsub.
  - by rewrite !resolve_name_plain.
Qed.

Lemma add_entry_selected acc key value :
  selected (key, value) → updatable key → names_ok (UsersService.expressionAttributeNames acc) →
  UsersService.expressionAttributeValues acc !! (":" +:+ key) = None →
  let acc' := UsersService.add_entry acc (key, value) in
  names_ok (UsersService.expressionAttributeNames acc') ∧
  UsersService.expressionAttributeValues acc'
    = <[":" +:+ key := value]> (UsersService.expressionAttributeValues acc) ∧
  (∀ asg, resolves acc asg → resolves acc' (asg ++ [(key, value)])).
Proof.
  intros [Hpw Hval] Hkey Hnames Hfresh. simpl in Hpw, Hval.
  unfold UsersService.add_entry.
  rewrite (bool_decide_eq_false_2 _ Hpw), (bool_decide_eq_true_2 _ Hval).
  set (names := UsersService.expressionAttributeNames acc) in *.
  set (names' := if bool_decide (key = "isDisabled") then <[_:=_]> _ else _).
  set (attr := if bool_decide (key = "isDisabled") then "#disabled" else _).
  assert (Hnames' : names_ok names').
  { subst names'. repeat case_bool_decide;
      auto using names_ok_insert_rl, names_ok_insert_disabled. }
  assert (Hsub : ∀ n a, names !! n = Some a → names' !! n = Some a).
  { intros n a Hn. subst names'. repeat case_bool_decide;
      auto using names_ok_lookup_rl, names_ok_lookup_disabled, names_ok_insert_rl. }
  assert (Hattr : resolve_name names' attr = Some key).
  { subst names' attr.
    destruct (updatable_cases _ Hkey) as [-> | [-> | [-> | [-> | [-> | ->]]]]]; try done.
    - rewrite bool_decide_eq_false_2, bool_decide_eq_true_2 by done.
      apply lookup_insert_eq.
    - rewrite bool_decide_eq_true_2 by done. apply lookup_insert_eq. }
  split; [done|]. split; [done|]. simpl.
  intros asg Hres. unfold resolves in *. simpl. apply Forall2_app.
  - eapply Forall2_impl; [exact Hres|]. intros [n vk] [a v] Hc.
    unfold resolve_clause in *. simpl in *.
    destruct (resolve_name names n) as [a'|] eqn:Hn; simplify_option_eq.
    rewrite (resolve_name_mono _ _ _ _ Hsub Hn). simpl.
    rewrite lookup_insert_ne by (intros <-; congruence).
    by rewrite Heqo.
  - constructor; [|constructor]. unfold resolve_clause. simpl.
    by rewrite Hattr, lookup_insert_eq.
Qed.

(** The loop over the entries of a DTO. *)
Lemma loop_resolves l :
  NoDup l.*1 → Forall updatable l.*1 →
  ∀ acc asg,
    names_ok (UsersService.expressionAttributeNames acc) →
    (∀ key, key ∈ l.*1 → UsersService.expressionAttributeValues acc !! (":" +:+ key) = None) →
    resolves acc asg →
    let acc' := foldl UsersService.add_entry acc l in
    resolves acc' (asg ++ filter selected l) ∧
    (∀ vk, (∀ key, key ∈ l.*1 → vk ≠ ":" +:+ key) →
           UsersService.expressionAttributeValues acc' !! vk
           = UsersService.expressionAttributeValues acc !! vk) ∧
    size (UsersService.expressionAttributeValues acc')
      = size (UsersService.expressionAttributeValues acc) + List.length (filter selected l).
Proof.
  induction l as [|[key value] l IH]; intros Hnd Hup acc asg Hnames Hfresh Hres;
    cbv zeta in *.
  { simpl. rewrite app_nil_r. split; [done|]. split; [done|lia]. }
  apply NoDup_cons in Hnd as [Hkey Hnd]. apply Forall_cons in Hup as [Hupk Hup].
  cbn [foldl]. destruct (decide (selected (key, value))) as [Hsel|Hsel].
  - rewrite filter_cons_True by done.
    destruct (add_entry_selected acc key value Hsel Hupk Hnames) as (Hnames' & Hvalues & Hstep).
    { apply Hfresh. simpl. left. }
    destruct (IH Hnd Hup (UsersService.add_entry acc (key, value)) (asg ++ [(key, value)]))
      as (Hres' & Hdom & Hsize); [done| |by apply Hstep|].
    { intros key' Hkey'. rewrite Hvalues.
      rewrite lookup_insert_ne.
      - apply Hfresh. simpl. by right.
      - intros ->%colon_inj. done. }
    rewrite <-app_assoc in Hres'. split; [done|]. split.
    + intros vk Hvk. rewrite Hdom, Hvalues.
      * apply lookup_insert_ne. intros <-. eapply Hvk; [|done]. simpl. left.
      * intros key' Hkey'. apply Hvk. simpl. by right.
    + rewrite Hsize, Hvalues, map_size_insert_None; [simpl; lia|].
      apply Hfresh. simpl. left.
  - rewrite filter_cons_False by done. rewrite add_entry_skip by done.
    destruct (IH Hnd Hup acc asg) as (Hres' & Hdom & Hsize); [done| |done|].
    { intros key' Hkey'. apply Hfresh. simpl. by right. }
    split; [done|]. split; [|done].
    intros vk Hvk. apply Hdom. intros key' Hkey'. apply Hvk. simpl. by right.
Qed.

Lemma not_updatable_updatedAt : ¬ updatable "updatedAt".
Proof. solve_not_updatable. Qed.

Lemma not_updatable_passwordHash : ¬ updatable "passwordHash".
Proof. solve_not_updatable. Qed.

Lemma not_updatable_userId : ¬ updatable "userId".
Proof. solve_not_updatable. Qed.

Lemma not_updatable_ua : ¬ updatable "ua".
Proof. solve_not_updatable. Qed.

Lemma not_updatable_ph : ¬ updatable "ph".
Proof. solve_not_updatable. Qed.

Lemma not_updatable_email : ¬ updatable "email".
Proof. solve_not_updatable. Qed.

Lemma entries_elem dto key value :
  (key, value) ∈ entries dto ↔ dto !! key = Some value ∧ selected (key, value).
Proof.
  unfold entries. rewrite list_elem_of_filter, elem_of_map_to_list. tauto.
Qed.

Lemma entries_NoDup dto : NoDup (entries dto).*1.
Proof.
  eapply sublist_NoDup; [apply (NoDup_fst_map_to_list dto)|].
  apply fmap_sublist, sublist_filter.
Qed.

Lemma entries_updatable dto key :
  clean dto → key ∈ (entries dto).*1 → updatable key.
Proof.
  intros Hclean ([k v] & -> & [Hk _]%entries_elem)%list_elem_of_fmap.
  apply Hclean. by eexists.
Qed.

Lemma password_clause_keys dto extra key :
  password_clause dto = inr extra → key ∈ extra.*1 → key = "passwordHash".
Proof.
  unfold password_clause. repeat case_match; intros [= <-]; simpl.
  all: rewrite ?elem_of_cons, ?elem_of_nil; tauto.
Qed.

Lemma password_clause_NoDup dto extra :
  password_clause dto = inr extra → NoDup extra.*1.
Proof.
  unfold password_clause. repeat case_match; intros [= <-]; simpl.
  all: first [apply NoDup_nil_2 | apply NoDup_singleton].
Qed.

(** The assignments of an update name distinct attributes, none of them
    the key of the table. *)
Lemma assignments_distinct now dto extra :
  clean dto → password_clause dto = inr extra →
  let asg := ("updatedAt", VStr now) :: entries dto ++ extra in
  NoDup asg.*1 ∧ "userId" ∉ asg.*1.
Proof.
  intros Hclean Hextra. cbn. rewrite fmap_app. split.
  - apply NoDup_cons. split.
    + rewrite elem_of_app. intros [Hin|Hin].
      * exact (not_updatable_updatedAt (entries_updatable _ _ Hclean Hin)).
      * by apply (password_clause_keys _ _ _ Hextra) in Hin.
    + apply NoDup_app. split; [apply entries_NoDup|]. split.
      * intros key Hin Hin'. apply (password_clause_keys _ _ _ Hextra) in Hin' as ->.
        exact (not_updatable_passwordHash (entries_updatable _ _ Hclean Hin)).
      * by apply password_clause_NoDup with dto.
  - rewrite elem_of_cons, elem_of_app. intros [?|[Hin|Hin]]; [done| |].
    + exact (not_updatable_userId (entries_updatable _ _ Hclean Hin)).
    + by apply (password_clause_keys _ _ _ Hextra) in Hin.
Qed.

(** One more clause with a fresh value placeholder. *)
Lemma resolves_snoc built asg n vk a v :
  resolves built asg →
  UsersService.expressionAttributeValues built !! vk = None →
  resolve_name (UsersService.expressionAttributeNames built) n = Some a →
  resolves
    (UsersService.mkExpression
       (UsersService.updateExpression built ++ [(n, vk)])
       (<[vk := v]> (UsersService.expressionAttributeValues built))
       (UsersService.expressionAttributeNames built))
    (asg ++ [(a, v)]).
Proof.
  intros Hres Hfresh Hn. unfold resolves in *. simpl. apply Forall2_app.
  - eapply Forall2_impl; [exact Hres|]. intros [n' vk'] [a' v'].
    unfold resolve_clause. simpl.
    destruct (resolve_name _ n') as [a''|]; simpl; [|done].
    destruct (_ !! vk') as [v''|] eqn:Hvk'; simpl; [|done].
    intros [= -> ->]. rewrite lookup_insert_ne by (intros <-; congruence).
    by rewrite Hvk'.
  - constructor; [|constructor]. unfold resolve_clause. simpl.
    by rewrite Hn, lookup_insert_eq.
Qed.

Lemma send_update id built asg w :
  resolves built asg → NoDup asg.*1 → "userId" ∉ asg.*1 →
  try_catch
    (await result ←
       send (UpdateCommand id (UsersService.updateExpression built)
               (UsersService.expressionAttributeValues built)
               (UsersService.expressionAttributeNames built)
               (attribute_exists "userId"));
     match Attributes result with
     | Some attributes => ret (omit "passwordHash" attributes)
     | None => throw TypeError
     end)
    (λ error,
       match error with
       | ConditionalCheckFailedException =>
           throw (NotFoundException
                    ("User with ID " +:+ dquote +:+ id +:+ dquote +:+ " not found."))
       | _ => throw (InternalServerErrorException "Could not update user.")
       end) w
  = written id asg w.
Proof.
  intros Hres Hnd Hkey. unfold written. run. rewrite send_spec.
  destruct (hd false (outages w)); [done|].
  unfold execute. rewrite (mapM_Some_2 _ _ _ Hres).
  rewrite bool_decide_eq_true_2 by done.
  by destruct (holds _ _).
Qed.

Lemma update_spec now id dto w :
  clean dto →
  UsersService.update now id dto w =
    match password_clause dto with
    | inl e => (Throw e, w)
    | inr extra =>
        match entries dto ++ extra with
        | [] =>
            match UsersService.findOneByIdOrFail id w with
            | (Ok currentUser, w') => (Ok (omit "passwordHash" currentUser), w')
            | (Throw e, w') => (Throw e, w')
            end
        | _ => written id (("updatedAt", VStr now) :: entries dto ++ extra) w
        end
    end.
Proof.
  intros Hclean.
  pose (init := UsersService.mkExpression [("updatedAt", ":ua")] {[ ":ua" := VStr now ]} ∅).
  destruct (loop_resolves (map_to_list dto) (NoDup_fst_map_to_list dto)) with
    (acc := init) (asg := [("updatedAt", VStr now)]) as (Hres & Hlk & Hsize).
  { apply Forall_forall. intros key ([k v] & -> & Hkv%elem_of_map_to_list)%list_elem_of_fmap.
    apply Hclean. by eexists. }
  { by intros n a. }
  { intros key ([k v] & -> & Hkv%elem_of_map_to_list)%list_elem_of_fmap. simpl.
    apply lookup_singleton_ne. intros Heq. apply (colon_inj "ua") in Heq as <-.
    apply not_updatable_ua, Hclean. by eexists. }
  { repeat constructor. }
  change (UsersService.expressionAttributeValues init)
    with ({[ ":ua" := VStr now ]} : gmap string JsValue) in Hsize, Hlk.
  rewrite map_size_singleton in Hsize.
  pose proof (assignments_distinct now dto) as Hdistinct.
  unfold UsersService.update. fold init. fold (entries dto) in Hres, Hsize.
  set (built := foldl UsersService.add_entry init (map_to_list dto)) in *.
  unfold password_clause in *. cbv zeta in *.
  destruct (truthy (prop dto "password")) eqn:Htruthy.
  - destruct (prop dto "password") as [| |b|n|s] eqn:Hpw; simpl in Htruthy;
      try discriminate Htruthy; [reflexivity..|].
    destruct (String.length s <? 8)%nat; [reflexivity|].
    unfold bind at 1. run. rewrite andb_false_r.
    destruct (Hdistinct _ Hclean eq_refl) as [Hnd Hkey].
    set (built' := UsersService.mkExpression _ _ _).
    rewrite <-(send_update id built' _ w); [| |exact Hnd|exact Hkey].
    + by destruct (entries dto).
    + rewrite app_comm_cons. apply resolves_snoc; [exact Hres| |reflexivity].
      rewrite Hlk; [reflexivity|].
      intros key ([k v'] & -> & Hkv%elem_of_map_to_list)%list_elem_of_fmap Heq.
      simpl in Heq. apply (colon_inj "ph") in Heq as <-.
      apply not_updatable_ph, Hclean. by eexists.
  - unfold bind at 1. run. rewrite Hsize, app_nil_r.
    destruct (Hdistinct _ Hclean eq_refl) as [Hnd Hkey]. rewrite app_nil_r in Hnd, Hkey.
    destruct (entries dto) as [|entry rest] eqn:Hentries.
    + simpl. by destruct (UsersService.findOneByIdOrFail id w) as [[] ?].
    + rewrite <-(send_update id built _ w); [reflexivity|exact Hres|exact Hnd|exact Hkey].
Qed.

Lemma assign_frame item asg key :
  key ∉ asg.*1 → foldl assign item asg !! key = item !! key.
Proof.
  revert item. induction asg as [|[a v] asg IH]; intros item Hkey; [done|].
  cbn in *. apply not_elem_of_cons in Hkey as [Hne Hkey].
  rewrite IH by done. unfold assign. simpl. by rewrite lookup_insert_ne.
Qed.

Lemma assign_lookup item asg key value :
  NoDup asg.*1 → (key, value) ∈ asg → foldl assign item asg !! key = Some value.
Proof.
  revert item. induction asg as [|[a v] asg IH]; intros item Hnd Hin.
  { by apply elem_of_nil in Hin. }
  cbn in *. apply NoDup_cons in Hnd as [Ha Hnd].
  apply elem_of_cons in Hin as [[= <- <-]|Hin].
  - rewrite assign_frame by done. unfold assign. simpl. apply lookup_insert_eq.
  - by apply IH.
Qed.

Lemma whitelist_clean cls body :
  (∀ key, key ∈ name <$> cls → updatable key) → clean (whitelist cls body).
Proof.
  intros Hcls key [v Hkey]. rewrite whitelist_lookup in Hkey.
  case_bool_decide; [auto|done].
Qed.

Lemma whitelist_UpdateUserDto_clean body : clean (whitelist UpdateUserDto body).
Proof. by apply whitelist_clean. Qed.

Lemma whitelist_UpdateProfileDto_clean body : clean (whitelist UpdateProfileDto body).
Proof.
  apply whitelist_clean. intros key. unfold updatable. cbn.
  rewrite !elem_of_cons, !elem_of_nil. tauto.
Qed.

(** A password that has passed the validators of [UpdateUserDto]. *)
Lemma conforms_password dto :
  conforms UpdateUserDto dto = true →
  match prop dto "password" with
  | VUndefined | VNull => True
  | VStr s => (String.length s <? 8)%nat = false
  | _ => False
  end.
Proof.
  unfold conforms, UpdateUserDto. cbn [forallb]. rewrite !andb_true_iff.
  intros (_ & _ & _ & _ & Hpw & _). revert Hpw.
  unfold valid_property. cbn [name IsOptional validators].
  destruct (prop dto "password") as [| |b|n|s]; cbn -[Nat.leb]; try done.
  rewrite bool_decide_eq_false_2 by (intros [|]; discriminate).
  rewrite andb_true_r. intros Hlen%Nat.leb_le. apply Nat.ltb_ge. exact Hlen.
Qed.

Lemma conforms_password_clause dto :
  conforms UpdateUserDto dto = true →
  password_clause dto
  = inr (if truthy (prop dto "password")
         then [("passwordHash",
                VStr (bcrypt_hash (if prop dto "password" is VStr s then s else EmptyString)
                        UsersService.saltRounds))]
         else []).
Proof.
  intros Hpw%conforms_password. unfold password_clause. cbv zeta.
  destruct (prop dto "password") as [| |b|n|s]; try done.
  cbn [truthy]. destruct (negb _); [|done]. by rewrite Hpw.
Qed.

Lemma entries_prop dto key value :
  (key, value) ∈ entries dto →
  key ≠ "password" ∧ prop dto key = value ∧ value ≠ VUndefined.
Proof.
  intros [Hkey [Hpw Hval]]%entries_elem. simpl in *.
  split; [done|]. split; [by apply prop_lookup|done].
Qed.

Lemma entries_intro dto key :
  key ≠ "password" → prop dto key ≠ VUndefined → (key, prop dto key) ∈ entries dto.
Proof.
  intros Hpw Hval. apply entries_elem. unfold prop in *.
  destruct (dto !! key) as [v|]; [|done]. by split.
Qed.

Lemma entries_keys dto key :
  key ∈ (entries dto).*1 → key ≠ "password" ∧ prop dto key ≠ VUndefined.
Proof.
  intros ([k v] & -> & (? & <- & ?)%entries_prop)%list_elem_of_fmap. done.
Qed.


Lemma written_found id asg w item :
  answers w → keyed (table w) → table w !! id = Some item →
  written id asg w
  = (Ok (omit "passwordHash" (foldl assign item asg)),
     mkWorld (<[id := foldl assign item asg]> (table w)) (tail (outages w))).
Proof.
  intros Hans Hkeyed Hid. unfold written. rewrite Hans, Hid. cbn.
  by rewrite (Hkeyed _ _ Hid), bool_decide_eq_true_2.
Qed.

Lemma route_world code handler w : (route code handler w).2 = (handler w).2.
Proof. unfold route. by destruct (handler w) as [[] ?]. Qed.


Lemma findOneByIdOrFail_table id w :
  table (UsersService.findOneByIdOrFail id w).2 = table w.
Proof.
  unfold UsersService.findOneByIdOrFail. run. rewrite findOneById_spec.
  by destruct (if hd false (outages w) then _ else _).
Qed.

(** An update writes nothing, or it rewrites the one record it targets. *)
Lemma update_table now id dto w :
  clean dto →
  table (UsersService.update now id dto w).2 = table w ∨
  ∃ extra item,
    password_clause dto = inr extra ∧ table w !! id = Some item ∧
    table (UsersService.update now id dto w).2
    = <[id := foldl assign item (("updatedAt", VStr now) :: entries dto ++ extra)]> (table w).
Proof.
  intros Hclean. rewrite update_spec by done.
  destruct (password_clause dto) as [e|extra] eqn:Hextra; [by left|].
  destruct (entries dto ++ extra) as [|entry rest] eqn:Happ.
  - left. rewrite <-(findOneByIdOrFail_table id w).
    by destruct (UsersService.findOneByIdOrFail id w) as [[] ?].
  - rewrite <-Happ. unfold written.
    destruct (hd false (outages w)); [by left|].
    destruct (table w !! id) as [item|] eqn:Hid; [|by left].
    destruct (holds _ _); [|by left].
    right. by exists extra, item.
Qed.

Lemma PATCH_profile_table now req body w :
  table (UsersController.PATCH_profile now req body w).2
  = if conforms UpdateProfileDto (whitelist UpdateProfileDto body)
    then table (UsersService.update now (AuthenticatedUser.userId req)
                  (whitelist UpdateProfileDto body) w).2
    else table w.
Proof.
  unfold UsersController.PATCH_profile. rewrite route_world.
  unfold bind at 1. rewrite ValidationPipe_spec.
  destruct (conforms _ _); [|done].
  unfold UsersController.updateOwnProfile, bind.
  by destruct (UsersService.update _ _ _ _) as [[] ?].
Qed.

(** The attributes a profile update can assign. *)
Lemma profile_entries_keys body key :
  key ∈ (entries (whitelist UpdateProfileDto body)).*1 →
  key ∈ ["firstName"; "lastName"; "avatarUrl"].
Proof.
  intros ([k v] & -> & [Hk _]%entries_elem)%list_elem_of_fmap. simpl in *.
  rewrite whitelist_lookup in Hk. by case_bool_decide.
Qed.

Lemma profile_password_clause body :
  password_clause (whitelist UpdateProfileDto body) = inr [].
Proof.
  unfold password_clause. rewrite prop_whitelist_out; [done|].
  cbn. rewrite !not_elem_of_cons. repeat split; [discriminate..|apply not_elem_of_nil].
Qed.

Lemma validate_spec payload w :
  JwtStrategy.validate payload w =
    (match (if hd false (outages w) then None else table w !! JwtPayload.sub payload) with
     | Some user =>
         if truthy (prop user "isDisabled") then rejected
         else Ok (AuthenticatedUser.mk (JwtPayload.sub payload) (JwtPayload.email payload)
                    (JwtPayload.role payload) (JwtPayload.avatarUrl payload))
     | None => rejected
     end, mkWorld (table w) (tail (outages w))).
Proof.
  unfold JwtStrategy.validate. run. rewrite findOneById_spec.
  destruct (if hd false (outages w) then _ else _) as [user|]; [|done].
  by destruct (truthy _).
Qed.

(** A successful update that carries [isDisabled: true] leaves the target
    record disabled. *)
Lemma update_disables now id dto w r w' :
  clean dto → prop dto "isDisabled" = VBool true →
  UsersService.update now id dto w = (Ok r, w') →
  ∃ item', table w' !! id = Some item' ∧ prop item' "isDisabled" = VBool true.
Proof.
  intros Hclean Hdis. rewrite update_spec by done.
  destruct (password_clause dto) as [e|extra] eqn:Hextra; [done|].
  assert (Hin : ("isDisabled", VBool true) ∈ entries dto).
  { rewrite <-Hdis. apply entries_intro; [done|]. by rewrite Hdis. }
  destruct (assignments_distinct now dto extra Hclean Hextra) as [Hnd _].
  destruct (entries dto ++ extra) as [|entry rest] eqn:Happ.
  { apply app_eq_nil in Happ as [Hnil _]. rewrite Hnil in Hin.
    by apply elem_of_nil in Hin. }
  rewrite <-Happ in Hnd |- *. unfold written. cbv zeta.
  destruct (hd false (outages w)); [intros ?; discriminate|].
  destruct (holds _ _); [|intros ?; discriminate].
  intros [= <- <-]. cbn [table]. rewrite lookup_insert_eq. eexists. split; [reflexivity|].
  apply prop_lookup, (assign_lookup _ (("updatedAt", VStr now) :: entries dto ++ extra));
    [exact Hnd|]. right. apply elem_of_app. by left.
Qed.

Lemma exception_filter_hash_free e : hash_free (body (exception_filter e)).
Proof. destruct e; cbn [exception_filter body error_body hash_free]; by obj_lookup. Qed.

Lemma route_hash_free code handler w :
  (∀ r w', handler w = (Ok r, w') → hash_free r) →
  hash_free (body (route code handler w).1).
Proof.
  intros Hok. unfold route. destruct (handler w) as [[r|e] w'] eqn:Hh; cbn.
  - by apply (Hok r w').
  - apply exception_filter_hash_free.
Qed.

Lemma omit_hash_free (o : JsObject) : omit "passwordHash" o !! "passwordHash" = None.
Proof. apply lookup_delete_eq. Qed.

Lemma pipe_then_Ok {A} cls body (k : JsObject → M A) w r w' :
  (await dto ← ValidationPipe cls body; k dto) w = (Ok r, w') →
  k (whitelist cls body) w = (Ok r, w').
Proof.
  unfold bind. rewrite ValidationPipe_spec. by destruct (conforms _ _).
Qed.

Lemma uuid_then_Ok {A} id (k : string → M A) w r w' :
  (await id ← ParseUUIDPipe id; k id) w = (Ok r, w') → k id w = (Ok r, w').
Proof. unfold bind. rewrite ParseUUIDPipe_spec. by destruct (isUUID _). Qed.

Lemma findAll_hash_free w users w' :
  UsersService.findAll w = (Ok users, w') →
  Forall (λ o : JsObject, o !! "passwordHash" = None) users.
Proof.
  unfold UsersService.findAll. run. rewrite send_spec.
  destruct (hd false (outages w)); [done|].
  unfold execute.
  replace (mapM (resolve_name {[ "#rl" := "role" ]})
             ["userId"; "email"; "firstName"; "lastName"; "#rl"; "isDisabled";
              "createdAt"; "updatedAt"; "avatarUrl"])
    with (Some ["userId"; "email"; "firstName"; "lastName"; "role"; "isDisabled";
                "createdAt"; "updatedAt"; "avatarUrl"]) by by vm_compute.
  intros [= <- _]. cbn [Items default]. apply Forall_fmap, Forall_forall.
  intros item _. cbn. apply map_lookup_filter_None. right. intros v _.
  cbn. rewrite !not_elem_of_cons. repeat split; [discriminate..|apply not_elem_of_nil].
Qed.

Lemma findOneByIdOrFail_then_omit id w r w' :
  (await user ← UsersService.findOneByIdOrFail id;
   ret (RObject (omit "passwordHash" user))) w = (Ok r, w') →
  hash_free r.
Proof.
  unfold bind. destruct (UsersService.findOneByIdOrFail id w) as [[user|e] w1]; [|done].
  intros [= <- _]. apply omit_hash_free.
Qed.

Lemma update_hash_free now id dto w r w' :
  clean dto → UsersService.update now id dto w = (Ok r, w') →
  r !! "passwordHash" = None.
Proof.
  intros Hclean. rewrite update_spec by done.
  destruct (password_clause dto) as [e|extra]; [done|].
  destruct (entries dto ++ extra) as [|entry rest].
  - destruct (UsersService.findOneByIdOrFail id w) as [[user|e] w1]; [|done].
    intros [= <- _]. apply omit_hash_free.
  - unfold written. cbv zeta.
    destruct (hd false (outages w)); [intros ?; discriminate|].
    destruct (holds _ _); [|intros ?; discriminate].
    intros [= <- _]. apply omit_hash_free.
Qed.

Lemma create_hash_free uuid now dto w r w' :
  UsersService.create uuid now dto w = (Ok r, w') → r !! "passwordHash" = None.
Proof. intros (e & p & _ & _ & -> & _)%create_Ok. apply omit_hash_free. Qed.

Lemma login_payload user w token w' :
  AuthService.login user w = (Ok token, w') →
  ∃ payload, token !! "access_token" = Some (VStr (jwt_sign payload)) ∧
             payload !! "passwordHash" = None.
Proof.
  unfold AuthService.login. destruct (_ || _); [done|]. run.
  intros [= <- _]. eexists. split; [obj_lookup; reflexivity|by obj_lookup].
Qed.

Lemma login_hash_free loginDto w r w' :
  AuthController.login loginDto w = (Ok r, w') → hash_free r.
Proof.
  unfold AuthController.login. unfold bind at 1.
  destruct (AuthService.validateUser _ _ w) as [[[user|]|e] w1]; [|done..].
  unfold AuthService.login.
  destruct (_ || _); [done|]. run. intros [= <- _]. cbn. by obj_lookup.
Qed.

(** What the validators of [CreateUserDto] guarantee about the two
    required properties. *)
Lemma conforms_CreateUserDto dto :
  conforms CreateUserDto dto = true →
  ∃ e p, prop dto "email" = VStr e ∧ prop dto "password" = VStr p ∧
         truthy (VStr e) = true ∧ truthy (VStr p) = true.
Proof.
  unfold conforms, CreateUserDto. cbn [forallb]. rewrite !andb_true_iff.
  intros (Hemail & Hpw & _). revert Hemail Hpw.
  unfold valid_property. cbn [name IsOptional validators andb forallb].
  destruct (prop dto "email") as [| |b|n|e]; cbn -[Nat.leb]; try done.
  destruct (prop dto "password") as [| |b|n|p]; cbn -[Nat.leb];
    rewrite ?andb_false_r; try done.
  rewrite !andb_true_r, !andb_true_iff, !negb_true_iff.
  intros [_ He] [_ Hp]. exists e, p. repeat split.
  - destruct e; [|done]. by rewrite bool_decide_eq_true_2 in He by auto.
  - destruct p; [|done]. by rewrite bool_decide_eq_true_2 in Hp by auto.
Qed.

(** [create] leaves the table as it is, or it has looked the email up,
    found no record, and put the new item under [uuid]. *)
Lemma create_table uuid now dto w :
  table (UsersService.create uuid now dto w).2 = table w ∨
  ∃ e p,
    prop dto "email" = VStr e ∧ prop dto "password" = VStr p ∧
    (answers w →
     filter (λ it : JsObject, it !! "email" = Some (VStr (toLowerCase e)))
            (scan_items (table w)) = []) ∧
    table (UsersService.create uuid now dto w).2
    = <[uuid := marshall (userItem_of uuid now e p dto)]> (table w).
Proof.
  destruct (negb (truthy (prop dto "email")) || negb (truthy (prop dto "password")))
    eqn:Hguard.
  { left. unfold UsersService.create. by rewrite Hguard. }
  destruct (prop dto "email") as [| |b|n|e] eqn:He.
  1-4: left; unfold UsersService.create; rewrite He, Hguard; reflexivity.
  rewrite (create_steps _ _ _ e) by done. cbv zeta. unfold answers.
  destruct (hd false (outages w)) eqn:Hout.
  - destruct (prop dto "password") as [| |b|n|p] eqn:Hp; try (left; reflexivity).
    cbn [outages table].
    destruct (hd false (tail (outages w))); [left; reflexivity|].
    destruct (holds _ _); [|left; reflexivity].
    right. exists e, p. split; [reflexivity|]. split; [reflexivity|].
    split; [intros ?; discriminate|reflexivity].
  - destruct (head _) as [found|] eqn:Hhead; [left; reflexivity|].
    apply head_None in Hhead.
    destruct (prop dto "password") as [| |b|n|p] eqn:Hp; try (left; reflexivity).
    cbn [outages table].
    destruct (hd false (tail (outages w))); [left; reflexivity|].
    destruct (holds _ _); [|left; reflexivity].
    right. exists e, p. split; [reflexivity|]. split; [reflexivity|].
    split; [intros _; exact Hhead|reflexivity].
Qed.

Lemma not_found_no_record e (t : gmap string JsObject) id item :
  filter (λ it : JsObject, it !! "email" = Some (VStr (toLowerCase e))) (scan_items t) = [] →
  t !! id = Some item → item !! "email" ≠ Some (VStr (toLowerCase e)).
Proof.
  intros Hnil Hid Hemail.
  eapply filter_nil_not_elem_of; [exact Hnil|exact Hemail|].
  apply scan_items_elem. eauto.
Qed.

Lemma evolves_keyed fresh t t' : evolves fresh t t' → keyed t → keyed t'.
Proof.
  intros [->|uuid item e -> Hid _ _|id item item' -> Hold Hid _|id ->] Hkeyed; [done|..].
  - intros id it. destruct (decide (id = uuid)) as [->|Hne].
    + rewrite lookup_insert_eq. intros Heq. apply (inj Some) in Heq as <-. exact Hid.
    + rewrite lookup_insert_ne by done. apply Hkeyed.
  - intros id' it. destruct (decide (id' = id)) as [->|Hne].
    + rewrite lookup_insert_eq. intros Heq. apply (inj Some) in Heq as <-.
      rewrite Hid. by apply Hkeyed.
    + rewrite lookup_insert_ne by done. apply Hkeyed.
  - intros id' it. destruct (decide (id' = id)) as [->|Hne].
    + by rewrite lookup_delete_eq.
    + rewrite lookup_delete_ne by done. apply Hkeyed.
Qed.

Lemma evolves_normalized fresh t t' : evolves fresh t t' → normalized t → normalized t'.
Proof.
  intros [->|uuid item e -> _ Hemail _|id item item' -> Hold _ Hemail|id ->] Hnorm;
    [done|..].
  - intros id it e'. destruct (decide (id = uuid)) as [->|Hne].
    + rewrite lookup_insert_eq. intros Heq. apply (inj Some) in Heq as <-.
      rewrite Hemail. intros [= <-]. apply toLowerCase_idem.
    + rewrite lookup_insert_ne by done. apply Hnorm.
  - intros id' it e'. destruct (decide (id' = id)) as [->|Hne].
    + rewrite lookup_insert_eq. intros Heq. apply (inj Some) in Heq as <-.
      rewrite Hemail. by apply Hnorm with id.
    + rewrite lookup_insert_ne by done. apply Hnorm.
  - intros id' it e'. destruct (decide (id' = id)) as [->|Hne].
    + by rewrite lookup_delete_eq.
    + rewrite lookup_delete_ne by done. apply Hnorm.
Qed.

Lemma evolves_unique w t' :
  evolves (unused w) (table w) t' → answers w →
  normalized (table w) → unique_emails (table w) → unique_emails t'.
Proof.
  intros [->|uuid item e -> _ Hemail Hfresh|id item item' -> Hold _ Hemail|id ->]
    Hans Hnorm Huniq; [done|..].
  - specialize (Hfresh Hans).
    intros id1 id2 it1 it2 e1 e2 H1 H2 He1 He2 Heq.
    destruct (decide (id1 = uuid)) as [->|Hne1];
      destruct (decide (id2 = uuid)) as [->|Hne2]; [done| | |].
    + rewrite lookup_insert_eq in H1. apply (inj Some) in H1 as <-.
      rewrite lookup_insert_ne in H2 by done. exfalso.
      apply (Hfresh id2 it2 H2). rewrite He2. do 2 f_equal.
      rewrite <-(Hnorm _ _ _ H2 He2), <-Heq.
      rewrite Hemail in He1. injection He1 as <-. apply toLowerCase_idem.
    + rewrite lookup_insert_eq in H2. apply (inj Some) in H2 as <-.
      rewrite lookup_insert_ne in H1 by done. exfalso.
      apply (Hfresh id1 it1 H1). rewrite He1. do 2 f_equal.
      rewrite <-(Hnorm _ _ _ H1 He1), Heq.
      rewrite Hemail in He2. injection He2 as <-. apply toLowerCase_idem.
    + rewrite lookup_insert_ne in H1, H2 by done.
      by apply (Huniq id1 id2 it1 it2 e1 e2).
  - assert (Hback : ∀ id' it e', <[id := item']> (table w) !! id' = Some it →
              it !! "email" = Some (VStr e') →
              ∃ it0, table w !! id' = Some it0 ∧ it0 !! "email" = Some (VStr e')).
    { intros id' it e'. destruct (decide (id' = id)) as [->|Hne].
      - rewrite lookup_insert_eq. intros Heq. apply (inj Some) in Heq as <-.
        rewrite Hemail. eauto.
      - rewrite lookup_insert_ne by done. eauto. }
    intros id1 id2 it1 it2 e1 e2 H1 H2 He1 He2 Heq.
    destruct (Hback _ _ _ H1 He1) as (it1' & H1' & He1').
    destruct (Hback _ _ _ H2 He2) as (it2' & H2' & He2').
    by apply (Huniq id1 id2 it1' it2' e1 e2).
  - intros id1 id2 it1 it2 e1 e2 H1 H2.
    apply lookup_delete_Some in H1 as [_ H1]. apply lookup_delete_Some in H2 as [_ H2].
    by apply (Huniq id1 id2 it1 it2 e1 e2).
Qed.

Lemma create_evolves uuid now dto w :
  evolves (unused w) (table w) (table (UsersService.create uuid now dto w).2).
Proof.
  destruct (create_table uuid now dto w) as [Heq|(e & p & _ & _ & Hnone & Heq)].
  - by apply evolves_same.
  - apply (evolves_put _ _ _ uuid _ e Heq).
    + apply marshall_lookup_defined; [apply userItem_of_userId|done].
    + apply marshall_lookup_defined; [apply userItem_of_email|done].
    + intros Hans id item. apply not_found_no_record. by apply Hnone.
Qed.

Lemma update_evolves fresh now id dto w :
  clean dto → evolves fresh (table w) (table (UsersService.update now id dto w).2).
Proof.
  intros Hclean.
  destruct (update_table now id dto w Hclean) as [Heq|(extra & item & Hextra & Hid & Heq)].
  - by apply evolves_same.
  - destruct (assignments_distinct now dto extra Hclean Hextra) as [_ Huid].
    apply (evolves_update _ _ _ id item _ Heq Hid).
    + by apply assign_frame.
    + apply assign_frame. cbn. rewrite fmap_app, not_elem_of_cons, not_elem_of_app.
      split; [done|]. split.
      * intros Hin. exact (not_updatable_email (entries_updatable _ _ Hclean Hin)).
      * by intros ?%(password_clause_keys _ _ _ Hextra).
Qed.

Lemma remove_evolves fresh id w :
  evolves fresh (table w) (table (UsersService.remove id w).2).
Proof.
  rewrite remove_spec. cbv zeta.
  destruct (hd false (outages w)); [by apply evolves_same|].
  destruct (holds _ _); [by apply (evolves_delete _ _ _ id)|by apply evolves_same].
Qed.

Lemma login_table loginDto w : table (AuthController.login loginDto w).2 = table w.
Proof.
  unfold AuthController.login, AuthService.validateUser. unfold bind at 1 2.
  pose proof (findOneByEmail_table (prop loginDto "email") w) as Hlookup.
  destruct (UsersService.findOneByEmail _ w) as [[[user|]|e] w1]; cbn in *; try done.
  destruct (truthy (prop user "isDisabled")); [done|].
  destruct (prop loginDto "password"); try done.
  destruct (prop user "passwordHash"); try done. run.
  destruct (bcrypt_compare _ _); [|done].
  unfold AuthService.login. by destruct (_ || _).
Qed.

Lemma pipe_then_table {A} cls body (k : JsObject → M A) w :
  table ((await dto ← ValidationPipe cls body; k dto) w).2
  = if conforms cls (whitelist cls body) then table (k (whitelist cls body) w).2
    else table w.
Proof. unfold bind. rewrite ValidationPipe_spec. by destruct (conforms _ _). Qed.

Lemma uuid_then_table {A} id (k : string → M A) w :
  table ((await id ← ParseUUIDPipe id; k id) w).2
  = if isUUID id then table (k id w).2 else table w.
Proof. unfold bind. rewrite ParseUUIDPipe_spec. by destruct (isUUID _). Qed.

Lemma then_table {A B} (m : M A) (f : A → B) w :
  table ((await a ← m; ret (f a)) w).2 = table (m w).2.
Proof. unfold bind. by destruct (m w) as [[] ?]. Qed.

Lemma serve_evolves request w :
  evolves (unused w) (table w) (table (serve request w).2).
Proof.
  destruct request as [b|uuid now b|req|now req b|uuid now b| |id|now id req b|id req];
    cbn [serve].
  - unfold AuthController.POST_login. rewrite route_world, pipe_then_table.
    apply evolves_same. destruct (conforms _ _); [apply login_table|done].
  - unfold AuthController.POST_register. rewrite route_world, pipe_then_table.
    destruct (conforms _ _); [|by apply evolves_same].
    unfold AuthController.register, AuthService.register.
    set (dto := whitelist CreateUserDto b).
    pose proof (create_evolves uuid now dto w) as Hc. run.
    destruct (UsersService.create uuid now dto w) as [[user|e] w1]; [done|].
    by destruct e.
  - unfold UsersController.GET_profile, UsersController.getProfile.
    rewrite route_world, then_table. apply evolves_same, findOneByIdOrFail_table.
  - unfold UsersController.PATCH_profile. rewrite route_world, pipe_then_table.
    destruct (conforms _ _); [|by apply evolves_same].
    unfold UsersController.updateOwnProfile. rewrite then_table.
    apply update_evolves, whitelist_UpdateProfileDto_clean.
  - unfold UsersController.POST_users. rewrite route_world, pipe_then_table.
    destruct (conforms _ _); [|by apply evolves_same].
    unfold UsersController.create. rewrite then_table. apply create_evolves.
  - unfold UsersController.GET_users, UsersController.findAll.
    rewrite route_world, then_table. apply evolves_same.
    unfold UsersService.findAll. run. rewrite send_spec.
    destruct (hd false (outages w)); [done|]. unfold execute.
    by destruct (mapM _ _).
  - unfold UsersController.GET_user, UsersController.findOne.
    rewrite route_world, uuid_then_table.
    destruct (isUUID _); [|by apply evolves_same].
    rewrite then_table. apply evolves_same, findOneByIdOrFail_table.
  - unfold UsersController.PATCH_user. rewrite route_world, uuid_then_table.
    destruct (isUUID _); [|by apply evolves_same].
    rewrite pipe_then_table.
    destruct (conforms _ _); [|by apply evolves_same].
    unfold UsersController.update. destruct (_ && _); [by apply evolves_same|].
    rewrite then_table. apply update_evolves, whitelist_UpdateUserDto_clean.
  - unfold UsersController.DELETE_user. rewrite route_world, uuid_then_table.
    destruct (isUUID _); [|by apply evolves_same].
    unfold UsersController.remove.
    destruct (bool_decide _); [by apply evolves_same|].
    pose proof (remove_evolves (unused w) id w) as Hr. unfold bind.
    by destruct (UsersService.remove id w) as [[] ?].
Qed.

(** Whatever is served and whenever the store fails, every record stays
    under its own [userId] and every stored email stays in lower case. *)
Lemma reachable_keyed_normalized w :
  reachable w → keyed (table w) ∧ normalized (table w).
Proof.
  induction 1 as [down|request w _ [IHk IHn]].
  - split; intros id item; cbn; by rewrite lookup_empty.
  - split; [eapply evolves_keyed|eapply evolves_normalized]; eauto using serve_evolves.
Qed.

(** A request served by a store that answers its first command keeps the
    emails pairwise different. *)
Lemma serve_unique request w :
  answers w → normalized (table w) → unique_emails (table w) →
  unique_emails (table (serve request w).2).
Proof. intros. eapply evolves_unique; eauto using serve_evolves. Qed.
End Facts.

(** ** The example world *)

Lemma Demo_world_lookup id item :
  table Demo.world !! id = Some item →
  (id = Demo.ann_id ∧ item = Demo.ann) ∨ (id = Demo.bob_id ∧ item = Demo.bob).
Proof.
  unfold Demo.world. cbn [table list_to_map foldr fst snd]. intros Hid.
  destruct (decide (id = Demo.ann_id)) as [->|H1].
  { rewrite lookup_insert_eq in Hid. left. by injection Hid as <-. }
  rewrite lookup_insert_ne in Hid by done.
  destruct (decide (id = Demo.bob_id)) as [->|H2].
  { rewrite lookup_insert_eq in Hid. right. by injection Hid as <-. }
  by rewrite lookup_insert_ne in Hid.
Qed.

Lemma Demo_world_keyed : keyed (table Demo.world).
Proof.
  intros id item Hid. unfold Demo.world in Hid. cbn in Hid.
  destruct (decide (id = Demo.ann_id)) as [->|H1].
  { rewrite lookup_insert_eq in Hid. injection Hid as <-. by vm_compute. }
  rewrite lookup_insert_ne in Hid by done.
  destruct (decide (id = Demo.bob_id)) as [->|H2].
  { rewrite lookup_insert_eq in Hid. injection Hid as <-. by vm_compute. }
  by rewrite lookup_insert_ne in Hid.
Qed.

Lemma Demo_ann_email : Demo.ann !! "email" = Some (VStr "ann@example.com").
Proof. by vm_compute. Qed.

Lemma Demo_bob_email : Demo.bob !! "email" = Some (VStr "bob@example.com").
Proof. by vm_compute. Qed.

Lemma Demo_world_unique : @unique_emails Demo.platform (table Demo.world).
Proof.
  intros id1 id2 item1 item2 e1 e2 H1 H2 He1 He2 Heq.
  apply Demo_world_lookup in H1 as [[-> ->]|[-> ->]];
    apply Demo_world_lookup in H2 as [[-> ->]|[-> ->]]; try done.
  all: rewrite ?Demo_ann_email, ?Demo_bob_email in He1, He2.
  all: injection He1 as <-; injection He2 as <-; vm_compute in Heq; discriminate.
Qed.


(** * The claims *)

(** ** C1: the role of a user created without one *)

Section Claim_C1.
Context `{Platform}.

(** C1, as the code has it: a DTO that supplies no role (or a falsy one)
    is stored with the role ADMIN, not USER; the created user that is
    returned says ADMIN as well.  The DTO class documents USER as the
    default of the service. *)
Theorem create_without_role_stores_ADMIN uuid now dto w user w' :
  truthy (prop dto "role") = false →
  UsersService.create uuid now dto w = (Ok user, w') →
  prop user "role" = UserRole.ADMIN ∧
  ∃ item, table w' !! uuid = Some item ∧ prop item "role" = UserRole.ADMIN.
Proof.
  intros Hrole (e & p & _ & _ & -> & Ht)%create_Ok. split.
  - apply prop_lookup. unfold omit. rewrite lookup_delete_ne by done.
    rewrite userItem_of_role. unfold js_or. by rewrite Hrole.
  - exists (marshall (userItem_of uuid now e p dto)). split.
    + rewrite Ht. apply lookup_insert_eq.
    + rewrite prop_marshall. apply prop_lookup.
      rewrite userItem_of_role. unfold js_or. by rewrite Hrole.
Qed.
End Claim_C1.

Lemma create_without_role_stores_ADMIN_witness :
  truthy (prop carol_dto "role") = false ∧
  @UsersService.create Demo.platform Demo.carol_id "2024-03-01T00:00:00.000Z"
    carol_dto Demo.world = (Ok (omit "passwordHash" carol), world_with_carol) ∧
  prop (omit "passwordHash" carol) "role" = UserRole.ADMIN ∧
  ∃ item, table world_with_carol !! Demo.carol_id = Some item ∧
          prop item "role" = UserRole.ADMIN.
Proof.
  assert (Hrole : truthy (prop carol_dto "role") = false) by (vm_compute; reflexivity).
  assert (Hc : @UsersService.create Demo.platform Demo.carol_id "2024-03-01T00:00:00.000Z"
                 carol_dto Demo.world
               = (Ok (omit "passwordHash" carol), world_with_carol)) by by_vm.
  split; [exact Hrole|]. split; [exact Hc|].
  exact (@create_without_role_stores_ADMIN Demo.platform
           Demo.carol_id _ carol_dto Demo.world _ _ Hrole Hc).
Defined.

(** ** C2: PATCH /users/:id on the caller's own id *)

Section Claim_C2.
Context `{Platform}.

(** C2, as the code has it: when the admin targets their own id (a
    well-formed one), a body that passes validation and carries no [role]
    is answered with 403 and nothing is written, whatever else it carries;
    a body with only a first name is such a body.  The guard compares
    [role] with ADMIN and an absent role is not ADMIN. *)
Theorem PATCH_user_self_without_role_is_403 now id req body w :
  isUUID id = true →
  id = AuthenticatedUser.userId req →
  prop body "role" = VUndefined →
  conforms UpdateUserDto (whitelist UpdateUserDto body) = true →
  UsersController.PATCH_user now id req body w
  = (mkResponse 403
       (error_body 403 "Admins cannot change their own role or disable themselves."
          "Forbidden"), w).
Proof.
  intros Huuid Hid Hrole Hvalid.
  unfold UsersController.PATCH_user, route. unfold bind at 1.
  rewrite ParseUUIDPipe_spec, Huuid. unfold bind at 1.
  rewrite ValidationPipe_spec, Hvalid.
  unfold UsersController.update.
  rewrite bool_decide_eq_true_2 by done.
  rewrite prop_whitelist_in, Hrole by compute_done.
  by rewrite bool_decide_eq_true_2.
Qed.
End Claim_C2.

Lemma PATCH_user_self_without_role_is_403_witness :
  @isUUID Demo.platform Demo.ann_id = true ∧
  Demo.ann_id = AuthenticatedUser.userId Demo.admin_ann ∧
  prop first_name_only "role" = VUndefined ∧
  @conforms Demo.platform UpdateUserDto (whitelist UpdateUserDto first_name_only) = true ∧
  @UsersController.PATCH_user Demo.platform "2024-03-01T00:00:00.000Z" Demo.ann_id
     Demo.admin_ann first_name_only Demo.world
  = (mkResponse 403
       (error_body 403 "Admins cannot change their own role or disable themselves."
          "Forbidden"), Demo.world).
Proof.
  assert (H1 : prop first_name_only "role" = VUndefined) by (vm_compute; reflexivity).
  assert (H2 : @conforms Demo.platform UpdateUserDto
                 (whitelist UpdateUserDto first_name_only) = true)
    by (vm_compute; reflexivity).
  split; [reflexivity|]. split; [reflexivity|]. split; [exact H1|].
  split; [exact H2|].
  exact (@PATCH_user_self_without_role_is_403 Demo.platform _ Demo.ann_id Demo.admin_ann
           first_name_only Demo.world eq_refl eq_refl H1 H2).
Defined.

(** ** C3: what a partial update keeps and what it touches *)

Section Claim_C3.
Context `{Platform}.

End Claim_C3.



(** ** C4: no response carries a password hash *)

Section Claim_C4.
Context `{Platform}.

(** C4: whatever the table holds and whatever is sent, the bodies answered
    by GET /users, GET /users/:id, GET /users/profile, by the two creating
    routes, by the two updating routes and by POST /auth/login have no
    [passwordHash] property, in the object or in any object of the list;
    and the claims signed into a token have none either. *)
Theorem responses_carry_no_password_hash w :
  hash_free (body (UsersController.GET_users w).1) ∧
  (∀ id, hash_free (body (UsersController.GET_user id w).1)) ∧
  (∀ req, hash_free (body (UsersController.GET_profile req w).1)) ∧
  (∀ uuid now b, hash_free (body (UsersController.POST_users uuid now b w).1)) ∧
  (∀ uuid now b, hash_free (body (AuthController.POST_register uuid now b w).1)) ∧
  (∀ now id req b, hash_free (body (UsersController.PATCH_user now id req b w).1)) ∧
  (∀ now req b, hash_free (body (UsersController.PATCH_profile now req b w).1)) ∧
  (∀ b, hash_free (body (AuthController.POST_login b w).1)) ∧
  (∀ user token w',
     AuthService.login user w = (Ok token, w') →
     ∃ payload, token !! "access_token" = Some (VStr (jwt_sign payload)) ∧
                payload !! "passwordHash" = None).
Proof.
  repeat split; intros; try (apply route_hash_free; intros r w');
    [| | | | | | | | by eapply login_payload].
  - unfold UsersController.findAll, bind.
    destruct (UsersService.findAll w) as [[users|e] w1] eqn:Hall; [|done].
    intros [= <- _]. by apply (findAll_hash_free w users w1).
  - intros Hh%uuid_then_Ok. revert Hh. apply findOneByIdOrFail_then_omit.
  - apply findOneByIdOrFail_then_omit.
  - intros Hh%pipe_then_Ok. revert Hh. unfold UsersController.create, bind.
    destruct (UsersService.create _ _ _ w) as [[user|e] w1] eqn:Hc; [|done].
    intros [= <- _]. by apply (create_hash_free _ _ _ _ _ _ Hc).
  - intros Hh%pipe_then_Ok. revert Hh.
    unfold AuthController.register, AuthService.register. run.
    destruct (UsersService.create _ _ _ w) as [[user|e] w1] eqn:Hc.
    + intros [= <- _]. by apply (create_hash_free _ _ _ _ _ _ Hc).
    + destruct e; intros [= <- _]; done.
  - intros Hh%uuid_then_Ok%pipe_then_Ok. revert Hh. unfold UsersController.update.
    destruct (_ && _); [done|]. unfold bind.
    destruct (UsersService.update _ _ _ w) as [[user|e] w1] eqn:Hu; [|done].
    intros [= <- _].
    by apply (update_hash_free _ _ _ _ _ _ (whitelist_UpdateUserDto_clean _) Hu).
  - intros Hh%pipe_then_Ok. revert Hh. unfold UsersController.updateOwnProfile, bind.
    destruct (UsersService.update _ _ _ w) as [[user|e] w1] eqn:Hu; [|done].
    intros [= <- _].
    by apply (update_hash_free _ _ _ _ _ _ (whitelist_UpdateProfileDto_clean _) Hu).
  - intros Hh%pipe_then_Ok. by apply login_hash_free in Hh.
Qed.
End Claim_C4.

(** ** C5: JwtStrategy.validate checks the live record *)

Section Claim_C5.
Context `{Platform}.

(** C5: [validate] fetches the record of the token's [sub] from the table
    as it is now and rejects with an authentication error when there is no
    such record or the record is disabled; so a token presented again after
    its account has been disabled is rejected.  An enabled account whose
    record the store returns is admitted with the identity of the token. *)
Theorem validate_rechecks_live_record payload w :
  ((table w !! JwtPayload.sub payload = None ∨
    ∃ user, table w !! JwtPayload.sub payload = Some user ∧
            truthy (prop user "isDisabled") = true) →
   (JwtStrategy.validate payload w).1 = rejected) ∧
  (∀ now dto r w',
     clean dto → prop dto "isDisabled" = VBool true →
     UsersService.update now (JwtPayload.sub payload) dto w = (Ok r, w') →
     (JwtStrategy.validate payload w').1 = rejected) ∧
  (∀ user,
     answers w → table w !! JwtPayload.sub payload = Some user →
     truthy (prop user "isDisabled") = false →
     (JwtStrategy.validate payload w).1
     = Ok (AuthenticatedUser.mk (JwtPayload.sub payload) (JwtPayload.email payload)
             (JwtPayload.role payload) (JwtPayload.avatarUrl payload))).
Proof.
  assert (Hrej : ∀ w0,
            (table w0 !! JwtPayload.sub payload = None ∨
             ∃ user, table w0 !! JwtPayload.sub payload = Some user ∧
                     truthy (prop user "isDisabled") = true) →
            (JwtStrategy.validate payload w0).1 = rejected).
  { intros w0 Hcase. rewrite validate_spec. cbn [fst].
    destruct (hd false (outages w0)); [done|].
    destruct Hcase as [->|(user & -> & ->)]; done. }
  split; [apply Hrej|]. split.
  - intros now dto r w' Hclean Hdis Hup. apply Hrej. right.
    destruct (update_disables _ _ _ _ _ _ Hclean Hdis Hup) as (item' & Hid & Hprop).
    exists item'. split; [done|]. by rewrite Hprop.
  - intros user Hans Hid Hen. rewrite validate_spec. cbn [fst].
    by rewrite Hans, Hid, Hen.
Qed.
End Claim_C5.

Lemma validate_rechecks_live_record_witness :
  let w' := mkWorld (<[Demo.ann_id := disabled_ann]> (table Demo.world)) [] in
  (JwtStrategy.validate Demo.ann_token Demo.world).1
    = Ok (AuthenticatedUser.mk Demo.ann_id (VStr "ann@example.com") UserRole.ADMIN VNull) ∧
  @UsersService.update Demo.platform later Demo.ann_id disable_ann Demo.world
    = (Ok (omit "passwordHash" disabled_ann), w') ∧
  (JwtStrategy.validate Demo.ann_token w').1 = rejected ∧
  (JwtStrategy.validate (JwtPayload.mk VNull Demo.nobody_id UserRole.USER VNull) Demo.world).1
    = rejected.
Proof.
  intros w'.
  assert (Hann : table Demo.world !! Demo.ann_id = Some Demo.ann) by by_vm.
  assert (Hup : @UsersService.update Demo.platform later Demo.ann_id disable_ann Demo.world
                = (Ok (omit "passwordHash" disabled_ann), w')) by by_vm.
  destruct (@validate_rechecks_live_record Demo.platform Demo.ann_token Demo.world)
    as (_ & Hreplay & Henabled).
  destruct (@validate_rechecks_live_record Demo.platform
              (JwtPayload.mk VNull Demo.nobody_id UserRole.USER VNull) Demo.world)
    as (Habsent & _ & _).
  split; [|split; [|split]].
  - apply (Henabled Demo.ann); [reflexivity | exact Hann | by vm_compute].
  - exact Hup.
  - apply (Hreplay later disable_ann (omit "passwordHash" disabled_ann) w');
      [| by vm_compute | exact Hup].
    apply whitelist_UpdateUserDto_clean.
  - apply Habsent. left. by vm_compute.
Defined.

(** ** C6: the failures of POST /auth/login *)

Section Claim_C6.
Context `{Platform}.

End Claim_C6.



(** ** C7: registration and the uniqueness of emails *)

Section Claim_C7.
Context `{Platform}.

(** C7, as the code has it: [findOneByEmail] answers a failed query like
    an email that nobody has.  So when the lookup of a registration fails
    and the put that follows it succeeds, an email that is stored already
    is stored a second time: the answer is 201, the record that had the
    email is still there, and the new record has it too. *)
Theorem POST_register_duplicates_after_failed_lookup uuid now body e p w id item rest :
  conforms CreateUserDto (whitelist CreateUserDto body) = true →
  prop body "email" = VStr e → prop body "password" = VStr p →
  outages w = true :: false :: rest →
  table w !! id = Some item → item !! "email" = Some (VStr (toLowerCase e)) →
  table w !! uuid = None →
  let created := userItem_of uuid now e p (whitelist CreateUserDto body) in
  let w' := mkWorld (<[uuid := marshall created]> (table w)) rest in
  AuthController.POST_register uuid now body w
  = (mkResponse 201 (RObject (omit "passwordHash" created)), w') ∧
  table w' !! id = Some item ∧
  table w' !! uuid = Some (marshall created) ∧
  marshall created !! "email" = Some (VStr (toLowerCase e)) ∧
  uuid ≠ id ∧
  ¬ unique_emails (table w').
Proof.
  intros Hvalid He Hp Hout Hid Hemail Hfresh created w'.
  assert (Hne : uuid ≠ id) by (intros ->; congruence).
  assert (Hcreated : marshall created !! "email" = Some (VStr (toLowerCase e))).
  { apply marshall_lookup_defined; [apply userItem_of_email|discriminate]. }
  assert (Hold : table w' !! id = Some item).
  { subst w'. cbn [table]. by rewrite lookup_insert_ne. }
  assert (Hnew : table w' !! uuid = Some (marshall created)).
  { subst w'. cbn [table]. by rewrite lookup_insert_eq. }
  split; [|split; [exact Hold|split; [exact Hnew|split; [exact Hcreated|split; [exact Hne|]]]]].
  - unfold AuthController.POST_register, route. unfold bind at 1.
    rewrite ValidationPipe_spec, Hvalid.
    destruct (conforms_CreateUserDto _ Hvalid) as (e0 & p0 & He0 & Hp0 & Hte & Htp).
    assert (Hed : prop (whitelist CreateUserDto body) "email" = VStr e)
      by (by rewrite prop_whitelist_in by compute_done).
    assert (Hpd : prop (whitelist CreateUserDto body) "password" = VStr p)
      by (by rewrite prop_whitelist_in by compute_done).
    assert (e0 = e) as -> by congruence.
    unfold AuthController.register, AuthService.register. run.
    rewrite (create_steps _ _ _ e) by (by rewrite ?Hp0, ?Hte, ?Htp).
    cbv zeta. rewrite Hout, Hpd, Hfresh. reflexivity.
  - intros Huniq.
    apply Hne. symmetry.
    exact (Huniq id uuid item (marshall created) _ _ Hold Hnew Hemail Hcreated eq_refl).
Qed.
End Claim_C7.

Lemma POST_register_duplicates_after_failed_lookup_witness :
  let w := mkWorld (table Demo.world) [true; false] in
  let w' := (@AuthController.POST_register Demo.platform Demo.carol_id later
               register_ann_again w).2 in
  status (@AuthController.POST_register Demo.platform Demo.carol_id later
            register_ann_again w).1 = 201 ∧
  table w' !! Demo.ann_id = Some Demo.ann ∧
  table w' !! Demo.ann_id ≫= (.!! "email") = Some (VStr "ann@example.com") ∧
  table w' !! Demo.carol_id ≫= (.!! "email") = Some (VStr "ann@example.com") ∧
  ¬ @unique_emails Demo.platform (table w').
Proof.
  intros w w'.
  assert (Hvalid : @conforms Demo.platform CreateUserDto
                     (whitelist CreateUserDto register_ann_again) = true)
    by by vm_compute.
  assert (He : prop register_ann_again "email" = VStr "ANN@Example.com") by by vm_compute.
  assert (Hp : prop register_ann_again "password" = VStr "another secret")
    by by vm_compute.
  assert (Hann : table w !! Demo.ann_id = Some Demo.ann) by by_vm.
  assert (Hnone : table w !! Demo.carol_id = None) by by_vm.
  destruct (@POST_register_duplicates_after_failed_lookup Demo.platform
              Demo.carol_id later register_ann_again "ANN@Example.com" "another secret"
              w Demo.ann_id Demo.ann [] Hvalid He Hp eq_refl Hann Demo_ann_email Hnone)
    as (Hreg & Hold & Hnew & Hemail & _ & Hdup).
  subst w'. rewrite Hreg. cbn [fst snd status].
  split; [reflexivity|]. split; [exact Hold|]. split; [by rewrite Hold|].
  split; [by rewrite Hnew|]. exact Hdup.
Defined.

(** ** C8: POST /auth/register when the service fails *)

Section Claim_C8.
Context `{Platform}.

(** C8, as the code has it: when [UsersService.create] fails with an
    internal server error (the store cannot be written, or the generated id
    is taken), the handler of POST /auth/register catches it, rethrows
    nothing, and the client receives 201 with an empty body. *)
Theorem POST_register_swallows_internal_error uuid now body w message w' :
  conforms CreateUserDto (whitelist CreateUserDto body) = true →
  UsersService.create uuid now (whitelist CreateUserDto body) w
  = (Throw (InternalServerErrorException message), w') →
  AuthController.POST_register uuid now body w = (mkResponse 201 RUndefined, w').
Proof.
  intros Hvalid Hc.
  unfold AuthController.POST_register, route. unfold bind at 1.
  rewrite ValidationPipe_spec, Hvalid.
  unfold AuthController.register, AuthService.register. run.
  by rewrite Hc.
Qed.
End Claim_C8.

Lemma POST_register_swallows_internal_error_witness :
  @conforms Demo.platform CreateUserDto (whitelist CreateUserDto carol_dto) = true ∧
  @UsersService.create Demo.platform Demo.carol_id "2024-03-01T00:00:00.000Z"
     (whitelist CreateUserDto carol_dto) Demo.flaky
  = (Throw (InternalServerErrorException "Could not create user."),
     mkWorld (table Demo.world) []) ∧
  @AuthController.POST_register Demo.platform Demo.carol_id "2024-03-01T00:00:00.000Z"
     carol_dto Demo.flaky
  = (mkResponse 201 RUndefined, mkWorld (table Demo.world) []).
Proof.
  assert (H1 : @conforms Demo.platform CreateUserDto
                 (whitelist CreateUserDto carol_dto) = true)
    by (vm_compute; reflexivity).
  assert (H2 : @UsersService.create Demo.platform Demo.carol_id "2024-03-01T00:00:00.000Z"
                 (whitelist CreateUserDto carol_dto) Demo.flaky
               = (Throw (InternalServerErrorException "Could not create user."),
                  mkWorld (table Demo.world) [])) by by_vm.
  split; [exact H1|]. split; [exact H2|].
  exact (@POST_register_swallows_internal_error Demo.platform _ _ carol_dto
           Demo.flaky _ _ H1 H2).
Defined.

(** The same happens when the generated id is already in the table. *)
Example POST_register_id_conflict :
  @AuthController.POST_register Demo.platform Demo.ann_id "2024-03-01T00:00:00.000Z"
     carol_dto Demo.world
  = (mkResponse 201 RUndefined, Demo.world).
Proof. by_vm. Qed.

(** ** C9: DELETE /users/:id *)

Section Claim_C9.
Context `{Platform}.

End Claim_C9.



(** ** C10: PATCH /users/profile changes the profile fields only *)

Section Claim_C10.
Context `{Platform}.

(** C10: whatever the body of PATCH /users/profile carries, no record
    appears or disappears, the records of other users are untouched, and in
    the caller's record only [firstName], [lastName], [avatarUrl] and
    [updatedAt] can differ afterwards; [role], [email], [isDisabled],
    [userId], [createdAt] and [passwordHash] in particular are as before. *)
Theorem PATCH_profile_frame now req body w :
  let w' := (UsersController.PATCH_profile now req body w).2 in
  (∀ id, table w !! id = None → table w' !! id = None) ∧
  ∀ id item, table w !! id = Some item →
    ∃ item',
      table w' !! id = Some item' ∧
      (id ≠ AuthenticatedUser.userId req → item' = item) ∧
      (∀ key, key ∉ ["firstName"; "lastName"; "avatarUrl"; "updatedAt"] →
              item' !! key = item !! key) ∧
      Forall (λ key, item' !! key = item !! key)
        ["role"; "email"; "isDisabled"; "userId"; "createdAt"; "passwordHash"].
Proof.
  intros w'.
  assert (Hlist : ∀ item item' : JsObject,
            (∀ key, key ∉ ["firstName"; "lastName"; "avatarUrl"; "updatedAt"] →
                    item' !! key = item !! key) →
            Forall (λ key, item' !! key = item !! key)
              ["role"; "email"; "isDisabled"; "userId"; "createdAt"; "passwordHash"]).
  { intros item item' Hkeys.
    repeat (constructor; [apply Hkeys; rewrite !not_elem_of_cons;
                          repeat split; [discriminate..|apply not_elem_of_nil]|]).
    constructor. }
  assert (Hsame : table w' = table w →
            (∀ id, table w !! id = None → table w' !! id = None) ∧
            ∀ id item, table w !! id = Some item →
              ∃ item', table w' !! id = Some item' ∧
                (id ≠ AuthenticatedUser.userId req → item' = item) ∧
                (∀ key, key ∉ ["firstName"; "lastName"; "avatarUrl"; "updatedAt"] →
                        item' !! key = item !! key) ∧
                Forall (λ key, item' !! key = item !! key)
                  ["role"; "email"; "isDisabled"; "userId"; "createdAt"; "passwordHash"]).
  { intros ->. split; [done|]. intros id item Hid. exists item.
    repeat split; try done. by apply Hlist. }
  pose proof (PATCH_profile_table now req body w) as Hw'. fold w' in Hw'.
  destruct (conforms _ _); [|by apply Hsame].
  set (dto := whitelist UpdateProfileDto body) in *.
  set (uid := AuthenticatedUser.userId req) in *.
  destruct (update_table now uid dto w (whitelist_UpdateProfileDto_clean body))
    as [Heq|(extra & item0 & Hextra & Huid & Heq)].
  { apply Hsame. by rewrite Hw'. }
  clear Hsame. rewrite Heq in Hw'. clear Heq. rewrite Hw'.
  subst dto. rewrite profile_password_clause in Hextra. injection Hextra as <-.
  rewrite app_nil_r. split.
  - intros id Hid. rewrite lookup_insert_ne; [done|]. intros <-. congruence.
  - intros id item Hid. destruct (decide (id = uid)) as [->|Hne].
    + rewrite lookup_insert_eq. eexists. split; [done|]. split; [done|].
      assert (item0 = item) as -> by congruence.
      assert (Hkeys : ∀ key, key ∉ ["firstName"; "lastName"; "avatarUrl"; "updatedAt"] →
                foldl assign item
                  (("updatedAt", VStr now) :: entries (whitelist UpdateProfileDto body))
                !! key = item !! key).
      { intros key Hkey. apply assign_frame. cbn.
        rewrite !not_elem_of_cons in Hkey. destruct Hkey as (Hf & Hl & Ha & Hu & _).
        rewrite not_elem_of_cons. split; [done|].
        intros Hin%profile_entries_keys.
        rewrite !elem_of_cons, elem_of_nil in Hin. tauto. }
      split; [done|]. by apply Hlist.
    + rewrite lookup_insert_ne by done. exists item.
      repeat split; try done. by apply Hlist.
Qed.
End Claim_C10.

Lemma PATCH_profile_frame_witness :
  let w' := (@UsersController.PATCH_profile Demo.platform later Demo.admin_ann
               nosy_profile_body Demo.world).2 in
  table Demo.world !! Demo.ann_id = Some Demo.ann ∧
  ∃ item',
    table w' !! Demo.ann_id = Some item' ∧
    (Demo.ann_id ≠ AuthenticatedUser.userId Demo.admin_ann → item' = Demo.ann) ∧
    (∀ key, key ∉ ["firstName"; "lastName"; "avatarUrl"; "updatedAt"] →
            item' !! key = Demo.ann !! key) ∧
    Forall (λ key, item' !! key = Demo.ann !! key)
      ["role"; "email"; "isDisabled"; "userId"; "createdAt"; "passwordHash"].
Proof.
  assert (Hann : table Demo.world !! Demo.ann_id = Some Demo.ann) by by_vm.
  exact (conj Hann
           (proj2 (@PATCH_profile_frame Demo.platform later Demo.admin_ann
                     nosy_profile_body Demo.world) Demo.ann_id Demo.ann Hann)).
Defined.

(** The first name of that body does arrive in Ann's record. *)
Example PATCH_profile_applies_first_name :
  let w' := (@UsersController.PATCH_profile Demo.platform later Demo.admin_ann
               nosy_profile_body Demo.world).2 in
  table w' !! Demo.ann_id ≫= (.!! "firstName") = Some (VStr "Annie") ∧
  table w' !! Demo.ann_id ≫= (.!! "updatedAt") = Some (VStr later) ∧
  table w' !! Demo.ann_id ≫= (.!! "role") = Some (VStr "ADMIN").
Proof. by vm_compute. Qed.

(** * Further properties of the service *)

(** ** Registration while the store answers *)

Section Unique_emails.
Context `{Platform}.

End Unique_emails.


(** ** Facts for the properties below *)

Section Service_facts.
Context `{Platform}.

Lemma findOneByIdOrFail_spec id w :
  UsersService.findOneByIdOrFail id w =
    (match (if hd false (outages w) then None else table w !! id) with
     | Some user => Ok user
     | None => Throw (NotFoundException
                        ("User with ID " +:+ dquote +:+ id +:+ dquote +:+ " not found"))
     end, mkWorld (table w) (tail (outages w))).
Proof.
  unfold UsersService.findOneByIdOrFail, bind. rewrite findOneById_spec.
  by destruct (if hd false (outages w) then None else _).
Qed.

Lemma GET_user_spec id w :
  isUUID id = true →
  UsersController.GET_user id w =
    (match (if hd false (outages w) then None else table w !! id) with
     | Some user => mkResponse 200 (RObject (omit "passwordHash" user))
     | None => mkResponse 404
                 (error_body 404
                    ("User with ID " +:+ dquote +:+ id +:+ dquote +:+ " not found")
                    "Not Found")
     end, mkWorld (table w) (tail (outages w))).
Proof.
  intros Huuid. unfold UsersController.GET_user, route. unfold bind at 1.
  rewrite ParseUUIDPipe_spec, Huuid. unfold UsersController.findOne, bind.
  rewrite findOneByIdOrFail_spec.
  by destruct (if hd false (outages w) then None else _).
Qed.

Lemma GET_profile_spec req w :
  UsersController.GET_profile req w =
    (match (if hd false (outages w) then None
            else table w !! AuthenticatedUser.userId req) with
     | Some user => mkResponse 200 (RObject (omit "passwordHash" user))
     | None => mkResponse 404
                 (error_body 404
                    ("User with ID " +:+ dquote +:+ AuthenticatedUser.userId req
                       +:+ dquote +:+ " not found")
                    "Not Found")
     end, mkWorld (table w) (tail (outages w))).
Proof.
  unfold UsersController.GET_profile, route, UsersController.getProfile, bind.
  rewrite findOneByIdOrFail_spec.
  by destruct (if hd false (outages w) then None else _).
Qed.

Lemma findAll_spec w :
  UsersService.findAll w =
    (if hd false (outages w)
     then Throw (InternalServerErrorException "Could not retrieve users.")
     else Ok ((λ it : JsObject, filter (λ kv, kv.1 ∈ projected) it) <$> scan_items (table w)),
     mkWorld (table w) (tail (outages w))).
Proof.
  unfold UsersService.findAll. run. rewrite send_spec.
  destruct (hd false (outages w)); [done|]. reflexivity.
Qed.

Lemma written_Ok id asg w r w' :
  written id asg w = (Ok r, w') →
  ∃ item, table w !! id = Some item ∧
          r = omit "passwordHash" (foldl assign item asg) ∧
          table w' = <[id := foldl assign item asg]> (table w).
Proof.
  unfold written. destruct (hd false (outages w)); [done|].
  destruct (table w !! id) as [item|] eqn:Hid; [|done].
  destruct (holds _ _); [|done]. intros [= <- <-]. by exists item.
Qed.

Lemma prop_omit_ne k k' (o : JsObject) : k ≠ k' → prop (omit k o) k' = prop o k'.
Proof. intros Hne. unfold prop, omit. by rewrite lookup_delete_ne. Qed.

Lemma js_or_truthy a b : truthy b = true → truthy (js_or a b) = true.
Proof. unfold js_or. by destruct (truthy a) eqn:Ha. Qed.

Lemma login_claims user w :
  truthy (prop user "userId") = true → truthy (prop user "email") = true →
  truthy (prop user "role") = true →
  AuthService.login (omit "passwordHash" user) w
  = (Ok (list_to_map [ ("access_token", VStr (jwt_sign (claims_of user))) ]), w).
Proof.
  intros Hid He Hr. unfold AuthService.login, claims_of.
  rewrite !prop_omit_ne by discriminate. by rewrite Hid, He, Hr.
Qed.

Lemma POST_login_found body e p w id user h :
  conforms LoginDto (whitelist LoginDto body) = true →
  prop body "email" = VStr e → prop body "password" = VStr p →
  answers w → table w !! id = Some user →
  user !! "email" = Some (VStr (toLowerCase e)) →
  (∀ id' item, table w !! id' = Some item →
               item !! "email" = Some (VStr (toLowerCase e)) → id' = id) →
  truthy (prop user "isDisabled") = false →
  prop user "passwordHash" = VStr h →
  AuthController.POST_login body w
  = route 200
      (if bcrypt_compare p h
       then await token ← AuthService.login (omit "passwordHash" user);
            ret (RObject token)
       else throw (UnauthorizedException "Invalid credentials"))
      (mkWorld (table w) (tail (outages w))).
Proof.
  intros Hvalid He Hp Hans Hid Hemail Huniq Hdis Hh.
  unfold AuthController.POST_login, route. unfold bind at 1.
  rewrite ValidationPipe_spec, Hvalid.
  rewrite (login_after_lookup _ e (Some user) w (mkWorld (table w) (tail (outages w)))).
  - rewrite Hdis, prop_whitelist_in, Hp, Hh by compute_done.
    destruct (bcrypt_compare p h); [|done]. unfold bind.
    by destruct (AuthService.login _ _) as [[] ?].
  - by rewrite prop_whitelist_in by compute_done.
  - by apply (findOneByEmail_found e w id).
Qed.

Lemma conforms_property cls dto p :
  conforms cls dto = true → p ∈ cls → valid_property dto p = true.
Proof.
  unfold conforms. rewrite forallb_forall. intros Hall Hin.
  by apply Hall, list_elem_of_In.
Qed.

Lemma conforms_CreateUserDto_password dto p :
  conforms CreateUserDto dto = true → prop dto "password" = VStr p →
  (8 <=? String.length p)%nat = true ∧ p ≠ EmptyString.
Proof.
  intros Hvalid Hp.
  assert (Hpw := conforms_property _ _ (mkProperty "password" false
                      [IsString; MinLength 8; IsNotEmpty]) Hvalid ltac:(set_solver)).
  unfold valid_property in Hpw. cbn -[Nat.leb] in Hpw. rewrite Hp in Hpw.
  cbn -[Nat.leb] in Hpw.
  destruct (8 <=? String.length p)%nat eqn:Hlen.
  - split; [done|]. intros ->. done.
  - discriminate Hpw.
Qed.

Lemma conforms_credentials e p :
  isEmail e = true → e ≠ EmptyString →
  (8 <=? String.length p)%nat = true → p ≠ EmptyString →
  conforms LoginDto (whitelist LoginDto (credentials e p)) = true.
Proof.
  intros He Hne Hlen Hp. unfold conforms, LoginDto. cbn [forallb].
  unfold valid_property. cbn [name IsOptional validators andb].
  rewrite !prop_whitelist_in by compute_done.
  unfold credentials, prop. obj_lookup. cbn [default from_option id forallb check].
  rewrite He, Hlen. cbn [andb negb].
  rewrite !bool_decide_eq_false_2; [done| |]; intros [?|[?|?]]; congruence.
Qed.

Lemma POST_register_created uuid now body e p w :
  conforms CreateUserDto (whitelist CreateUserDto body) = true →
  prop body "email" = VStr e → prop body "password" = VStr p →
  outages w = [] → table w !! uuid = None →
  (∀ id item, table w !! id = Some item →
              item !! "email" ≠ Some (VStr (toLowerCase e))) →
  let item := userItem_of uuid now e p (whitelist CreateUserDto body) in
  AuthController.POST_register uuid now body w
  = (mkResponse 201 (RObject (omit "passwordHash" item)),
     mkWorld (<[uuid := marshall item]> (table w)) []).
Proof.
  intros Hvalid He Hp Hout Hfresh Hunused item.
  unfold AuthController.POST_register, route. unfold bind at 1.
  rewrite ValidationPipe_spec, Hvalid.
  unfold AuthController.register, AuthService.register. run.
  rewrite (create_steps _ _ _ e).
  - cbv zeta. rewrite Hout. cbn [hd tail outages table].
    rewrite prop_whitelist_in, Hp, Hfresh by compute_done. cbn.
    destruct (head _) as [found|] eqn:Hhead; [|done].
    apply head_Some_elem_of, list_elem_of_filter in Hhead as [Hemail Hin].
    apply scan_items_elem in Hin as [id Hid]. by destruct (Hunused _ _ Hid).
  - by rewrite prop_whitelist_in by compute_done.
  - destruct (conforms_CreateUserDto _ Hvalid) as (e0 & p0 & He0 & Hp0 & Hte & Htp).
    rewrite prop_whitelist_in in He0 by compute_done.
    assert (e0 = e) as -> by congruence.
    by rewrite Hp0, Hte, Htp.
Qed.

Lemma prop_userItem_of uuid now e p dto :
  let item := userItem_of uuid now e p dto in
  prop item "userId" = VStr uuid ∧
  prop item "email" = VStr (toLowerCase e) ∧
  prop item "passwordHash" = VStr (bcrypt_hash p UsersService.saltRounds) ∧
  prop item "role" = js_or (prop dto "role") UserRole.ADMIN ∧
  prop item "isDisabled" = VBool false ∧
  prop item "avatarUrl" = prop dto "avatarUrl".
Proof. repeat split; apply prop_lookup; unfold userItem_of; by obj_lookup. Qed.

Lemma PATCH_user_spec now id req body w :
  UsersController.PATCH_user now id req body w =
    if isUUID id then
      if conforms UpdateUserDto (whitelist UpdateUserDto body) then
        if self_guard id req (whitelist UpdateUserDto body) then
          (mkResponse 403
             (error_body 403 "Admins cannot change their own role or disable themselves."
                "Forbidden"), w)
        else
          route 200 (await updated ← UsersService.update now id
                                       (whitelist UpdateUserDto body);
                     ret (RObject updated)) w
      else (mkResponse 400 (error_body 400 "Validation failed" "Bad Request"), w)
    else (mkResponse 400
            (error_body 400 "Validation failed (uuid is expected)" "Bad Request"), w).
Proof.
  unfold UsersController.PATCH_user, route. unfold bind at 1.
  rewrite ParseUUIDPipe_spec. destruct (isUUID id); [|done].
  unfold bind at 1. rewrite ValidationPipe_spec. destruct (conforms _ _); [|done].
  unfold UsersController.update, self_guard. by destruct (_ && _).
Qed.

Lemma PATCH_user_table now id req body w :
  table (UsersController.PATCH_user now id req body w).2 = table w ∨
  (isUUID id = true ∧
   conforms UpdateUserDto (whitelist UpdateUserDto body) = true ∧
   self_guard id req (whitelist UpdateUserDto body) = false ∧
   table (UsersController.PATCH_user now id req body w).2
   = table (UsersService.update now id (whitelist UpdateUserDto body) w).2).
Proof.
  rewrite PATCH_user_spec. destruct (isUUID id); [|by left].
  destruct (conforms _ _); [|by left]. destruct (self_guard _ _ _); [by left|].
  right. repeat split. rewrite route_world. apply then_table.
Qed.

Lemma clean_entries_keys dto key :
  clean dto → key ∈ (entries dto).*1 →
  key ∈ ["firstName"; "lastName"; "role"; "isDisabled"; "avatarUrl"].
Proof.
  intros Hclean Hin. pose proof (entries_updatable _ _ Hclean Hin) as Hup.
  apply entries_keys in Hin as [Hpw _].
  apply updatable_cases in Hup. rewrite !elem_of_cons. tauto.
Qed.

Lemma route_Ok_inv code handler w r w' :
  (code < 400)%nat →
  route code handler w = (mkResponse code r, w') → handler w = (Ok r, w').
Proof.
  intros Hcode. unfold route. destruct (handler w) as [[r0|e] w0].
  - by intros [= -> ->].
  - intros [= Hst%(f_equal status) _]. destruct e; cbn in Hst; lia.
Qed.

Lemma add_profile_entry_names acc entry :
  UsersService.expressionAttributeNames (UsersService.add_profile_entry acc entry)
  = UsersService.expressionAttributeNames acc.
Proof.
  destruct entry as [key value]. unfold UsersService.add_profile_entry.
  by case_bool_decide.
Qed.

Lemma profile_loop l :
  Forall (λ key, key ∈ name <$> UpdateProfileDto) l.*1 →
  ∀ acc,
    foldl UsersService.add_entry acc l = foldl UsersService.add_profile_entry acc l ∧
    UsersService.expressionAttributeNames (foldl UsersService.add_profile_entry acc l)
    = UsersService.expressionAttributeNames acc.
Proof.
  induction l as [|[key value] l IH]; intros Hkeys acc; [done|].
  apply Forall_cons in Hkeys as [Hkey Hkeys]. cbn [foldl].
  assert (Hstep : UsersService.add_entry acc (key, value)
                  = UsersService.add_profile_entry acc (key, value)).
  { cbn in Hkey. rewrite !elem_of_cons, elem_of_nil in Hkey.
    unfold UsersService.add_entry, UsersService.add_profile_entry.
    rewrite !(bool_decide_eq_false_2 (key = "password")),
            !(bool_decide_eq_false_2 (key = "role")),
            !(bool_decide_eq_false_2 (key = "isDisabled"));
      [done|intuition (subst; discriminate)..]. }
  rewrite Hstep. destruct (IH Hkeys (UsersService.add_profile_entry acc (key, value)))
    as [-> ->]. split; [done|]. apply add_profile_entry_names.
Qed.

Lemma bind_ret {A B} (a : A) (k : A → M B) w : (await x ← ret a; k x) w = k a w.
Proof. reflexivity. Qed.

Lemma create_change uuid now dto w :
  Change (table w) (table (UsersService.create uuid now dto w).2).
Proof.
  destruct (negb (truthy (prop dto "email")) || negb (truthy (prop dto "password")))
    eqn:Hguard.
  { apply change_none. unfold UsersService.create. by rewrite Hguard. }
  destruct (prop dto "email") as [| |b|n|e] eqn:He.
  1-4: apply change_none; unfold UsersService.create; rewrite He, Hguard; reflexivity.
  rewrite (create_steps _ _ _ e) by done. cbv zeta.
  destruct (if hd false (outages w) then None else _); [by apply change_none|].
  destruct (prop dto "password") as [| |b|n|p] eqn:Hp; try by apply change_none.
  cbn [outages table].
  destruct (hd false (tail (outages w))); [by apply change_none|].
  destruct (holds _ _); [|by apply change_none].
  by apply (change_put _ _ uuid now e p dto).
Qed.

Lemma update_change now id dto w :
  clean dto → Change (table w) (table (UsersService.update now id dto w).2).
Proof.
  intros Hclean.
  destruct (update_table now id dto w Hclean) as [Heq|(extra & item & Hextra & Hid & Heq)].
  - by apply change_none.
  - by apply (change_update _ _ now id dto extra item).
Qed.

Lemma remove_change id w :
  Change (table w) (table (UsersService.remove id w).2).
Proof.
  rewrite remove_spec. cbv zeta.
  destruct (hd false (outages w)); [by apply change_none|].
  destruct (holds _ _); [by apply (change_delete _ _ id)|by apply change_none].
Qed.

Lemma serve_change request w : Change (table w) (table (serve request w).2).
Proof.
  destruct request as [b|uuid now b|req|now req b|uuid now b| |id|now id req b|id req];
    cbn [serve].
  - unfold AuthController.POST_login. rewrite route_world, pipe_then_table.
    apply change_none. destruct (conforms _ _); [apply login_table|done].
  - unfold AuthController.POST_register. rewrite route_world, pipe_then_table.
    destruct (conforms _ _); [|by apply change_none].
    unfold AuthController.register, AuthService.register.
    set (dto := whitelist CreateUserDto b).
    pose proof (create_change uuid now dto w) as Hc. run.
    destruct (UsersService.create uuid now dto w) as [[user|e] w1]; [done|].
    by destruct e.
  - unfold UsersController.GET_profile, UsersController.getProfile.
    rewrite route_world, then_table. apply change_none, findOneByIdOrFail_table.
  - unfold UsersController.PATCH_profile. rewrite route_world, pipe_then_table.
    destruct (conforms _ _); [|by apply change_none].
    unfold UsersController.updateOwnProfile. rewrite then_table.
    apply update_change, whitelist_UpdateProfileDto_clean.
  - unfold UsersController.POST_users. rewrite route_world, pipe_then_table.
    destruct (conforms _ _); [|by apply change_none].
    unfold UsersController.create. rewrite then_table. apply create_change.
  - unfold UsersController.GET_users, UsersController.findAll.
    rewrite route_world, then_table. apply change_none.
    unfold UsersService.findAll. run. rewrite send_spec.
    destruct (hd false (outages w)); [done|]. unfold execute.
    by destruct (mapM _ _).
  - unfold UsersController.GET_user, UsersController.findOne.
    rewrite route_world, uuid_then_table.
    destruct (isUUID _); [|by apply change_none].
    rewrite then_table. apply change_none, findOneByIdOrFail_table.
  - destruct (PATCH_user_table now id req b w) as [Heq|(_ & _ & _ & Heq)].
    + by apply change_none.
    + rewrite Heq. apply update_change, whitelist_UpdateUserDto_clean.
  - unfold UsersController.DELETE_user. rewrite route_world, uuid_then_table.
    destruct (isUUID _); [|by apply change_none].
    unfold UsersController.remove.
    destruct (bool_decide _); [by apply change_none|].
    pose proof (remove_change id w) as Hr. unfold bind.
    by destruct (UsersService.remove id w) as [[] ?].
Qed.

Lemma created_well_formed uuid now e p dto :
  well_formed uuid (marshall (userItem_of uuid now e p dto)).
Proof.
  unfold well_formed.
  assert (Hin : ∀ k v, userItem_of uuid now e p dto !! k = Some (VStr v) →
                       marshall (userItem_of uuid now e p dto) !! k = Some (VStr v)).
  { intros k v Hk. by apply marshall_lookup_defined. }
  split; [apply Hin, userItem_of_userId|].
  split.
  { exists (toLowerCase e). split; [apply Hin, userItem_of_email|].
    apply toLowerCase_idem. }
  split; [eexists; apply Hin; unfold userItem_of; by obj_lookup|].
  split; [eexists; apply Hin; unfold userItem_of; by obj_lookup|].
  destruct (marshall _ !! "password") as [v|] eqn:Hv; [|done].
  apply marshall_lookup_Some in Hv. unfold userItem_of in Hv. revert Hv. by obj_lookup.
Qed.

Lemma password_clause_values dto extra key value :
  password_clause dto = inr extra → (key, value) ∈ extra → ∃ s, value = VStr s.
Proof.
  unfold password_clause. destruct (truthy _).
  - destruct (prop dto "password") as [| | | |s]; try discriminate.
    destruct (_ <? _)%nat; [discriminate|].
    intros [= <-] [= _ ->]%list_elem_of_singleton. eauto.
  - intros [= <-] Hin. by apply elem_of_nil in Hin.
Qed.

Lemma updated_well_formed now id dto extra item :
  clean dto → password_clause dto = inr extra → well_formed id item →
  well_formed id (foldl assign item (("updatedAt", VStr now) :: entries dto ++ extra)).
Proof.
  intros Hclean Hextra (Huid & He & (h & Hh) & Hc & Hpw).
  destruct (assignments_distinct now dto extra Hclean Hextra) as [Hnd Hnu].
  set (asg := ("updatedAt", VStr now) :: entries dto ++ extra) in *.
  assert (Hframe : ∀ key,
            key ∉ ["updatedAt"; "firstName"; "lastName"; "role"; "isDisabled";
                   "avatarUrl"; "passwordHash"] →
            foldl assign item asg !! key = item !! key).
  { intros key Hkey. apply assign_frame. subst asg. cbn [fmap list_fmap fst].
    rewrite fmap_app.
    rewrite !not_elem_of_cons in Hkey.
    destruct Hkey as (Hu & Hf & Hl & Hr & Hd & Ha & Hp & _).
    rewrite not_elem_of_cons, not_elem_of_app. split; [exact Hu|]. split.
    - intros Hin%clean_entries_keys; [|done].
      rewrite !elem_of_cons, elem_of_nil in Hin. tauto.
    - intros Hin. by apply (password_clause_keys _ _ _ Hextra) in Hin. }
  assert (Hother : ∀ key,
            key ∈ ["userId"; "email"; "createdAt"; "password"] →
            foldl assign item asg !! key = item !! key).
  { intros key Hkey. apply Hframe. rewrite !elem_of_cons, elem_of_nil in Hkey.
    rewrite !not_elem_of_cons.
    destruct Hkey as [-> | [-> | [-> | [-> | []]]]];
      (repeat split; [discriminate..|apply not_elem_of_nil]). }
  assert (H1 : "userId" ∈ ["userId"; "email"; "createdAt"; "password"])
    by (rewrite !elem_of_cons; tauto).
  assert (H2 : "email" ∈ ["userId"; "email"; "createdAt"; "password"])
    by (rewrite !elem_of_cons; tauto).
  assert (H3 : "createdAt" ∈ ["userId"; "email"; "createdAt"; "password"])
    by (rewrite !elem_of_cons; tauto).
  assert (H4 : "password" ∈ ["userId"; "email"; "createdAt"; "password"])
    by (rewrite !elem_of_cons; tauto).
  unfold well_formed.
  rewrite (Hother _ H1), (Hother _ H2), (Hother _ H3), (Hother _ H4).
  split; [exact Huid|]. split; [exact He|]. split; [|split; [exact Hc|exact Hpw]].
  destruct (decide ("passwordHash" ∈ extra.*1)) as [Hin|Hin].
  - apply list_elem_of_fmap in Hin as ([k v] & Hk & Hin). cbn in Hk. subst k.
    destruct (password_clause_values _ _ _ _ Hextra Hin) as [s ->].
    exists s. apply assign_lookup; [exact Hnd|]. right. apply elem_of_app. right.
    exact Hin.
  - exists h. rewrite assign_frame; [exact Hh|]. subst asg. cbn [fmap list_fmap fst].
    rewrite fmap_app.
    rewrite not_elem_of_cons, not_elem_of_app. split; [discriminate|]. split; [|exact Hin].
    intros Hin'. exact (not_updatable_passwordHash (entries_updatable _ _ Hclean Hin')).
Qed.

End Service_facts.

(** ** What the store keeps and what it reports *)

Section Store.
Context `{Platform}.

(** [create] never overwrites a record: when the generated id is the id of
    a stored record, the call fails whatever the DTO is, and the table is
    as it was. *)
Theorem create_never_overwrites uuid now dto w item :
  table w !! uuid = Some item → is_Some (item !! "userId") →
  table (UsersService.create uuid now dto w).2 = table w ∧
  ∀ user, (UsersService.create uuid now dto w).1 ≠ Ok user.
Proof.
  intros Hid Hkey.
  assert (Hholds : holds (attribute_not_exists "userId") (table w !! uuid) = false).
  { rewrite Hid. cbn. by rewrite bool_decide_eq_true_2. }
  destruct (negb (truthy (prop dto "email")) || negb (truthy (prop dto "password")))
    eqn:Hguard.
  { unfold UsersService.create. rewrite Hguard. done. }
  destruct (prop dto "email") as [| |b|n|e] eqn:He.
  1-4: unfold UsersService.create; rewrite He, Hguard; done.
  rewrite (create_steps _ _ _ e) by done. cbv zeta. rewrite Hholds.
  destruct (if hd false (outages w) then None else _); [done|].
  destruct (prop dto "password"); try done.
  cbn [outages table]. by destruct (hd false (tail (outages w))).
Qed.

(** [update] never creates a record: for an id that no record has, the
    call fails and the table is as it was; when the store answers and the
    DTO is valid, the failure is the not-found exception. *)
Theorem update_never_creates now id dto w :
  clean dto → table w !! id = None →
  table (UsersService.update now id dto w).2 = table w ∧
  (∀ r, (UsersService.update now id dto w).1 ≠ Ok r) ∧
  (answers w → conforms UpdateUserDto dto = true →
   ∃ message, (UsersService.update now id dto w).1 = Throw (NotFoundException message)).
Proof.
  intros Hclean Hid. split; [|split].
  - destruct (update_table now id dto w Hclean) as [Heq|(extra & item & _ & Hitem & _)];
      [done|congruence].
  - intros r. rewrite update_spec by done.
    destruct (password_clause dto) as [e|extra]; [done|].
    destruct (entries dto ++ extra).
    + rewrite findOneByIdOrFail_spec, Hid. by destruct (hd false (outages w)).
    + unfold written. rewrite Hid. by destruct (hd false (outages w)).
  - intros Hans Hvalid. rewrite update_spec by done.
    rewrite (conforms_password_clause _ Hvalid).
    destruct (entries dto ++ _).
    + rewrite findOneByIdOrFail_spec, Hid, Hans. by eexists.
    + unfold written. rewrite Hid, Hans. by eexists.
Qed.

(** While the store fails, a lookup reports absence: GET /users/:id and
    GET /users/profile answer 404, [JwtStrategy.validate] rejects the
    token, and [findOneByEmailOrFail] throws its not-found exception,
    whether or not the record is in the table. *)
Theorem lookups_report_absence_on_outage w :
  hd false (outages w) = true →
  let w1 := mkWorld (table w) (tail (outages w)) in
  (∀ id, isUUID id = true →
     UsersController.GET_user id w
     = (mkResponse 404
          (error_body 404 ("User with ID " +:+ dquote +:+ id +:+ dquote +:+ " not found")
             "Not Found"), w1)) ∧
  (∀ req,
     UsersController.GET_profile req w
     = (mkResponse 404
          (error_body 404
             ("User with ID " +:+ dquote +:+ AuthenticatedUser.userId req +:+ dquote
                +:+ " not found") "Not Found"), w1)) ∧
  (∀ payload, JwtStrategy.validate payload w = (rejected, w1)) ∧
  (∀ email,
     UsersService.findOneByEmailOrFail (VStr email) w
     = (Throw (NotFoundException
                 ("User with email " +:+ dquote +:+ email +:+ dquote +:+ " not found")),
        w1)).
Proof.
  intros Hout w1. repeat split.
  - intros id Huuid. by rewrite GET_user_spec, Hout.
  - intros req. by rewrite GET_profile_spec, Hout.
  - intros payload. by rewrite validate_spec, Hout.
  - intros email. unfold UsersService.findOneByEmailOrFail. unfold bind at 1.
    by rewrite findOneByEmail_spec, Hout.
Qed.

(** After a DELETE that is answered with 204 the record is gone: the
    table is the old one without it, GET /users/:id for the same id is
    answered with 404, and so is a second DELETE, which changes nothing. *)
Theorem DELETE_user_then_absent id req w :
  isUUID id = true → id ≠ AuthenticatedUser.userId req →
  outages w = [] → keyed (table w) → is_Some (table w !! id) →
  let w1 := (UsersController.DELETE_user id req w).2 in
  (UsersController.DELETE_user id req w).1 = mkResponse 204 RUndefined ∧
  table w1 = delete id (table w) ∧
  status (UsersController.GET_user id w1).1 = 404 ∧
  status (UsersController.DELETE_user id req w1).1 = 404 ∧
  table (UsersController.DELETE_user id req w1).2 = table w1.
Proof.
  intros Huuid Hne Hout Hkeyed [item Hitem].
  assert (Hdel : ∀ w0, outages w0 = [] →
            UsersController.DELETE_user id req w0
            = match table w0 !! id ≫= (.!! "userId") with
              | Some _ => (mkResponse 204 RUndefined, mkWorld (delete id (table w0)) [])
              | None =>
                  (mkResponse 404
                     (error_body 404
                        ("User with ID " +:+ dquote +:+ id +:+ dquote +:+ " not found.")
                        "Not Found"), mkWorld (table w0) [])
              end).
  { intros w0 Hout0. unfold UsersController.DELETE_user, route. unfold bind at 1.
    rewrite ParseUUIDPipe_spec, Huuid. unfold UsersController.remove.
    rewrite bool_decide_eq_false_2 by done. unfold bind.
    rewrite remove_spec, Hout0. cbn.
    destruct (table w0 !! id ≫= (.!! "userId")) as [v|] eqn:Hv.
    - by rewrite bool_decide_eq_true_2.
    - by rewrite bool_decide_eq_false_2 by (by intros [? ?]). }
  intros w1. subst w1. rewrite (Hdel w Hout), Hitem. cbn.
  rewrite (Hkeyed _ _ Hitem). cbn.
  split; [done|]. split; [done|].
  split.
  - rewrite GET_user_spec by done. cbn. by rewrite lookup_delete_eq.
  - rewrite Hdel by done. cbn. by rewrite lookup_delete_eq.
Qed.

(** GET /users, while the store answers, lists stored records only: each
    object of the list has the nine projected attributes of a record of
    the table and no other property.  While the store fails the answer is
    500. *)
Theorem GET_users_lists_stored_records w :
  (answers w →
   ∃ users,
     UsersController.GET_users w
     = (mkResponse 200 (RArray users), mkWorld (table w) (tail (outages w))) ∧
     ∀ user, user ∈ users →
       ∃ id item, table w !! id = Some item ∧
         ∀ key, user !! key = if bool_decide (key ∈ projected) then item !! key else None) ∧
  (hd false (outages w) = true →
   UsersController.GET_users w
   = (mkResponse 500
        (error_body 500 "Could not retrieve users." "Internal Server Error"),
      mkWorld (table w) (tail (outages w)))).
Proof.
  unfold UsersController.GET_users, route, UsersController.findAll, bind.
  rewrite findAll_spec. split.
  - intros ->. eexists. split; [reflexivity|].
    intros user (item & -> & [id Hid]%scan_items_elem)%list_elem_of_fmap.
    exists id, item. split; [done|]. intros key. case_bool_decide as Hkey.
    + destruct (item !! key) as [v|] eqn:Hv.
      * by apply map_lookup_filter_Some.
      * apply map_lookup_filter_None. by left.
    + apply map_lookup_filter_None. right. intros v _. done.
  - intros ->. done.
Qed.

(** An update that carries a password and succeeds has stored the bcrypt
    hash of that password under [passwordHash] and has written no
    [password] attribute; the password has at least eight characters,
    by the check of the service itself. *)
Theorem update_rehashes_password now id dto p w r w' :
  clean dto → prop dto "password" = VStr p → p ≠ EmptyString →
  UsersService.update now id dto w = (Ok r, w') →
  ∃ item item',
    table w !! id = Some item ∧ table w' !! id = Some item' ∧
    item' !! "passwordHash" = Some (VStr (bcrypt_hash p UsersService.saltRounds)) ∧
    item' !! "password" = item !! "password" ∧
    r = omit "passwordHash" item' ∧
    (8 <= String.length p)%nat.
Proof.
  intros Hclean Hp Hne. rewrite update_spec by done.
  assert (Hclause : password_clause dto
            = if (String.length p <? 8)%nat
              then inl (BadRequestException "Password must be at least 8 characters long.")
              else inr [("passwordHash", VStr (bcrypt_hash p UsersService.saltRounds))]).
  { unfold password_clause. rewrite Hp. by destruct p. }
  rewrite Hclause. destruct (String.length p <? 8)%nat eqn:Hlen; [done|].
  apply Nat.ltb_ge in Hlen.
  destruct (assignments_distinct now dto
              [("passwordHash", VStr (bcrypt_hash p UsersService.saltRounds))] Hclean)
    as [Hnd Huid]; [exact Hclause|].
  destruct (entries dto ++ _) as [|entry rest] eqn:Happ.
  { by apply app_eq_nil in Happ as [_ ?]. }
  rewrite <-Happ in *. intros (item & Hid & -> & Ht)%written_Ok.
  exists item. eexists. split; [done|]. rewrite Ht, lookup_insert_eq.
  split; [done|]. split; [|split; [|done]].
  - apply assign_lookup; [done|]. right. apply elem_of_app. right. left.
  - apply assign_frame. cbn. rewrite fmap_app. cbn.
    rewrite not_elem_of_cons, not_elem_of_app, not_elem_of_cons. split; [done|]. split.
    + by intros [? _]%entries_keys.
    + split; [done|]. apply not_elem_of_nil.
Qed.

(** On a DTO with no properties but those of [UpdateProfileDto],
    [updateProfile] and [update] are the same computation; so the handler
    of PATCH /users/profile, which calls [update], does what
    [updateProfile] would do. *)
Theorem updateProfile_is_update now id dto w :
  profile_only dto →
  UsersService.updateProfile now id dto w = UsersService.update now id dto w.
Proof.
  intros Hdto.
  assert (Hkeys : Forall (λ key, key ∈ name <$> UpdateProfileDto) (map_to_list dto).*1).
  { apply Forall_forall. intros key ([k v] & -> & Hkv%elem_of_map_to_list)%list_elem_of_fmap.
    apply Hdto. by exists v. }
  assert (Hpw : prop dto "password" = VUndefined).
  { unfold prop. destruct (dto !! "password") as [v|] eqn:Hv; [|done].
    assert (Hin : "password" ∈ name <$> UpdateProfileDto) by (apply Hdto; eauto).
    cbn in Hin. rewrite !elem_of_cons, elem_of_nil in Hin. intuition discriminate. }
  unfold UsersService.updateProfile, UsersService.update.
  rewrite Hpw. cbn [truthy negb]. rewrite bind_ret.
  destruct (profile_loop _ Hkeys
              (UsersService.mkExpression [("updatedAt", ":ua")] {[":ua" := VStr now]} ∅))
    as [-> Hnames].
  rewrite Hnames. cbn [UsersService.expressionAttributeNames]. by rewrite andb_true_r.
Qed.

End Store.

Lemma create_never_overwrites_witness :
  table Demo.world !! Demo.ann_id = Some Demo.ann ∧
  table (@UsersService.create Demo.platform Demo.ann_id later carol_dto Demo.world).2
    = table Demo.world ∧
  ∀ user,
    (@UsersService.create Demo.platform Demo.ann_id later carol_dto Demo.world).1
    ≠ Ok user.
Proof.
  assert (Hann : table Demo.world !! Demo.ann_id = Some Demo.ann) by by_vm.
  assert (Hkey : is_Some (Demo.ann !! "userId")) by (eexists; by vm_compute).
  exact (conj Hann
           (@create_never_overwrites Demo.platform Demo.ann_id later carol_dto
              Demo.world Demo.ann Hann Hkey)).
Defined.

Lemma update_never_creates_witness :
  clean rename_ann ∧ table Demo.world !! Demo.nobody_id = None ∧
  table (@UsersService.update Demo.platform later Demo.nobody_id rename_ann Demo.world).2
    = table Demo.world ∧
  ∃ message,
    (@UsersService.update Demo.platform later Demo.nobody_id rename_ann Demo.world).1
    = Throw (NotFoundException message).
Proof.
  assert (H1 : clean rename_ann) by apply whitelist_UpdateUserDto_clean.
  assert (H2 : table Demo.world !! Demo.nobody_id = None) by by_vm.
  assert (H3 : @conforms Demo.platform UpdateUserDto rename_ann = true) by by vm_compute.
  destruct (@update_never_creates Demo.platform later Demo.nobody_id rename_ann
              Demo.world H1 H2) as (Htable & _ & Hnot_found).
  split; [exact H1|]. split; [exact H2|]. split; [exact Htable|].
  exact (Hnot_found eq_refl H3).
Defined.

Lemma lookups_report_absence_on_outage_witness :
  let w := mkWorld (table Demo.world) [true] in
  table w !! Demo.ann_id = Some Demo.ann ∧
  status (@UsersController.GET_user Demo.platform Demo.ann_id w).1 = 404 ∧
  status (UsersController.GET_profile Demo.admin_ann w).1 = 404 ∧
  (JwtStrategy.validate Demo.ann_token w).1 = rejected.
Proof.
  intros w.
  destruct (@lookups_report_absence_on_outage Demo.platform w eq_refl)
    as (Hget & Hprofile & Hvalidate & _).
  split; [by_vm|].
  rewrite (Hget Demo.ann_id eq_refl), Hprofile, Hvalidate.
  by repeat split.
Defined.

Lemma DELETE_user_then_absent_witness :
  let w1 := (@UsersController.DELETE_user Demo.platform Demo.bob_id Demo.admin_ann
               Demo.world).2 in
  (@UsersController.DELETE_user Demo.platform Demo.bob_id Demo.admin_ann Demo.world).1
    = mkResponse 204 RUndefined ∧
  table w1 = delete Demo.bob_id (table Demo.world) ∧
  status (@UsersController.GET_user Demo.platform Demo.bob_id w1).1 = 404 ∧
  status (@UsersController.DELETE_user Demo.platform Demo.bob_id Demo.admin_ann w1).1
    = 404 ∧
  table (@UsersController.DELETE_user Demo.platform Demo.bob_id Demo.admin_ann w1).2
    = table w1.
Proof.
  apply (@DELETE_user_then_absent Demo.platform Demo.bob_id Demo.admin_ann Demo.world);
    [reflexivity | discriminate | reflexivity | exact Demo_world_keyed |].
  exists Demo.bob. by_vm.
Defined.

Lemma GET_users_lists_stored_records_witness :
  ∃ users,
    @UsersController.GET_users Demo.world
    = (mkResponse 200 (RArray users), Demo.world) ∧
    ∀ user, user ∈ users →
      ∃ id item, table Demo.world !! id = Some item ∧
        ∀ key, user !! key = if bool_decide (key ∈ projected) then item !! key else None.
Proof. exact (proj1 (GET_users_lists_stored_records Demo.world) eq_refl). Defined.

Lemma update_rehashes_password_witness :
  clean new_password ∧
  @UsersService.update Demo.platform later Demo.ann_id new_password Demo.world
    = (Ok (omit "passwordHash" ann_with_new_password),
       mkWorld (<[Demo.ann_id := ann_with_new_password]> (table Demo.world)) []) ∧
  ann_with_new_password !! "passwordHash" = Some (VStr "$2b$10$new password") ∧
  ann_with_new_password !! "password" = None.
Proof.
  assert (H1 : clean new_password) by apply whitelist_UpdateUserDto_clean.
  assert (H2 : prop new_password "password" = VStr "new password") by by vm_compute.
  assert (H3 : @UsersService.update Demo.platform later Demo.ann_id new_password Demo.world
               = (Ok (omit "passwordHash" ann_with_new_password),
                  mkWorld (<[Demo.ann_id := ann_with_new_password]> (table Demo.world)) []))
    by by_vm.
  destruct (@update_rehashes_password Demo.platform later Demo.ann_id new_password
              "new password" Demo.world _ _ H1 H2 ltac:(discriminate) H3)
    as (item & item' & Hitem & Hitem' & Hhash & Hpw & _).
  cbn [table] in Hitem'. rewrite lookup_insert_eq in Hitem'.
  apply (inj Some) in Hitem' as <-.
  split; [exact H1|]. split; [exact H3|]. split; [exact Hhash|].
  by vm_compute.
Defined.

Lemma updateProfile_is_update_witness :
  profile_only first_name_only ∧
  @UsersService.updateProfile later Demo.ann_id first_name_only Demo.world
  = @UsersService.update Demo.platform later Demo.ann_id first_name_only Demo.world.
Proof.
  assert (H1 : profile_only first_name_only).
  { intros key [v Hv]. unfold first_name_only in Hv. cbn [list_to_map foldr fst snd] in Hv.
    destruct (decide (key = "firstName")) as [->|Hne]; [compute_done|].
    by rewrite lookup_insert_ne, lookup_empty in Hv. }
  split; [exact H1|].
  exact (@updateProfile_is_update Demo.platform later Demo.ann_id first_name_only
           Demo.world H1).
Defined.

(** ** Login and registration *)

Section Login.
Context `{Platform}.

(** A login with the password of an enabled account is answered with 200
    and a token that signs the [userId], the [email] and the [role] of the
    stored record (and its [avatarUrl] or [null]); the email of the body
    may differ from the stored one in letter case. *)
Theorem POST_login_success body e p w id user h :
  conforms LoginDto (whitelist LoginDto body) = true →
  prop body "email" = VStr e → prop body "password" = VStr p →
  answers w → table w !! id = Some user →
  user !! "email" = Some (VStr (toLowerCase e)) →
  (∀ id' item, table w !! id' = Some item →
               item !! "email" = Some (VStr (toLowerCase e)) → id' = id) →
  truthy (prop user "isDisabled") = false →
  prop user "passwordHash" = VStr h → bcrypt_compare p h = true →
  truthy (prop user "userId") = true → truthy (prop user "email") = true →
  truthy (prop user "role") = true →
  AuthController.POST_login body w
  = (mkResponse 200
       (RObject (list_to_map [ ("access_token", VStr (jwt_sign (claims_of user))) ])),
     mkWorld (table w) (tail (outages w))).
Proof.
  intros Hvalid He Hp Hans Hid Hemail Huniq Hdis Hh Hcmp Huid Hmail Hrole.
  rewrite (POST_login_found body e p w id user h) by done.
  rewrite Hcmp. unfold route, bind. by rewrite login_claims.
Qed.

(** Registration and login compose: after a registration that the store
    answers, a login with the same password and the same email, in any
    letter case, is answered with a token for the generated id, the
    lower-cased email and the role that was stored. *)
Theorem register_then_login uuid now body e p e' w :
  bcrypt_compare p (bcrypt_hash p UsersService.saltRounds) = true →
  conforms CreateUserDto (whitelist CreateUserDto body) = true →
  prop body "email" = VStr e → prop body "password" = VStr p →
  outages w = [] → table w !! uuid = None → uuid ≠ EmptyString →
  (∀ id item, table w !! id = Some item →
              item !! "email" ≠ Some (VStr (toLowerCase e))) →
  toLowerCase e' = toLowerCase e → toLowerCase e ≠ EmptyString →
  isEmail e' = true → e' ≠ EmptyString →
  ∃ user w1,
    AuthController.POST_register uuid now body w
    = (mkResponse 201 (RObject user), w1) ∧
    AuthController.POST_login (credentials e' p) w1
    = (mkResponse 200
         (RObject (list_to_map
            [ ("access_token",
               VStr (jwt_sign (list_to_map
                  [ ("email", VStr (toLowerCase e));
                    ("sub", VStr uuid);
                    ("role", js_or (prop body "role") UserRole.ADMIN);
                    ("avatarUrl", js_or (prop body "avatarUrl") VNull) ]))) ])),
       w1).
Proof.
  intros Hbcrypt Hvalid He Hp Hout Hfresh Huuid Hunused Hsame Hlow Hmail He'ne.
  set (dto := whitelist CreateUserDto body).
  assert (Hpd : prop dto "password" = VStr p)
    by (by subst dto; rewrite prop_whitelist_in by compute_done).
  assert (Hed : prop dto "email" = VStr e)
    by (by subst dto; rewrite prop_whitelist_in by compute_done).
  destruct (conforms_CreateUserDto_password _ _ Hvalid Hpd) as [Hlen Hpne].
  do 2 eexists. split; [by apply POST_register_created|].
  destruct (prop_userItem_of uuid now e p dto) as (Huid & Hem & Hph & Hrl & Hdis & Hav).
  set (item := userItem_of uuid now e p dto) in *.
  rewrite (POST_login_found (credentials e' p) e' p _ uuid (marshall item)
             (bcrypt_hash p UsersService.saltRounds)).
  - cbn [table outages]. rewrite Hbcrypt. unfold route, bind.
    rewrite login_claims.
    + unfold claims_of. rewrite !prop_marshall, Huid, Hem, Hrl, Hav. subst dto.
      by rewrite !prop_whitelist_in by compute_done.
    + rewrite prop_marshall, Huid. by destruct uuid.
    + rewrite prop_marshall, Hem. by destruct (toLowerCase e).
    + rewrite prop_marshall, Hrl. by apply js_or_truthy.
  - by apply conforms_credentials.
  - unfold credentials. apply prop_lookup. by obj_lookup.
  - unfold credentials. apply prop_lookup. by obj_lookup.
  - reflexivity.
  - cbn [table]. by rewrite lookup_insert_eq.
  - rewrite Hsame. apply marshall_lookup_defined; [|discriminate].
    apply userItem_of_email.
  - cbn [table]. intros id' it Hid' Hemail. destruct (decide (id' = uuid)) as [|Hne]; [done|].
    rewrite lookup_insert_ne in Hid' by done. rewrite Hsame in Hemail.
    by destruct (Hunused _ _ Hid').
  - by rewrite prop_marshall, Hdis.
  - by rewrite prop_marshall.
Qed.

(** POST /auth/register takes the [role] of the body: a registration that
    is answered with the new user has stored and returned the role the
    body asked for, ADMIN included. *)
Theorem POST_register_honours_role uuid now body w user w' :
  truthy (prop body "role") = true →
  AuthController.POST_register uuid now body w = (mkResponse 201 (RObject user), w') →
  user !! "role" = Some (prop body "role") ∧
  ∃ item, table w' !! uuid = Some item ∧ item !! "role" = Some (prop body "role").
Proof.
  intros Hrole Hreg. unfold AuthController.POST_register in Hreg.
  apply route_Ok_inv, pipe_then_Ok in Hreg; [|lia].
  unfold AuthController.register, AuthService.register in Hreg. run.
  destruct (UsersService.create _ _ _ w) as [[created|e] w1] eqn:Hc.
  - injection Hreg as <- <-.
    apply create_Ok in Hc as (e & p & He & Hp & -> & Ht).
    assert (Hr : userItem_of uuid now e p (whitelist CreateUserDto body) !! "role"
                 = Some (prop body "role")).
    { rewrite userItem_of_role, prop_whitelist_in by compute_done.
      unfold js_or. by rewrite Hrole. }
    split.
    + unfold omit. by rewrite lookup_delete_ne.
    + rewrite Ht, lookup_insert_eq. eexists. split; [done|].
      apply marshall_lookup_defined; [done|]. intros Hu. by rewrite Hu in Hrole.
  - destruct e; by simplify_eq.
Qed.


End Login.

Lemma POST_login_success_witness :
  @AuthController.POST_login Demo.platform login_ann Demo.world
  = (mkResponse 200
       (RObject (list_to_map
          [ ("access_token", VStr (@jwt_sign Demo.platform (claims_of Demo.ann))) ])),
     Demo.world) ∧
  claims_of Demo.ann
  = list_to_map [ ("email", VStr "ann@example.com"); ("sub", VStr Demo.ann_id);
                  ("role", VStr "ADMIN"); ("avatarUrl", VNull) ].
Proof.
  split; [|by_vm].
  apply (@POST_login_success Demo.platform login_ann "Ann@Example.com" "secret123"
           Demo.world Demo.ann_id Demo.ann "$2b$10$secret123");
    [by vm_compute | by vm_compute | by vm_compute | reflexivity | by_vm
    | exact Demo_ann_email | | by vm_compute | by vm_compute | by vm_compute
    | by vm_compute | by vm_compute | by vm_compute].
  intros id' item Hid' Hitem.
  exact (Demo_world_unique id' Demo.ann_id item Demo.ann _ _ Hid'
           ltac:(by_vm) Hitem Demo_ann_email eq_refl).
Defined.

Lemma register_then_login_witness :
  ∃ user w1,
    @AuthController.POST_register Demo.platform Demo.carol_id later carol_dto Demo.world
    = (mkResponse 201 (RObject user), w1) ∧
    @AuthController.POST_login Demo.platform
      (credentials "carol@EXAMPLE.com" "correct horse") w1
    = (mkResponse 200
         (RObject (list_to_map
            [ ("access_token",
               VStr (@jwt_sign Demo.platform (list_to_map
                  [ ("email", VStr "carol@example.com");
                    ("sub", VStr Demo.carol_id);
                    ("role", VStr "ADMIN");
                    ("avatarUrl", VNull) ]))) ])),
       w1).
Proof.
  apply (@register_then_login Demo.platform Demo.carol_id later carol_dto
           "Carol@Example.com" "correct horse" "carol@EXAMPLE.com" Demo.world);
    [by vm_compute | by vm_compute | by vm_compute | by vm_compute | reflexivity
    | by_vm | discriminate | | by vm_compute | discriminate | by vm_compute
    | discriminate].
  intros id item [[-> ->]|[-> ->]]%Demo_world_lookup;
    rewrite ?Demo_ann_email, ?Demo_bob_email; by vm_compute.
Defined.

Lemma POST_register_honours_role_witness :
  @AuthController.POST_register Demo.platform Demo.carol_id later register_admin Demo.world
  = (mkResponse 201 (RObject (omit "passwordHash" dave)),
     mkWorld (<[Demo.carol_id := marshall dave]> (table Demo.world)) []) ∧
  omit "passwordHash" dave !! "role" = Some (VStr "ADMIN") ∧
  marshall dave !! "role" = Some (VStr "ADMIN").
Proof.
  assert (Hreg : @AuthController.POST_register Demo.platform Demo.carol_id later
                   register_admin Demo.world
                 = (mkResponse 201 (RObject (omit "passwordHash" dave)),
                    mkWorld (<[Demo.carol_id := marshall dave]> (table Demo.world)) []))
    by by_vm.
  destruct (@POST_register_honours_role Demo.platform Demo.carol_id later register_admin
              Demo.world _ _ eq_refl Hreg) as (Huser & item & Hitem & Hrole).
  cbn [table] in Hitem. rewrite lookup_insert_eq in Hitem.
  apply (inj Some) in Hitem as <-.
  split; [exact Hreg|]. split; [exact Huser|exact Hrole].
Defined.


(** ** PATCH /users/:id, the guards and the shape of errors *)

Section Admin.
Context `{Platform}.

(** Whatever the body of PATCH /users/:id carries, no record appears or
    disappears, the records of other ids are untouched, and in the target
    record nothing changes but [firstName], [lastName], [role],
    [isDisabled], [avatarUrl], [passwordHash] and [updatedAt]; without a
    password in the body [passwordHash] stays as well.  So [userId],
    [email] and [createdAt] cannot be changed. *)
Theorem PATCH_user_frame now id req body w :
  let w' := (UsersController.PATCH_user now id req body w).2 in
  (∀ id', table w !! id' = None → table w' !! id' = None) ∧
  ∀ id' item, table w !! id' = Some item →
    ∃ item',
      table w' !! id' = Some item' ∧
      (id' ≠ id → item' = item) ∧
      (∀ key, key ∉ ["firstName"; "lastName"; "role"; "isDisabled"; "avatarUrl";
                     "passwordHash"; "updatedAt"] →
              item' !! key = item !! key) ∧
      (prop body "password" = VUndefined →
       item' !! "passwordHash" = item !! "passwordHash").
Proof.
  intros w'.
  assert (Hsame : table w' = table w →
            (∀ id', table w !! id' = None → table w' !! id' = None) ∧
            ∀ id' item, table w !! id' = Some item →
              ∃ item', table w' !! id' = Some item' ∧
                (id' ≠ id → item' = item) ∧
                (∀ key, key ∉ ["firstName"; "lastName"; "role"; "isDisabled"; "avatarUrl";
                               "passwordHash"; "updatedAt"] →
                        item' !! key = item !! key) ∧
                (prop body "password" = VUndefined →
                 item' !! "passwordHash" = item !! "passwordHash")).
  { intros ->. split; [done|]. intros id' item Hid. by exists item. }
  destruct (PATCH_user_table now id req body w) as [Heq|(_ & _ & _ & Heq)];
    [by apply Hsame|].
  fold w' in Heq. set (dto := whitelist UpdateUserDto body) in *.
  pose proof (whitelist_UpdateUserDto_clean body) as Hclean. fold dto in Hclean.
  destruct (update_table now id dto w Hclean)
    as [Heq'|(extra & item0 & Hextra & Hid0 & Heq')].
  { apply Hsame. by rewrite Heq. }
  clear Hsame. rewrite Heq' in Heq. clear Heq'. rewrite Heq. split.
  - intros id' Hid'. rewrite lookup_insert_ne; [done|]. intros <-. congruence.
  - intros id' item Hid'. destruct (decide (id' = id)) as [->|Hne].
    + rewrite lookup_insert_eq. eexists. split; [done|]. split; [done|].
      assert (item0 = item) as -> by congruence. split.
      * intros key Hkey. apply assign_frame. cbn. rewrite fmap_app.
        rewrite !not_elem_of_cons in Hkey.
        destruct Hkey as (Hf & Hl & Hr & Hd & Ha & Hp & Hu & _).
        rewrite not_elem_of_cons, not_elem_of_app. split; [done|]. split.
        -- intros Hin%clean_entries_keys; [|done].
           rewrite !elem_of_cons, elem_of_nil in Hin. tauto.
        -- intros Hin. by apply (password_clause_keys _ _ _ Hextra) in Hin.
      * intros Hpw. apply assign_frame.
        assert (extra = []) as ->.
        { unfold password_clause in Hextra. subst dto.
          rewrite prop_whitelist_in, Hpw in Hextra by compute_done. cbn in Hextra.
          congruence. }
        rewrite app_nil_r. cbn. rewrite not_elem_of_cons. split; [done|].
        intros Hin%clean_entries_keys; [|done].
        rewrite !elem_of_cons, elem_of_nil in Hin.
        intuition discriminate.
    + rewrite lookup_insert_ne by done. by exists item.
Qed.

(** The guard of [UsersController.update] does protect the caller: an
    enabled admin who sends PATCH /users/:id for their own id is an
    enabled admin afterwards, whatever the body. *)
Theorem PATCH_user_keeps_own_admin now id req body w item :
  id = AuthenticatedUser.userId req →
  table w !! id = Some item →
  prop item "role" = UserRole.ADMIN → truthy (prop item "isDisabled") = false →
  ∃ item',
    table (UsersController.PATCH_user now id req body w).2 !! id = Some item' ∧
    prop item' "role" = UserRole.ADMIN ∧ truthy (prop item' "isDisabled") = false.
Proof.
  intros Hself Hid Hrole Hdis.
  destruct (PATCH_user_table now id req body w) as [Heq|(_ & _ & Hguard & Heq)].
  { rewrite Heq. by exists item. }
  rewrite Heq. clear Heq. set (dto := whitelist UpdateUserDto body) in *.
  pose proof (whitelist_UpdateUserDto_clean body) as Hclean. fold dto in Hclean.
  unfold self_guard in Hguard. rewrite bool_decide_eq_true_2 in Hguard by done.
  cbn in Hguard. apply orb_false_elim in Hguard as [Hr Hd].
  apply bool_decide_eq_false in Hr. apply dec_stable in Hr.
  destruct (update_table now id dto w Hclean)
    as [Heq'|(extra & item0 & Hextra & Hid0 & Heq')].
  { rewrite Heq'. by exists item. }
  rewrite Heq', lookup_insert_eq. eexists. split; [done|].
  assert (item0 = item) as -> by congruence.
  destruct (assignments_distinct now dto extra Hclean Hextra) as [Hnd _].
  split.
  - apply prop_lookup, assign_lookup; [done|]. right. apply elem_of_app. left.
    rewrite <-Hr. apply entries_intro; [done|]. by rewrite Hr.
  - destruct (decide (prop dto "isDisabled" = VUndefined)) as [Hu|Hu].
    + unfold prop at 1. rewrite assign_frame; [exact Hdis|].
      cbn. rewrite fmap_app, not_elem_of_cons, not_elem_of_app.
      split; [done|]. split.
      * by intros [_ ?]%entries_keys.
      * intros Hin. by apply (password_clause_keys _ _ _ Hextra) in Hin.
    + rewrite (prop_lookup _ _ (prop dto "isDisabled")); [done|].
      apply assign_lookup; [done|]. right. apply elem_of_app. left.
      by apply entries_intro.
Qed.


(** [JwtStrategy.validate] hands on the role of the token, not the role of
    the record: for an enabled record that the store returns, the caller
    it builds has the role the token carries, [RolesGuard] decides on that
    role alone, and the result is the same whatever role the record
    has. *)
Theorem token_role_decides payload w user :
  answers w → table w !! JwtPayload.sub payload = Some user →
  truthy (prop user "isDisabled") = false →
  ∃ caller,
    JwtStrategy.validate payload w
    = (Ok caller, mkWorld (table w) (tail (outages w))) ∧
    AuthenticatedUser.role caller = JwtPayload.role payload ∧
    (∀ requiredRoles,
       RolesGuard.canActivate (Some requiredRoles) (Some caller)
       = truthy (JwtPayload.role payload)
         && bool_decide (JwtPayload.role payload ∈ requiredRoles)) ∧
    (∀ role,
       JwtStrategy.validate payload
         (mkWorld (<[JwtPayload.sub payload := <["role" := role]> user]> (table w))
            (outages w))
       = (Ok caller,
          mkWorld (<[JwtPayload.sub payload := <["role" := role]> user]> (table w))
            (tail (outages w)))).
Proof.
  intros Hans Hid Hdis.
  exists (AuthenticatedUser.mk (JwtPayload.sub payload) (JwtPayload.email payload)
            (JwtPayload.role payload) (JwtPayload.avatarUrl payload)).
  split; [|split; [|split]].
  - rewrite validate_spec, Hans, Hid, Hdis. reflexivity.
  - reflexivity.
  - intros roles. unfold RolesGuard.canActivate. cbn [AuthenticatedUser.role].
    destruct (truthy (JwtPayload.role payload)); reflexivity.
  - intros role. rewrite validate_spec. cbn [table outages]. rewrite Hans.
    rewrite lookup_insert_eq.
    assert (prop (<["role" := role]> user) "isDisabled" = prop user "isDisabled") as ->.
    { unfold prop. by rewrite lookup_insert_ne. }
    by rewrite Hdis.
Qed.


End Admin.

Lemma PATCH_user_keeps_own_admin_witness :
  table Demo.world !! Demo.ann_id = Some Demo.ann ∧
  ∃ item',
    table (@UsersController.PATCH_user Demo.platform later Demo.ann_id Demo.admin_ann
             keep_admin_body Demo.world).2 !! Demo.ann_id = Some item' ∧
    prop item' "role" = UserRole.ADMIN ∧ truthy (prop item' "isDisabled") = false.
Proof.
  assert (Hann : table Demo.world !! Demo.ann_id = Some Demo.ann) by by_vm.
  split; [exact Hann|].
  apply (@PATCH_user_keeps_own_admin Demo.platform later Demo.ann_id Demo.admin_ann
           keep_admin_body Demo.world Demo.ann);
    [reflexivity | exact Hann | by vm_compute | by vm_compute].
Defined.


Lemma token_role_decides_witness :
  let w := mkWorld {[ Demo.ann_id := demoted_ann ]} [] in
  demoted_ann !! "role" = Some (VStr "USER") ∧
  ∃ caller,
    JwtStrategy.validate Demo.ann_token w = (Ok caller, w) ∧
    RolesGuard.canActivate (Some [UserRole.ADMIN]) (Some caller) = true.
Proof.
  intros w. split; [by vm_compute|].
  destruct (token_role_decides Demo.ann_token w demoted_ann eq_refl
              ltac:(by_vm) ltac:(by vm_compute))
    as (caller & Hvalidate & _ & Hguard & _).
  exists caller. split; [exact Hvalidate|]. rewrite Hguard. by vm_compute.
Defined.

(** ** The records of a table the service has built *)

Section Reachable.
Context `{Platform}.

(** In every table that arises from the empty one by serving requests,
    whatever the bodies and whenever the store fails, each record is
    stored under its own [userId], has a lower-case [email], a
    [passwordHash] and a [createdAt] that are strings, and no [password]
    attribute. *)
Theorem reachable_records_well_formed w :
  reachable w → ∀ id item, table w !! id = Some item → well_formed id item.
Proof.
  induction 1 as [down|request w _ IH]; intros id item.
  { cbn. by rewrite lookup_empty. }
  destruct (serve_change request w)
    as [->|uuid now e p dto ->|now id0 dto extra item0 Hclean Hextra Hid0 ->|id0 ->].
  - apply IH.
  - destruct (decide (id = uuid)) as [->|Hneq].
    + rewrite lookup_insert_eq. intros <-%(inj Some). apply created_well_formed.
    + rewrite lookup_insert_ne by done. apply IH.
  - destruct (decide (id = id0)) as [->|Hneq].
    + rewrite lookup_insert_eq. intros <-%(inj Some).
      apply updated_well_formed; [exact Hclean|exact Hextra|by apply IH].
    + rewrite lookup_insert_ne by done. apply IH.
  - intros [_ Hid]%lookup_delete_Some. exact (IH _ _ Hid).
Qed.

End Reachable.

Lemma reachable_records_well_formed_witness :
  let w := (@serve Demo.platform (PostRegister Demo.carol_id later carol_dto)
              (mkWorld ∅ [])).2 in
  ∃ item, table w !! Demo.carol_id = Some item ∧
          @well_formed Demo.platform Demo.carol_id item.
Proof.
  intros w.
  assert (Hw : @reachable Demo.platform w).
  { apply (@reachable_serve Demo.platform), (@reachable_empty Demo.platform). }
  assert (Hitem : table w !! Demo.carol_id
                  = Some (marshall
                            (@userItem_of Demo.platform Demo.carol_id later
                               "Carol@Example.com" "correct horse"
                               (whitelist CreateUserDto carol_dto)))) by by_vm.
  eexists. split; [exact Hitem|].
  exact (@reachable_records_well_formed Demo.platform w Hw _ _ Hitem).
Defined.

(** * Properties of the web client *)

Section Client.
Context `{Platform} `{Browser}.

Lemma decodeToken_in_step now t ls :
  ls !! "authToken" = Some t →
  let '(user, ls') := AuthStore.decodeToken now (Some t) ls in
  in_step (AuthState.mk (Some t) user, ls').
Proof.
  intros Hls. unfold AuthStore.decodeToken.
  destruct (String.eqb t EmptyString) eqn:Ht.
  { apply String.eqb_eq in Ht as ->. by right. }
  apply String.eqb_neq in Ht.
  destruct (jwtDecode t) as [decoded|] eqn:Hd.
  - destruct (_ <? _)%Z.
    + left. apply lookup_delete_eq.
    + exists t, decoded. done.
  - left. apply lookup_delete_eq.
Qed.

Lemma cleared_in_step (ls : Storage) :
  in_step (AuthState.mk None None, delete "authToken" ls).
Proof. left. apply lookup_delete_eq. Qed.

Lemma store_reachable_in_step s : store_reachable s → in_step s.
Proof.
  induction 1 as [now ls|[now [t|]|] s _ _].
  - unfold AuthStore.initialState, AuthStore.getInitialToken.
    destruct (ls !! "authToken") as [t|] eqn:Hls.
    + pose proof (decodeToken_in_step now t ls Hls) as Hstep.
      by destruct (AuthStore.decodeToken now (Some t) ls).
    + by left.
  - cbn [act]. unfold AuthStore.setToken.
    destruct (String.eqb t EmptyString); [apply cleared_in_step|].
    pose proof (decodeToken_in_step now t (<["authToken" := t]> s.2)
                  (lookup_insert_eq _ _ _)) as Hstep.
    by destruct (AuthStore.decodeToken now (Some t) _).
  - apply cleared_in_step.
  - apply cleared_in_step.
Qed.

Lemma turned_away_admin role :
  WithAuth.turned_away (Some ["ADMIN"]) role = negb (bool_decide (role = "ADMIN")).
Proof.
  unfold WithAuth.turned_away. f_equal. apply bool_decide_ext, list_elem_of_singleton.
Qed.

Lemma prop_delete_ne k k' (o : JsObject) : k ≠ k' → prop (delete k o) k' = prop o k'.
Proof. intros Hne. unfold prop. by rewrite lookup_delete_ne. Qed.

Lemma prop_delete_eq k (o : JsObject) : prop (delete k o) k = VUndefined.
Proof. unfold prop. by rewrite lookup_delete_eq. Qed.

(** In every state of the store that arises in a browser from its creation
    by [setToken] and [logout]: when the store shows a user, that user is
    read from the claims of the token of the store, and the interceptor
    puts this token in the Authorization header; when the store shows no
    user, the interceptor leaves the headers as they are. *)
Theorem requests_carry_the_token_of_the_user s headers :
  store_reachable s →
  match AuthState.user s.1 with
  | Some user =>
      ∃ t decoded,
        AuthState.token s.1 = Some t ∧
        jwtDecode t = Some decoded ∧ user = user_of decoded ∧
        ApiClient.interceptor s.2 headers = <["Authorization" := "Bearer " +:+ t]> headers
  | None => ApiClient.interceptor s.2 headers = headers
  end.
Proof.
  intros Hs%store_reachable_in_step. unfold in_step in Hs. unfold ApiClient.interceptor.
  destruct (AuthState.user s.1) as [user|].
  - destruct Hs as (t & decoded & Hne & Htoken & Hls & Hd & ->).
    exists t, decoded. rewrite Hls. apply String.eqb_neq in Hne. by rewrite Hne.
  - by destruct Hs as [-> | ->].
Qed.

(** A token that has expired or cannot be decoded: [setToken] keeps it in
    the store, shows no user and removes it from the storage.  A page
    behind [withAuth] then shows its "Authenticating..." screen and
    redirects nowhere, and requests go out without the token. *)
Theorem setToken_stale now t s :
  t ≠ EmptyString →
  (jwtDecode t = None ∨
   ∃ decoded, jwtDecode t = Some decoded ∧ (DecodedToken.exp decoded * 1000 < now)%Z) →
  let s' := AuthStore.setToken now (Some t) s in
  AuthState.token s'.1 = Some t ∧ AuthState.user s'.1 = None ∧
  s'.2 !! "authToken" = None ∧
  (∀ allowedRoles,
     WithAuth.render allowedRoles s'.1 = WithAuth.Authenticating ∧
     WithAuth.effect allowedRoles s'.1 = None) ∧
  (∀ headers, ApiClient.interceptor s'.2 headers = headers).
Proof.
  intros Hne Hbad. pose proof Hne as Hne'%String.eqb_neq.
  assert (Hset : AuthStore.setToken now (Some t) s
                 = (AuthState.mk (Some t) None,
                    delete "authToken" (<["authToken" := t]> s.2))).
  { unfold AuthStore.setToken, AuthStore.decodeToken. rewrite Hne'.
    destruct Hbad as [-> | (decoded & -> & Hexp)]; [done|].
    apply Z.ltb_lt in Hexp. by rewrite Hexp. }
  cbn zeta. rewrite Hset. cbn [fst snd AuthState.token AuthState.user].
  split; [done|]. split; [done|]. split; [apply lookup_delete_eq|]. split.
  - intros allowedRoles. split; [done|].
    unfold WithAuth.effect. cbn. by rewrite Hne'.
  - intros headers. unfold ApiClient.interceptor. by rewrite lookup_delete_eq.
Qed.

(** What a page behind [withAuth] renders and where its effect redirects
    agree: the wrapped page is rendered exactly for a token, a user and a
    role that is let in, and then nothing is redirected; "Redirecting..."
    goes with the redirection to /dashboard; "Authenticating..." goes with
    the redirection to /login when there is no token and with none when
    there is a token but no user.  And for a caller with a token, the
    sidebar has the Users link exactly when the users page is rendered. *)
Theorem withAuth_gate allowedRoles s :
  match WithAuth.render allowedRoles s with
  | WithAuth.WrappedComponent =>
      WithAuth.effect allowedRoles s = None ∧
      ∃ user, falsy (AuthState.token s) = false ∧ AuthState.user s = Some user ∧
              WithAuth.turned_away allowedRoles (UserState.role user) = false
  | WithAuth.Redirecting =>
      WithAuth.effect allowedRoles s = Some "/dashboard" ∧
      falsy (AuthState.token s) = false
  | WithAuth.Authenticating =>
      WithAuth.effect allowedRoles s
      = (if falsy (AuthState.token s) then Some "/login" else None) ∧
      (falsy (AuthState.token s) = true ∨ AuthState.user s = None)
  end ∧
  (falsy (AuthState.token s) = false →
   (Layout.users_link (AuthState.user s) = true ↔
    WithAuth.render (Some ["ADMIN"]) s = WithAuth.WrappedComponent)).
Proof.
  unfold WithAuth.render, WithAuth.effect, Layout.users_link. split.
  - destruct (AuthState.user s) as [user|].
    + destruct (falsy (AuthState.token s)); [by split; [|left]|].
      destruct (WithAuth.turned_away allowedRoles (UserState.role user)) eqn:Haway.
      * by split.
      * split; [done|]. by exists user.
    + split; [|by right]. by destruct (falsy _).
  - intros ->. destruct (AuthState.user s) as [user|]; [|done].
    rewrite turned_away_admin. by destruct (bool_decide _).
Qed.

(** From the landing page the redirections settle after two steps at
    most, on a page that redirects no further: /login without a token or
    without a user, /admin/users for an ADMIN, and /dashboard for any
    other user, who is sent to /admin/users first and turned away there. *)
Theorem landing_settles s :
  let final := settle 2 "/" s in
  page_effect final s = None ∧
  final =
    match AuthState.user s with
    | Some user =>
        if falsy (AuthState.token s) then "/login"
        else if bool_decide (UserState.role user = "ADMIN") then "/admin/users"
        else "/dashboard"
    | None => "/login"
    end.
Proof.
  assert (Hhome : page_effect "/" s = HomePage.effect s) by reflexivity.
  assert (Hadmin : page_effect "/admin/users" s = WithAuth.effect (Some ["ADMIN"]) s)
    by reflexivity.
  assert (Hdash : page_effect "/dashboard" s = WithAuth.effect None s) by reflexivity.
  assert (Hlogin : page_effect "/login" s = None) by reflexivity.
  cbn [settle]. rewrite Hhome. unfold HomePage.effect.
  destruct (AuthState.user s) as [user|] eqn:Huser.
  - destruct (falsy (AuthState.token s)) eqn:Htoken; cbn [negb andb].
    { by rewrite Hlogin. }
    rewrite bool_decide_eq_true_2 by eauto.
    rewrite Hadmin. unfold WithAuth.effect. rewrite Htoken, Huser, turned_away_admin.
    destruct (bool_decide (UserState.role user = "ADMIN")) eqn:Hrole; cbn [negb].
    + rewrite Hadmin. unfold WithAuth.effect.
      by rewrite Htoken, Huser, turned_away_admin, Hrole.
    + rewrite Hdash. unfold WithAuth.effect. by rewrite Htoken, Huser.
  - rewrite bool_decide_eq_false_2 by (by intros [? ?]). rewrite andb_false_r.
    by rewrite Hlogin.
Qed.

(** The edit dialog on the admin's own account: with the password left
    blank, the role ADMIN and the account enabled, what [onSubmit] sends
    has no password, passes the validation of [UpdateUserDto] and the
    guard of the handler, and is answered with 200; the record has the
    role ADMIN, is enabled and has the email it had, although the payload
    carries an email. *)
Theorem edit_dialog_on_own_account user values id req now w item :
  form_values values → UserFormDialog.userFormSchema values = true →
  truthy (prop values "password") = false →
  prop values "role" = UserRole.ADMIN → prop values "isDisabled" = VBool false →
  prop user "userId" = VStr id → id = AuthenticatedUser.userId req → isUUID id = true →
  answers w → keyed (table w) → table w !! id = Some item →
  ∃ payload item',
    UserFormDialog.onSubmit (Some user) values = UserFormDialog.patch (VStr id) payload ∧
    payload !! "password" = None ∧
    conforms UpdateUserDto (whitelist UpdateUserDto payload) = true ∧
    UsersController.PATCH_user now id req payload w
    = (mkResponse 200 (RObject (omit "passwordHash" item')),
       mkWorld (<[id := item']> (table w)) (tail (outages w))) ∧
    item' !! "role" = Some UserRole.ADMIN ∧
    item' !! "isDisabled" = Some (VBool false) ∧
    item' !! "email" = item !! "email".
Proof.
  intros Hkeys Hschema Hpw Hrole Hdis Huid Hself Huuid Hans Hkeyed Hid.
  exists (delete "password" values).
  set (payload := delete "password" values).
  set (dto := whitelist UpdateUserDto payload).
  assert (Hsubmit : UserFormDialog.onSubmit (Some user) values
                    = UserFormDialog.patch (VStr id) payload).
  { unfold UserFormDialog.onSubmit. rewrite bool_decide_eq_true_2 by eauto.
    by rewrite Hpw, Huid. }
  assert (Hp : ∀ k, k ∈ ["firstName"; "lastName"; "role"; "isDisabled"] →
                    prop dto k = prop values k).
  { intros k Hk. subst dto payload. rewrite !elem_of_cons, elem_of_nil in Hk.
    rewrite prop_whitelist_in, prop_delete_ne; [done| |].
    - intuition (subst; discriminate).
    - cbn. rewrite !elem_of_cons. intuition (subst; auto). }
  assert (Hdpw : prop dto "password" = VUndefined).
  { subst dto payload. rewrite prop_whitelist_in by compute_done. apply prop_delete_eq. }
  assert (Hav : prop dto "avatarUrl" = VUndefined).
  { subst dto payload. rewrite prop_whitelist_in by compute_done.
    rewrite prop_delete_ne by done. unfold prop.
    destruct (values !! "avatarUrl") as [v|] eqn:Hv; [|done].
    assert (Hin : "avatarUrl" ∈ ["email"; "password"; "firstName"; "lastName"; "role";
                                 "isDisabled"]) by (apply Hkeys; eauto).
    rewrite !elem_of_cons, elem_of_nil in Hin. intuition discriminate. }
  unfold UserFormDialog.userFormSchema in Hschema.
  repeat (apply andb_true_iff in Hschema as [Hschema ?]).
  assert (Hvalid : conforms UpdateUserDto dto = true).
  { unfold conforms, UpdateUserDto. cbn [forallb]. unfold valid_property.
    cbn [name IsOptional validators andb].
    rewrite !Hp by (rewrite !elem_of_cons; tauto). rewrite Hdpw, Hav, Hrole, Hdis.
    destruct (prop values "firstName"); try done;
      destruct (prop values "lastName"); try done; by vm_compute. }
  pose proof (whitelist_UpdateUserDto_clean payload) as Hclean. fold dto in Hclean.
  assert (Hr : prop dto "role" = UserRole.ADMIN)
    by (rewrite Hp by (rewrite !elem_of_cons; tauto); done).
  assert (Hd : prop dto "isDisabled" = VBool false)
    by (rewrite Hp by (rewrite !elem_of_cons; tauto); done).
  pose proof (conforms_password_clause _ Hvalid) as Hextra.
  rewrite Hdpw in Hextra. cbn [truthy] in Hextra.
  destruct (assignments_distinct now dto _ Hclean Hextra) as [Hnd _].
  assert (Hin : ("role", UserRole.ADMIN) ∈ entries dto).
  { rewrite <-Hr. apply entries_intro; [done|]. by rewrite Hr. }
  assert (Hin' : ("isDisabled", VBool false) ∈ entries dto).
  { rewrite <-Hd. apply entries_intro; [done|]. by rewrite Hd. }
  eexists. split; [exact Hsubmit|]. split; [apply lookup_delete_eq|].
  split; [exact Hvalid|].
  rewrite PATCH_user_spec, Huuid. fold dto. rewrite Hvalid.
  unfold self_guard. rewrite Hr, Hd. rewrite (bool_decide_eq_false_2 (_ ≠ _)) by (by intros ?).
  rewrite andb_false_r.
  unfold route, bind. rewrite update_spec, Hextra by done. rewrite app_nil_r in *.
  destruct (entries dto) as [|entry rest] eqn:Hentries; [by apply elem_of_nil in Hin|].
  rewrite <-Hentries in *. rewrite (written_found _ _ _ item) by done.
  split; [reflexivity|]. split; [|split].
  - apply assign_lookup; [exact Hnd|]. by right.
  - apply assign_lookup; [exact Hnd|]. by right.
  - apply assign_frame. cbn [fmap list_fmap fst]. rewrite not_elem_of_cons.
    split; [discriminate|]. intros Hk. exact (not_updatable_email (entries_updatable _ _ Hclean Hk)).
Qed.

(** The create dialog sends nothing without a password; with one it posts
    the values as they are, [isDisabled] included, and whenever POST /users
    answers with the created user, that user is stored and returned with
    [isDisabled] false. *)
Theorem create_dialog_ignores_isDisabled values :
  (truthy (prop values "password") = false →
   UserFormDialog.onSubmit None values
   = UserFormDialog.toast_error "Password is required for new users.") ∧
  (truthy (prop values "password") = true →
   UserFormDialog.onSubmit None values = UserFormDialog.post values ∧
   ∀ uuid now w user w',
     UsersController.POST_users uuid now values w = (mkResponse 201 (RObject user), w') →
     user !! "isDisabled" = Some (VBool false) ∧
     ∃ item, table w' !! uuid = Some item ∧ item !! "isDisabled" = Some (VBool false)).
Proof.
  unfold UserFormDialog.onSubmit. rewrite bool_decide_eq_false_2 by (by intros [? ?]).
  split; intros ->; [done|]. split; [done|].
  intros uuid now w user w' Hpost. unfold UsersController.POST_users in Hpost.
  apply route_Ok_inv, pipe_then_Ok in Hpost; [|lia].
  unfold UsersController.create, bind in Hpost.
  destruct (UsersService.create _ _ _ w) as [[created|e] w1] eqn:Hc; [|done].
  apply (inj2 pair) in Hpost as [Hr <-].
  assert (created = user) as -> by congruence.
  apply create_Ok in Hc as (e & p & _ & _ & -> & ->).
  assert (Hitem : userItem_of uuid now e p (whitelist CreateUserDto values) !! "isDisabled"
                  = Some (VBool false)) by (unfold userItem_of; by obj_lookup).
  split.
  - unfold omit. by rewrite lookup_delete_ne.
  - rewrite lookup_insert_eq. eexists. split; [done|].
    by apply marshall_lookup_defined.
Qed.

End Client.

Lemma requests_carry_the_token_of_the_user_witness :
  let s := @AuthStore.setToken demo_browser today (Some "ann.jwt")
             (@AuthStore.initialState demo_browser true today ∅) in
  AuthState.user s.1 = Some (user_of ann_claims) ∧
  ApiClient.interceptor s.2 ∅ = {[ "Authorization" := "Bearer ann.jwt" ]}.
Proof.
  intros s.
  assert (Hs : @store_reachable demo_browser s).
  { apply (@store_acted demo_browser (SetToken today (Some "ann.jwt"))),
      (@store_created demo_browser). }
  pose proof (@requests_carry_the_token_of_the_user demo_browser s ∅ Hs) as Hreq.
  assert (Huser : AuthState.user s.1 = Some (user_of ann_claims)) by by vm_compute.
  rewrite Huser in Hreq. destruct Hreq as (t & decoded & Htoken & _ & _ & Hheaders).
  assert (t = "ann.jwt") as -> by (vm_compute in Htoken; congruence).
  split; [exact Huser|exact Hheaders].
Defined.

Lemma setToken_stale_witness :
  let s' := @AuthStore.setToken demo_browser today (Some "old.jwt")
              (AuthState.mk None None, ∅) in
  AuthState.token s'.1 = Some "old.jwt" ∧ AuthState.user s'.1 = None ∧
  s'.2 !! "authToken" = None ∧
  (∀ allowedRoles,
     WithAuth.render allowedRoles s'.1 = WithAuth.Authenticating ∧
     WithAuth.effect allowedRoles s'.1 = None) ∧
  (∀ headers, ApiClient.interceptor s'.2 headers = headers).
Proof.
  apply (@setToken_stale demo_browser today "old.jwt"); [discriminate|].
  right. exists old_claims. split; [reflexivity|]. by vm_compute.
Defined.

Lemma edit_dialog_on_own_account_witness :
  ∃ payload item',
    UserFormDialog.onSubmit (Some Demo.ann) edit_ann
      = UserFormDialog.patch (VStr Demo.ann_id) payload ∧
    payload !! "password" = None ∧
    @conforms Demo.platform UpdateUserDto (whitelist UpdateUserDto payload) = true ∧
    @UsersController.PATCH_user Demo.platform later Demo.ann_id Demo.admin_ann payload
      Demo.world
    = (mkResponse 200 (RObject (omit "passwordHash" item')),
       mkWorld (<[Demo.ann_id := item']> (table Demo.world)) (tail (outages Demo.world))) ∧
    item' !! "role" = Some UserRole.ADMIN ∧
    item' !! "isDisabled" = Some (VBool false) ∧
    item' !! "email" = Demo.ann !! "email".
Proof.
  apply (@edit_dialog_on_own_account Demo.platform demo_browser Demo.ann edit_ann
           Demo.ann_id Demo.admin_ann later Demo.world Demo.ann);
    [ | by vm_compute | by vm_compute | by vm_compute | by vm_compute | by vm_compute
    | reflexivity | reflexivity | reflexivity | exact Demo_world_keyed | by_vm].
  intros key [v Hv]. unfold edit_ann in Hv. cbn [list_to_map foldr fst snd] in Hv.
  destruct (decide (key = "email")) as [->|?]; [compute_done|].
  destruct (decide (key = "password")) as [->|?]; [compute_done|].
  destruct (decide (key = "firstName")) as [->|?]; [compute_done|].
  destruct (decide (key = "lastName")) as [->|?]; [compute_done|].
  destruct (decide (key = "role")) as [->|?]; [compute_done|].
  destruct (decide (key = "isDisabled")) as [->|?]; [compute_done|].
  by rewrite !lookup_insert_ne, lookup_empty in Hv.
Defined.
